(** * Bread price comparison: product matching, deal ranking, statistics

    A shallow embedding of the pure core of the price-comparison backend:
    [ProductMatcher] (models.py), [PriceAnalyzer] (utils.py), the cleaning
    functions of [ZeptoScraper] (scraping/zepto.py) and the [compare]
    handler (app.py).

    Conventions of the embedding.
    - A Python [str] held by a record is a [string], a string of bytes; the
      character-level passes work on its [list ascii].  The classes and the
      case mapping of [Str] are those of Python on the ASCII characters,
      and what is proved of a function on byte strings is stated for ASCII
      text.  [normalize_name] is also written for text of any characters
      ([Unicode]), with the character database as a parameter.
    - A Python [float] that holds a price is a rational ([Q]): comparisons,
      minimum, maximum and counts are those of the program, while sums,
      means and quotients are exact where the program rounds to a double.
      [NaN] only appears in the statistics, where it is an explicit
      constructor.
    - Regular expressions are kept as written and run by a small
      backtracking matcher with Python's priorities (greedy repetition,
      ordered alternation, leftmost match).
    - Exceptions are values of a result type. *)

From Stdlib Require Import List String Ascii Bool Arith ZArith QArith Qabs Lia Lqa.
From Stdlib Require Import Sorted Permutation.
Import ListNotations.

Local Open Scope nat_scope.
Local Open Scope list_scope.

(** ** Python strings: the character classes on ASCII characters *)

Module Str.

Definition code (c : ascii) : nat := nat_of_ascii c.

Definition between (lo hi : nat) (c : ascii) : bool :=
  (lo <=? code c) && (code c <=? hi).

(** [\d] *)
Definition is_digit (c : ascii) : bool := between 48 57 c.
Definition is_upper (c : ascii) : bool := between 65 90 c.
Definition is_lower (c : ascii) : bool := between 97 122 c.
Definition is_alnum (c : ascii) : bool := is_digit c || is_upper c || is_lower c.
Definition is_underscore (c : ascii) : bool := code c =? 95.

(** [\w]: letters, digits and the underscore. *)
Definition is_word (c : ascii) : bool := is_alnum c || is_underscore c.

(** [\s], also the set removed by [str.strip()]: tab, newline, vertical
    tab, form feed, carriage return, the four separators 0x1c-0x1f, space. *)
Definition is_space (c : ascii) : bool :=
  between 9 13 c || between 28 31 c || (code c =? 32).

Definition space : ascii := " "%char.

Definition to_lower (c : ascii) : ascii :=
  if is_upper c then ascii_of_nat (code c + 32) else c.

(** [str.lower()] *)
Definition lower (s : list ascii) : list ascii := map to_lower s.

(** The input without its longest prefix of characters in [p]. *)
Fixpoint skip {char : Type} (p : char -> bool) (s : list char) : list char :=
  match s with
  | [] => []
  | c :: s' => if p c then skip p s' else s
  end.

Definition lstrip (s : list ascii) : list ascii := skip is_space s.

Fixpoint rstrip (s : list ascii) : list ascii :=
  match s with
  | [] => []
  | c :: s' =>
      match rstrip s' with
      | [] => if is_space c then [] else [c]
      | r => c :: r
      end
  end.

(** [str.strip()] *)
Definition strip (s : list ascii) : list ascii := rstrip (lstrip s).

Definition chars (s : string) : list ascii := list_ascii_of_string s.
Definition str (l : list ascii) : string := string_of_list_ascii l.

End Str.

(** ** Regular expressions with Python's matching priorities *)

Module Re.

Section Regex.

(** The characters of the text: any type. *)
Context {char : Type}.

Inductive regex : Type :=
| Eps
| Class (p : char -> bool)
| Cat (r1 r2 : regex)
| Alt (r1 r2 : regex)
| Star (r : regex)
| Group (i : nat) (r : regex).

Definition Plus (r : regex) : regex := Cat r (Star r).
Definition Opt (r : regex) : regex := Alt r Eps.
Definition NotClass (p : char -> bool) : regex := Class (fun c => negb (p c)).

(** Captured groups, most recent first. *)
Definition captures := list (nat * list char).

Fixpoint group (m : captures) (i : nat) : list char :=
  match m with
  | [] => []
  | (j, s) :: m' => if Nat.eqb i j then s else group m' i
  end.

(** A matcher takes the input, the groups so far and a continuation for
    the rest of the pattern; [None] makes the caller backtrack. *)
Definition matcher (A : Type) : Type :=
  list char -> captures -> (list char -> captures -> option A) -> option A.

(** The loop of a greedy star: one more iteration of [body] is tried before
    stopping; an iteration has to consume input, so [n], at least the length
    of the input, bounds their number. *)
Fixpoint star_loop {A : Type} (body : matcher A)
    (k : list char -> captures -> option A)
    (n : nat) (s : list char) (caps : captures) {struct n} : option A :=
  match n with
  | O => k s caps
  | S n' =>
      match body s caps
              (fun s1 caps1 =>
                 if List.length s1 <? List.length s
                 then star_loop body k n' s1 caps1 else None)
      with
      | Some a => Some a
      | None => k s caps
      end
  end.

(** [rmatch r s caps k]: match [r] at the head of [s], then hand the rest of
    the input to the continuation [k]; when [k] fails the matcher
    backtracks into [r].  [Alt] tries its left branch first, [Star] is
    greedy. *)
Fixpoint rmatch {A : Type} (r : regex) (s : list char) (caps : captures)
    (k : list char -> captures -> option A) {struct r} : option A :=
  match r with
  | Eps => k s caps
  | Class p =>
      match s with
      | c :: s' => if p c then k s' caps else None
      | [] => None
      end
  | Cat r1 r2 => rmatch r1 s caps (fun s1 caps1 => rmatch r2 s1 caps1 k)
  | Alt r1 r2 =>
      match rmatch r1 s caps k with
      | Some a => Some a
      | None => rmatch r2 s caps k
      end
  | Star r1 =>
      star_loop (fun s1 caps1 k1 => rmatch r1 s1 caps1 k1) k (List.length s) s caps
  | Group i r1 =>
      rmatch r1 s caps
        (fun s1 caps1 => k s1 ((i, firstn (List.length s - List.length s1) s) :: caps1))
  end.

(** [re.match]: the rest of the input after the match, and the groups. *)
Definition re_match (r : regex) (s : list char) : option (list char * captures) :=
  rmatch r s [] (fun rest caps => Some (rest, caps)).

(** [re.search]: the leftmost position where [re.match] succeeds. *)
Fixpoint re_search (r : regex) (s : list char) : option captures :=
  match re_match r s with
  | Some (_, caps) => Some caps
  | None =>
      match s with
      | [] => None
      | _ :: s' => re_search r s'
      end
  end.

(** [re.sub] for a pattern that never matches the empty string (both
    patterns of this program need at least one character): scan from the
    left; where the pattern matches, emit [repl] and go on after the match;
    elsewhere copy one character.  [n] bounds the number of steps. *)
Fixpoint re_sub_steps (n : nat) (r : regex) (repl s : list char) : list char :=
  match n with
  | O => s
  | S n' =>
      match s with
      | [] => []
      | c :: s' =>
          match re_match r s with
          | Some (rest, _) =>
              if List.length rest <? List.length s
              then repl ++ re_sub_steps n' r repl rest
              else c :: re_sub_steps n' r repl s'
          | None => c :: re_sub_steps n' r repl s'
          end
      end
  end.

Definition re_sub (r : regex) (repl s : list char) : list char :=
  re_sub_steps (List.length s) r repl s.

(** The greedy star of a character class: [k] is tried on the rest after
    the longest run first, then after shorter and shorter ones. *)
Fixpoint star_class {A : Type} (p : char -> bool)
    (k : list char -> captures -> option A)
    (s : list char) (caps : captures) : option A :=
  match s with
  | c :: s' =>
      if p c
      then match star_class p k s' caps with
           | Some a => Some a
           | None => k s caps
           end
      else k s caps
  | [] => k s caps
  end.

End Regex.

(** One character, and a literal text. *)
Definition Chr (c : ascii) : regex := Class (Ascii.eqb c).

Fixpoint Lit (s : list ascii) : regex :=
  match s with
  | [] => Eps
  | c :: s' => Cat (Chr c) (Lit s')
  end.

End Re.

Import Str Re.

(** ** ASCII text

    The strings of the records are strings of bytes, and the classes of
    [Str] are Python's classes on the ASCII characters; on other characters
    Python's [\w], [\s], [\d], [str.lower()] and [str.split()] go by the
    Unicode database.  What is proved below of a function on byte strings
    is stated for ASCII text, where the two agree. *)

Definition is_ascii (c : ascii) : bool := code c <? 128.

Definition ascii_text (s : string) : bool := forallb is_ascii (chars s).

(** ** models.py: [ProductMatcher.normalize_name] *)

(** [r'[^\w\s]'] *)
Definition non_word_space : regex := NotClass (fun c => is_word c || is_space c).

(** [r'\s+'] *)
Definition spaces : regex := Plus (Class is_space).

Definition normalize_name (name : string) : string :=
  let name := lower (chars name) in
  let name := re_sub non_word_space [] name in
  let name := re_sub spaces [space] name in
  str (strip name).

(** *** The passes of [normalize_name] as list functions

    What the two substitutions compute, written without the matcher, and the
    normal form of a name. *)

(** The characters that [r'[^\w\s]'] leaves in place. *)
Definition keep (c : ascii) : bool := is_word c || is_space c.

(** Replace every run of whitespace by one space; [after_space] tells that
    the previous character was whitespace. *)
Fixpoint squeeze (after_space : bool) (s : list ascii) : list ascii :=
  match s with
  | [] => []
  | c :: s' =>
      if is_space c
      then if after_space then squeeze true s' else space :: squeeze true s'
      else c :: squeeze false s'
  end.

(** Lower-case, drop what is neither a word character nor whitespace,
    collapse whitespace, trim. *)
Definition passes (s : list ascii) : list ascii :=
  strip (squeeze false (filter keep (lower s))).

Definition normalize_name_passes (name : string) : string :=
  str (passes (chars name)).

(** The characters a normalized name is made of. *)
Definition is_name_char (c : ascii) : bool :=
  is_lower c || is_digit c || is_underscore c || Ascii.eqb c space.

Definition starts_clean (s : list ascii) : Prop :=
  match s with
  | [] => True
  | c :: _ => is_space c = false
  end.

(** Whitespace only occurs as a single space between two other characters
    (or as a single leading space). *)
Fixpoint tidy (s : list ascii) : Prop :=
  match s with
  | [] => True
  | c :: s' => (is_space c = true -> c = space /\ starts_clean s') /\ tidy s'
  end.

(** *** The function on text of any characters

    The names above are strings of bytes, and the classes of [Str] are the
    classes of Python on ASCII characters.  A Python string is a list of
    characters of any kind; here the function is written for those, with
    the part of Python's character database it uses as a parameter. *)

Module Unicode.

(** The characters, the classes [\w] and [\s] (the characters of [\s] are
    also the ones [str.strip()] removes), the space, and [str.lower()]. *)
Record database : Type := mkDatabase {
  char : Type;
  is_word : char -> bool;
  is_space : char -> bool;
  space : char;
  lower : list char -> list char
}.

Section Text.

Variable db : database.

Definition lstrip (s : list (char db)) : list (char db) := skip (is_space db) s.

Fixpoint rstrip (s : list (char db)) : list (char db) :=
  match s with
  | [] => []
  | c :: s' =>
      match rstrip s' with
      | [] => if is_space db c then [] else [c]
      | r => c :: r
      end
  end.

(** [str.strip()] *)
Definition strip (s : list (char db)) : list (char db) := rstrip (lstrip s).

(** [r'[^\w\s]'] *)
Definition non_word_space : regex :=
  NotClass (fun c => is_word db c || is_space db c).

(** [r'\s+'] *)
Definition spaces : regex := Plus (Class (is_space db)).

Definition normalize_name (name : list (char db)) : list (char db) :=
  let name := lower db name in
  let name := re_sub non_word_space [] name in
  let name := re_sub spaces [space db] name in
  strip name.

(** The passes as list functions, as for the byte strings. *)
Definition keep (c : char db) : bool := is_word db c || is_space db c.

Fixpoint squeeze (after_space : bool) (s : list (char db)) : list (char db) :=
  match s with
  | [] => []
  | c :: s' =>
      if is_space db c
      then if after_space then squeeze true s' else space db :: squeeze true s'
      else c :: squeeze false s'
  end.

Definition passes (s : list (char db)) : list (char db) :=
  strip (squeeze false (filter keep (lower db s))).

Definition starts_clean (s : list (char db)) : Prop :=
  match s with
  | [] => True
  | c :: _ => is_space db c = false
  end.

Fixpoint tidy (s : list (char db)) : Prop :=
  match s with
  | [] => True
  | c :: s' => (is_space db c = true -> c = space db /\ starts_clean s') /\ tidy s'
  end.

(** A character that lower-casing leaves as it is. *)
Definition lowered (c : char db) : Prop := lower db [c] = [c].

(** What is used of the database: the space is whitespace; whitespace is
    not a word character; lower-casing leaves the space as it is, yields
    only characters it leaves as they are, and leaves a text of such
    characters as it is. *)
Definition lawful : Prop :=
  is_space db (space db) = true
  /\ (forall c, is_space db c = true -> is_word db c = false)
  /\ lowered (space db)
  /\ (forall s c, In c (lower db s) -> lowered c)
  /\ (forall s, Forall lowered s -> lower db s = s).

End Text.

(** The database of the byte strings: the ASCII classes of [Str]. *)
Definition ascii_database : database :=
  {| char := ascii;
     is_word := Str.is_word;
     is_space := Str.is_space;
     space := Str.space;
     lower := Str.lower |}.

End Unicode.

(** ** scraping/zepto.py: [ZeptoScraper.clean_weight] *)

Definition number : regex :=
  Cat (Plus (Class is_digit)) (Opt (Cat (Chr "."%char) (Plus (Class is_digit)))).

Definition unit_names : list string :=
  ["g"; "kg"; "ml"; "l"; "gm"; "gram"; "piece"; "pcs"]%string.

(** [x1|x2|...|xn], tried from left to right. *)
Definition alternatives (l : list string) : regex :=
  fold_right (fun x r => Alt (Lit (chars x)) r) (Class (fun _ => false)) l.

(** [r'(\d+(?:\.\d+)?)\s*(g|kg|ml|l|gm|gram|piece|pcs)'] *)
Definition weight_re : regex :=
  Cat (Group 1 number)
      (Cat (Star (Class is_space)) (Group 2 (alternatives unit_names))).

Definition mem (x : string) (l : list string) : bool := existsb (String.eqb x) l.

Definition clean_weight (weight_text : string) : string :=
  if String.eqb weight_text EmptyString then EmptyString
  else
    let weight_text := lower (chars weight_text) in
    match re_search weight_re weight_text with
    | Some m =>
        let value := group m 1 in
        let unit := str (group m 2) in
        if mem unit ["g"; "gm"; "gram"]%string then str (value ++ chars "g")
        else if mem unit ["kg"]%string then str (value ++ chars "kg")
        else if mem unit ["piece"; "pcs"]%string then str (value ++ chars "pc")
        else str weight_text
    | None => str weight_text
    end.

(** ** The fuzzy string ratio used by the scorer

    models.py imports [fuzz] from the fuzzywuzzy package, which is not part
    of the repository; this module is the model of the one function the
    scorer calls, [token_sort_ratio], and of what it is made of. *)

Module Fuzz.

(** [str.split()]: the maximal runs of non-whitespace characters.  [cur]
    holds the current run, last character first. *)
Fixpoint split_from (cur : list ascii) (s : list ascii) : list (list ascii) :=
  match s with
  | [] => match cur with [] => [] | _ => [rev cur] end
  | c :: s' =>
      if is_space c
      then match cur with
           | [] => split_from [] s'
           | _ => rev cur :: split_from [] s'
           end
      else split_from (c :: cur) s'
  end.

Definition split (s : list ascii) : list (list ascii) := split_from [] s.

Definition token_leb (a b : list ascii) : bool := String.leb (str a) (str b).

Fixpoint insert_token (t : list ascii) (l : list (list ascii)) : list (list ascii) :=
  match l with
  | [] => [t]
  | u :: l' => if token_leb t u then t :: l else u :: insert_token t l'
  end.

(** [sorted(tokens)] *)
Definition sorted_tokens (l : list (list ascii)) : list (list ascii) :=
  fold_right insert_token [] l.

(** [" ".join(tokens)] *)
Fixpoint join (l : list (list ascii)) : list ascii :=
  match l with
  | [] => []
  | [t] => t
  | t :: l' => t ++ space :: join l'
  end.

Definition process_and_sort (s : list ascii) : list ascii :=
  strip (join (sorted_tokens (split s))).

(** One row of the edit-distance table.  [prev] is the row of the prefix
    before [x], [left] the entry just computed in the new row.  Inserting
    or deleting a character costs 1, replacing one costs 2. *)
Fixpoint next_row (x : ascii) (b : list ascii) (prev : list nat) (left : nat)
    : list nat :=
  match b, prev with
  | y :: b', diag :: ((up :: _) as prev') =>
      let v := Nat.min (Nat.min (up + 1) (left + 1))
                       (diag + if Ascii.eqb x y then 0 else 2) in
      v :: next_row x b' prev' v
  | _, _ => []
  end.

Definition step_row (b : list ascii) (prev : list nat) (x : ascii) : list nat :=
  let first := hd 0 prev + 1 in
  first :: next_row x b prev first.

Definition rows_of (a b : list ascii) : list nat :=
  fold_left (step_row b) a (seq 0 (S (List.length b))).

Definition distance (a b : list ascii) : nat := last (rows_of a b) 0.

(** The edit distance by its recurrence on the last characters of the two
    texts, which are given reversed: drop the last character of one text or
    of the other for 1, or of both for 0 when they are the same and for 2
    when they differ.  [distance] fills the table of this recurrence row by
    row (lemma [distance_edit]). *)
Fixpoint edit (ra rb : list ascii) : nat :=
  match ra with
  | [] => List.length rb
  | x :: ra' =>
      (fix edit_x (rb : list ascii) : nat :=
         match rb with
         | [] => List.length ra
         | y :: rb' =>
             Nat.min (Nat.min (edit ra' rb + 1) (edit_x rb' + 1))
                     (edit ra' rb' + if Ascii.eqb x y then 0 else 2)
         end) rb
  end.

(** The prefixes of a text that extend the prefix [rb] by the characters
    of [todo], each reversed. *)
Fixpoint extend (rb todo : list ascii) : list (list ascii) :=
  match todo with
  | [] => []
  | y :: todo' => (y :: rb) :: extend (y :: rb) todo'
  end.

Definition prefixes (b : list ascii) : list (list ascii) := [] :: extend [] b.

(** [int(round(n / d))] for [0 <= n] and [0 < d]: Python rounds halves to
    the even neighbour. *)
Definition round_half_even (n d : Z) : Z :=
  let q := (n / d)%Z in
  let r := (n mod d)%Z in
  if (2 * r <? d)%Z then q
  else if (d <? 2 * r)%Z then (q + 1)%Z
  else if Z.even q then q else (q + 1)%Z.

Definition list_eqb (a b : list ascii) : bool := String.eqb (str a) (str b).

(** [fuzz.ratio]: 100 for equal strings, 0 when one is empty, otherwise
    [100 * (len(a) + len(b) - distance) / (len(a) + len(b))], rounded. *)
Definition ratio (a b : list ascii) : Z :=
  if list_eqb a b then 100%Z
  else if (Nat.eqb (List.length a) 0 || Nat.eqb (List.length b) 0)%bool then 0%Z
  else
    let lensum := Z.of_nat (List.length a + List.length b) in
    round_half_even (100 * (lensum - Z.of_nat (distance a b))) lensum.

(** Modelled from the spec: [fuzz.token_sort_ratio] of the fuzzywuzzy
    package, which is imported by models.py and is not part of the
    repository.  The spec describes it as the standard token-sort ratio:
    split each string on whitespace, sort the tokens, join them with single
    spaces, and take an edit-distance-based similarity between the two
    joined strings, scaled to 0..100. *)
Definition token_sort_ratio (s1 s2 : string) : Z :=
  ratio (process_and_sort (chars s1)) (process_and_sort (chars s2)).

(** The package cleans its arguments first: characters outside [\w] become
    spaces, the text is lower-cased and stripped.  A normalized name is
    left as it is (lemma [full_process_normalized]), so the step is not
    part of [token_sort_ratio] above. *)
Definition full_process (s : list ascii) : list ascii :=
  strip (lower (map (fun c => if is_word c then c else space) s)).

End Fuzz.

(** ** models.py: the data model *)

Module Product.
Record t : Type := mk {
  name : string;
  brand : string;
  weight : string;
  weight_clean : string;
  price : string;
  price_numeric : Q;
  image : string;
  platform : string
}.
End Product.

Module ProductMatch.
Record t : Type := mk {
  product_name : string;
  brand : string;
  weight : string;
  platform1 : string;
  price1 : Q;
  platform2 : string;
  price2 : Q;
  price_diff : Q;
  price_diff_pct : Q;
  similarity : Z;
  cheaper_platform : string;
  savings : Q
}.
End ProductMatch.

(** ** models.py: [ProductMatcher.calculate_similarity] *)

(** Truth value of a string: the empty string is false. *)
Definition truthy (s : string) : bool := negb (String.eqb s EmptyString).

Definition calculate_similarity (name1 name2 weight1 weight2 : string) : Z :=
  let name_sim := Fuzz.token_sort_ratio (normalize_name name1) (normalize_name name2) in
  let weight_bonus :=
    if (truthy weight1 && truthy weight2 && String.eqb weight1 weight2)%bool
    then 20%Z else 0%Z in
  Z.min 100 (name_sim + weight_bonus).

(** ** Exceptions *)

Inductive exn : Type :=
| KeyError (key : string).

Inductive result (A : Type) : Type :=
| Ok (a : A)
| Raise (e : exn).
Arguments Ok {A} a.
Arguments Raise {A} e.

Definition bind {A B : Type} (m : result A) (f : A -> result B) : result B :=
  match m with
  | Ok a => f a
  | Raise e => Raise e
  end.

Notation "x <- m ;; k" := (bind m (fun x => k))
  (at level 61, m at next level, right associativity).

(** A [for] loop over [xs] that updates the value [acc]; an exception in the
    body ends the loop. *)
Fixpoint for_each {X S : Type} (xs : list X) (acc : S)
    (body : X -> S -> result S) : result S :=
  match xs with
  | [] => Ok acc
  | x :: xs' => acc' <- body x acc ;; for_each xs' acc' body
  end.

(** ** The part of pandas the program uses *)

Module pd.

(** A frame of product rows.  [columns] are the labels the frame has; a
    lookup by another label raises [KeyError]. *)
Record DataFrame : Type := mkDataFrame {
  columns : list string;
  rows : list Product.t
}.

Definition product_keys : list string :=
  ["name"; "brand"; "weight"; "weight_clean"; "price"; "price_numeric";
   "image"; "platform"]%string.

(** [pd.DataFrame(records)] for a list of product dictionaries as the
    scrapers build them, each with the eight keys.  The columns come from
    the keys of the records, so the frame of an empty list has none. *)
Definition DataFrame_of (records : list Product.t) : DataFrame :=
  {| columns := match records with [] => [] | _ :: _ => product_keys end;
     rows := records |}.

Definition has_column (df : DataFrame) (key : string) : bool :=
  mem key (columns df).

(** [df[key]]: the column, one value per row. *)
Definition getitem {A : Type} (df : DataFrame) (key : string)
    (field : Product.t -> A) : result (list A) :=
  if has_column df key then Ok (map field (rows df)) else Raise (KeyError key).

(** [row[key]] for a row of [df.iterrows()]. *)
Definition row_getitem {A : Type} (df : DataFrame) (row : Product.t)
    (key : string) (field : Product.t -> A) : result A :=
  if has_column df key then Ok (field row) else Raise (KeyError key).

(** [column == value] *)
Definition eq_mask (column : list string) (value : string) : list bool :=
  map (fun x => String.eqb x value) column.

Fixpoint select {A : Type} (l : list A) (mask : list bool) : list A :=
  match l, mask with
  | x :: l', b :: mask' => if b then x :: select l' mask' else select l' mask'
  | _, _ => []
  end.

(** [df[mask]] *)
Definition getitem_mask (df : DataFrame) (mask : list bool) : DataFrame :=
  {| columns := columns df; rows := select (rows df) mask |}.

Definition iterrows (df : DataFrame) : list Product.t := rows df.

(** [Series.unique()]: the distinct values in order of first appearance. *)
Fixpoint unique (l : list string) : list string :=
  match l with
  | [] => []
  | x :: l' => x :: filter (fun y => negb (String.eqb x y)) (unique l')
  end.

(** [Series.nunique()] *)
Definition nunique (l : list string) : nat := List.length (unique l).

(** A float result of a reduction: not-a-number, a rational, or the square
    root of a rational. *)
Inductive float : Type :=
| NaN
| Num (q : Q)
| Sqrt (q : Q).

Definition sum (l : list Q) : Q := fold_left Qplus l 0%Q.

Definition count (l : list Q) : Q := inject_Z (Z.of_nat (List.length l)).

(** [Series.mean()], as the exact quotient; pandas rounds the sum and the
    quotient to doubles. *)
Definition mean (l : list Q) : float :=
  match l with
  | [] => NaN
  | _ :: _ => Num (sum l / count l)%Q
  end.

Fixpoint insert_asc (x : Q) (l : list Q) : list Q :=
  match l with
  | [] => [x]
  | y :: l' => if Qle_bool x y then x :: l else y :: insert_asc x l'
  end.

Definition sort_values (l : list Q) : list Q := fold_right insert_asc [] l.

(** [Series.median()]: the middle of the sorted values, the mean of the two
    middle ones when their number is even. *)
Definition median (l : list Q) : float :=
  match l with
  | [] => NaN
  | _ :: _ =>
      let v := sort_values l in
      let n := List.length l in
      if Nat.even n
      then Num ((nth (n / 2 - 1)%nat v 0 + nth (n / 2)%nat v 0) / 2)%Q
      else Num (nth (n / 2) v 0%Q)
  end.

(** [Series.min()] *)
Definition min (l : list Q) : float :=
  match l with
  | [] => NaN
  | x :: l' => Num (fold_left (fun m y => if Qle_bool y m then y else m) l' x)
  end.

(** [Series.max()] *)
Definition max (l : list Q) : float :=
  match l with
  | [] => NaN
  | x :: l' => Num (fold_left (fun m y => if Qle_bool m y then y else m) l' x)
  end.

(** [Series.std()], the sample standard deviation (N-1 in the
    denominator); not a number below two values. *)
Definition std (l : list Q) : float :=
  match l with
  | [] | [_] => NaN
  | _ :: _ :: _ =>
      let m := (sum l / count l)%Q in
      Sqrt (sum (map (fun x => (x - m) * (x - m))%Q l) / (count l - 1))%Q
  end.

End pd.

(** ** models.py: [ProductMatcher.match_products] *)

Definition Qltb (a b : Q) : bool := negb (Qle_bool b a).

(** [max(a, b)] of Python: [a] unless [b] is greater. *)
Definition py_max (a b : Q) : Q := if Qltb a b then b else a.

Definition match_pair (df1 df2 : pd.DataFrame) (platform1 platform2 : string)
    (threshold : Q) (row1 row2 : Product.t) (matches : list ProductMatch.t)
    : result (list ProductMatch.t) :=
  name1 <- pd.row_getitem df1 row1 "name" Product.name ;;
  name2 <- pd.row_getitem df2 row2 "name" Product.name ;;
  weight1 <- pd.row_getitem df1 row1 "weight_clean" Product.weight_clean ;;
  weight2 <- pd.row_getitem df2 row2 "weight_clean" Product.weight_clean ;;
  let similarity := calculate_similarity name1 name2 weight1 weight2 in
  if Qle_bool threshold (inject_Z similarity) then
    p1 <- pd.row_getitem df1 row1 "price_numeric" Product.price_numeric ;;
    p2 <- pd.row_getitem df2 row2 "price_numeric" Product.price_numeric ;;
    let price_diff := Qabs (p1 - p2)%Q in
    let max_price := py_max p1 p2 in
    let price_diff_pct :=
      if Qltb 0%Q max_price then (price_diff / max_price * 100)%Q else 0%Q in
    let cheaper := if Qltb p1 p2 then platform1 else platform2 in
    let savings := price_diff in
    brand <- pd.row_getitem df1 row1 "brand" Product.brand ;;
    Ok (matches ++
        [ {| ProductMatch.product_name := name1;
             ProductMatch.brand := brand;
             ProductMatch.weight := weight1;
             ProductMatch.platform1 := platform1;
             ProductMatch.price1 := p1;
             ProductMatch.platform2 := platform2;
             ProductMatch.price2 := p2;
             ProductMatch.price_diff := price_diff;
             ProductMatch.price_diff_pct := price_diff_pct;
             ProductMatch.similarity := similarity;
             ProductMatch.cheaper_platform := cheaper;
             ProductMatch.savings := savings |} ])
  else Ok matches.

Definition match_products (df : pd.DataFrame) (threshold : Q)
    : result (list ProductMatch.t) :=
  let matches := [] in
  column <- pd.getitem df "platform" Product.platform ;;
  let platforms := pd.unique column in
  if List.length platforms <? 2 then Ok matches
  else
    for_each platforms matches (fun platform1 matches =>
      column1 <- pd.getitem df "platform" Product.platform ;;
      let df1 := pd.getitem_mask df (pd.eq_mask column1 platform1) in
      for_each platforms matches (fun platform2 matches =>
        if String.leb platform2 platform1 then Ok matches
        else
          column2 <- pd.getitem df "platform" Product.platform ;;
          let df2 := pd.getitem_mask df (pd.eq_mask column2 platform2) in
          for_each (pd.iterrows df1) matches (fun row1 matches =>
            for_each (pd.iterrows df2) matches (fun row2 matches =>
              match_pair df1 df2 platform1 platform2 threshold row1 row2 matches)))).

(** ** models.py: [ProductMatcher.get_best_deals] *)

(** Where [x] goes in a list sorted by decreasing savings: after the
    records that save strictly more, before the others. *)
Fixpoint insert_desc (x : ProductMatch.t) (l : list ProductMatch.t)
    : list ProductMatch.t :=
  match l with
  | [] => [x]
  | y :: l' =>
      if Qltb (ProductMatch.savings x) (ProductMatch.savings y)
      then y :: insert_desc x l'
      else x :: l
  end.

(** [sorted(matches, key=lambda x: x.savings, reverse=True)]: a stable
    sort, records with equal keys stay in the order of the input. *)
Definition sorted_by_savings_desc (matches : list ProductMatch.t)
    : list ProductMatch.t :=
  fold_right insert_desc [] matches.

(** [l[:n]]: the first [n] items, and for a negative [n] all but the last
    [-n]. *)
Definition slice_to {A : Type} (l : list A) (n : Z) : list A :=
  if (0 <=? n)%Z then firstn (Z.to_nat n) l
  else firstn (List.length l - Z.to_nat (- n)) l.

Definition get_best_deals (matches : list ProductMatch.t) (top_n : Z)
    : list ProductMatch.t :=
  let sorted_matches := sorted_by_savings_desc matches in
  slice_to sorted_matches top_n.

(** *** The same function on list objects

    Python lists are objects of a store and [matches] is a reference to
    one.  [sorted] and slicing read their argument and allocate a new list;
    the store also has the in-place update that [list.sort] or [append]
    would use. *)

Module Store.

Definition ref : Type := nat.
Definition store : Type := list (list ProductMatch.t).

Definition M (A : Type) : Type := store -> A * store.

Definition ret {A : Type} (a : A) : M A := fun st => (a, st).

Definition bind {A B : Type} (m : M A) (f : A -> M B) : M B :=
  fun st => let (a, st') := m st in f a st'.

Definition load (r : ref) : M (list ProductMatch.t) :=
  fun st => (nth r st [], st).

Definition alloc (l : list ProductMatch.t) : M ref :=
  fun st => (List.length st, st ++ [l]).

Fixpoint update (st : store) (r : ref) (l : list ProductMatch.t) : store :=
  match st, r with
  | [], _ => []
  | _ :: st', O => l :: st'
  | x :: st', S r' => x :: update st' r' l
  end.

Definition write (r : ref) (l : list ProductMatch.t) : M unit :=
  fun st => (tt, update st r l).

(** [sorted(matches, key=..., reverse=True)] *)
Definition sorted (matches : ref) : M ref :=
  bind (load matches) (fun l => alloc (sorted_by_savings_desc l)).

(** [l[:n]] *)
Definition slice (l : ref) (n : Z) : M ref :=
  bind (load l) (fun items => alloc (slice_to items n)).

(** [matches.sort(key=..., reverse=True)], which the program does not use. *)
Definition sort_in_place (matches : ref) : M unit :=
  bind (load matches) (fun l => write matches (sorted_by_savings_desc l)).

Definition get_best_deals (matches : ref) (top_n : Z) : M ref :=
  bind (sorted matches) (fun sorted_matches => slice sorted_matches top_n).

End Store.

(** ** utils.py: [PriceAnalyzer.calculate_statistics] *)

Record Statistics : Type := mkStatistics {
  total_products : nat;
  total_platforms : nat;
  total_brands : nat;
  avg_price : pd.float;
  median_price : pd.float;
  min_price : pd.float;
  max_price : pd.float;
  price_std : pd.float
}.

Definition calculate_statistics (df : pd.DataFrame) : result Statistics :=
  let total_products := List.length (pd.rows df) in
  platform <- pd.getitem df "platform" Product.platform ;;
  brand <- pd.getitem df "brand" Product.brand ;;
  price1 <- pd.getitem df "price_numeric" Product.price_numeric ;;
  price2 <- pd.getitem df "price_numeric" Product.price_numeric ;;
  price3 <- pd.getitem df "price_numeric" Product.price_numeric ;;
  price4 <- pd.getitem df "price_numeric" Product.price_numeric ;;
  price5 <- pd.getitem df "price_numeric" Product.price_numeric ;;
  Ok {| total_products := total_products;
        total_platforms := pd.nunique platform;
        total_brands := pd.nunique brand;
        avg_price := pd.mean price1;
        median_price := pd.median price2;
        min_price := pd.min price3;
        max_price := pd.max price4;
        price_std := pd.std price5 |}.

(** ** The weight pattern, read directly

    What [re.search] finds for the weight pattern, written as a scan of the
    text; the matcher is shown to compute exactly this. *)

(** [s.startswith(a)] *)
Fixpoint starts_with (a s : list ascii) : bool :=
  match a, s with
  | [], _ => true
  | x :: a', y :: s' => Ascii.eqb x y && starts_with a' s'
  | _ :: _, [] => false
  end.

(** The first unit name of the pattern, in its order, that the text starts
    with. *)
Definition unit_at (s : list ascii) : option string :=
  find (fun x => starts_with (chars x) s) unit_names.

(** What follows the number at the head of the text: digits, and a dot
    with digits when there is one. *)
Definition after_number (s : list ascii) : option (list ascii) :=
  match s with
  | c :: s0 =>
      if is_digit c then
        let t1 := skip is_digit s0 in
        match t1 with
        | dot :: e :: t' =>
            if Ascii.eqb "."%char dot && is_digit e
            then Some (skip is_digit t') else Some t1
        | _ => Some t1
        end
      else None
  | [] => None
  end.

(** A number, whitespace and a unit at the head of the text. *)
Definition weight_here (s : list ascii) : option (list ascii * string) :=
  match after_number s with
  | Some t =>
      match unit_at (lstrip t) with
      | Some u => Some (firstn (List.length s - List.length t) s, u)
      | None => None
      end
  | None => None
  end.

(** The leftmost place of the text with a number, whitespace and a unit:
    the number and the unit found there. *)
Fixpoint first_weight (s : list ascii) : option (list ascii * string) :=
  match weight_here s with
  | Some r => Some r
  | None =>
      match s with
      | [] => None
      | _ :: s' => first_weight s'
      end
  end.

(** The characters a unit name can start with. *)
Definition unit_initial (c : ascii) : bool :=
  existsb (Ascii.eqb c) ["g"; "k"; "m"; "l"; "p"]%char.

(** [\s*(g|kg|...)] at the head of [s], as the pattern ends there. *)
Definition unit_tail (s : list ascii) (caps : captures)
    : option (list ascii * captures) :=
  rmatch (Cat (Star (Class is_space)) (Group 2 (alternatives unit_names))) s caps
    (fun rest caps1 => Some (rest, caps1)).

(** The groups of a match: group 1 is the number, group 2 the unit. *)
Definition groups_of (r : list ascii * string) : captures :=
  [(2, chars (snd r)); (1, fst r)].

(** The branches on the unit: the text that is returned for the lower-cased
    [text], the number [value] and the matched [unit]. *)
Definition canonical (text value : list ascii) (unit : string) : string :=
  if mem unit ["g"; "gm"; "gram"]%string then str (value ++ chars "g")
  else if mem unit ["kg"]%string then str (value ++ chars "kg")
  else if mem unit ["piece"; "pcs"]%string then str (value ++ chars "pc")
  else str text.

(** [clean_weight] without the matcher: the first place of the lower-cased
    text where a number, whitespace and a unit name stand. *)
Definition clean_weight_scan (weight_text : string) : string :=
  if String.eqb weight_text EmptyString then EmptyString
  else
    let text := lower (chars weight_text) in
    match first_weight text with
    | Some (value, unit) => canonical text value unit
    | None => str text
    end.

(** One digit or more. *)
Definition is_digits (d : list ascii) : bool :=
  negb (Nat.eqb (List.length d) 0) && forallb is_digit d.

(** A number as the pattern reads it: digits, then maybe a dot and digits. *)
Definition numeral (whole : list ascii) (frac : option (list ascii)) : list ascii :=
  whole ++ match frac with
           | Some f => "."%char :: f
           | None => []
           end.

(** The text does not go on with a digit or a dot. *)
Definition head_free (s : list ascii) : Prop :=
  match s with
  | [] => True
  | c :: _ => is_digit c = false /\ Ascii.eqb "."%char c = false
  end.

(** ** Rows of the edit-distance table *)

(** Entry [j] of a row is at most [base + j]. *)
Fixpoint bounded (base : nat) (row : list nat) : Prop :=
  match row with
  | [] => True
  | v :: row' => v <= base /\ bounded (S base) row'
  end.

(** ** Records of a result *)

(** What [match_pair] appends: a record built from a row of each platform
    whose score reaches the threshold. *)
Definition emitted (df : pd.DataFrame) (threshold : Q) (m : ProductMatch.t) : Prop :=
  exists row1 row2 : Product.t,
    In row1 (pd.rows df) /\ In row2 (pd.rows df)
    /\ Product.platform row1 = ProductMatch.platform1 m
    /\ Product.platform row2 = ProductMatch.platform2 m
    /\ String.ltb (ProductMatch.platform1 m) (ProductMatch.platform2 m) = true
    /\ ProductMatch.price1 m = Product.price_numeric row1
    /\ ProductMatch.price2 m = Product.price_numeric row2
    /\ ProductMatch.similarity m
       = calculate_similarity (Product.name row1) (Product.name row2)
           (Product.weight_clean row1) (Product.weight_clean row2)
    /\ Qle_bool threshold (inject_Z (ProductMatch.similarity m)) = true
    /\ ProductMatch.price_diff m
       = Qabs (ProductMatch.price1 m - ProductMatch.price2 m)
    /\ ProductMatch.savings m = ProductMatch.price_diff m
    /\ ProductMatch.cheaper_platform m
       = (if Qltb (ProductMatch.price1 m) (ProductMatch.price2 m)
          then ProductMatch.platform1 m else ProductMatch.platform2 m).

(** The record saves the amount [q]. *)
Definition saves (q : Q) (m : ProductMatch.t) : bool :=
  Qeq_bool (ProductMatch.savings m) q.

(** [b] does not save more than [a]. *)
Definition not_below (a b : ProductMatch.t) : Prop :=
  (ProductMatch.savings b <= ProductMatch.savings a)%Q.

(** ** Example data *)

(** The two records of the worked example; the fields it does not fix are
    left open. *)
Definition britannia (brand1 weight1 price1 image1 brand2 weight2 price2 image2 : string)
    : list Product.t :=
  [ Product.mk "Britannia White Bread" brand1 weight1 "400g" price1 45%Q image1 "A";
    Product.mk "Britannia White Bread 400g" brand2 weight2 "400g" price2 38%Q image2 "B" ].

(** The same product at the same price on two platforms, and the record
    [match_products] builds for it. *)
Definition milk_bread_tie : list Product.t :=
  [ Product.mk "Milk Bread" "Modern" "400 g" "400g" "40" 40%Q "img" "A";
    Product.mk "Milk Bread" "Modern" "400 g" "400g" "40" 40%Q "img" "B" ].

Definition milk_bread_match : ProductMatch.t :=
  ProductMatch.mk "Milk Bread" "Modern" "400g" "A" 40%Q "B" 40%Q
    0%Q (0 # 40)%Q 100%Z "B" 0%Q.

(** A match against [platform] that saves [amount]. *)
Definition deal (platform : string) (amount : Q) : ProductMatch.t :=
  ProductMatch.mk "Milk Bread" "Modern" "400g" "A" 40%Q platform (40 - amount)%Q
    amount (amount / 40 * 100)%Q 100%Z platform amount.

Definition three_deals : list ProductMatch.t :=
  [deal "B" 5%Q; deal "C" 9%Q; deal "D" 5%Q].

(** A frame with the product columns and no rows. *)
Definition no_rows : pd.DataFrame := pd.mkDataFrame pd.product_keys [].

(** One scraped product. *)
Definition one_loaf : Product.t :=
  Product.mk "Milk Bread" "Modern" "400 g" "400g" "40" 40%Q "img" "Zepto".

(** ** [match_products] as a list of records

    The record the innermost loop appends, the test that guards it, and the
    list the four loops build on a frame that has the columns they read. *)

(** The record built for [row1] of [platform1] and [row2] of [platform2]. *)
Definition match_record (platform1 platform2 : string) (row1 row2 : Product.t)
    : ProductMatch.t :=
  let p1 := Product.price_numeric row1 in
  let p2 := Product.price_numeric row2 in
  let price_diff := Qabs (p1 - p2)%Q in
  let max_price := py_max p1 p2 in
  {| ProductMatch.product_name := Product.name row1;
     ProductMatch.brand := Product.brand row1;
     ProductMatch.weight := Product.weight_clean row1;
     ProductMatch.platform1 := platform1;
     ProductMatch.price1 := p1;
     ProductMatch.platform2 := platform2;
     ProductMatch.price2 := p2;
     ProductMatch.price_diff := price_diff;
     ProductMatch.price_diff_pct :=
       if Qltb 0%Q max_price then (price_diff / max_price * 100)%Q else 0%Q;
     ProductMatch.similarity :=
       calculate_similarity (Product.name row1) (Product.name row2)
         (Product.weight_clean row1) (Product.weight_clean row2);
     ProductMatch.cheaper_platform := if Qltb p1 p2 then platform1 else platform2;
     ProductMatch.savings := price_diff |}.

(** [similarity >= threshold] for the two rows. *)
Definition qualifies (threshold : Q) (row1 row2 : Product.t) : bool :=
  Qle_bool threshold
    (inject_Z (calculate_similarity (Product.name row1) (Product.name row2)
                 (Product.weight_clean row1) (Product.weight_clean row2))).

(** The rows of a platform, in the order of the frame. *)
Definition platform_rows (rows : list Product.t) (platform : string)
    : list Product.t :=
  pd.select rows (pd.eq_mask (map Product.platform rows) platform).

(** What one pair of rows adds to the result. *)
Definition pair_matches (threshold : Q) (platform1 platform2 : string)
    (row1 row2 : Product.t) : list ProductMatch.t :=
  if qualifies threshold row1 row2
  then [match_record platform1 platform2 row1 row2] else [].

(** The records for all pairs of platforms and all pairs of their rows, in
    the order of the loops. *)
Definition all_matches (rows : list Product.t) (threshold : Q)
    : list ProductMatch.t :=
  let platforms := pd.unique (map Product.platform rows) in
  flat_map (fun platform1 =>
    flat_map (fun platform2 =>
      if String.leb platform2 platform1 then []
      else
        flat_map (fun row1 =>
          flat_map (fun row2 =>
            pair_matches threshold platform1 platform2 row1 row2)
            (platform_rows rows platform2))
          (platform_rows rows platform1))
      platforms)
    platforms.

(** The columns [match_products] reads. *)
Definition match_columns : list string :=
  ["platform"; "name"; "weight_clean"; "price_numeric"; "brand"]%string.

Definition has_columns (df : pd.DataFrame) (keys : list string) : bool :=
  forallb (pd.has_column df) keys.

(** ** models.py: [ProductMatcher.get_platform_stats] *)

(** A [dict] with string keys: the items in the order of insertion.
    [d[k] = v] replaces the value of a key that is there and adds the item
    at the end otherwise. *)
Fixpoint dict_set {V : Type} (d : list (string * V)) (k : string) (v : V)
    : list (string * V) :=
  match d with
  | [] => [(k, v)]
  | (k', v') :: d' =>
      if String.eqb k' k then (k, v) :: d' else (k', v') :: dict_set d' k v
  end.

(** [d[k]] *)
Fixpoint dict_get {V : Type} (d : list (string * V)) (k : string) : result V :=
  match d with
  | [] => Raise (KeyError k)
  | (k', v') :: d' => if String.eqb k' k then Ok v' else dict_get d' k
  end.

Module PlatformStats.
Record t : Type := mk {
  total_products : nat;
  avg_price : pd.float;
  min_price : pd.float;
  max_price : pd.float;
  median_price : pd.float
}.
End PlatformStats.

Definition get_platform_stats (df : pd.DataFrame)
    : result (list (string * PlatformStats.t)) :=
  let stats := [] in
  column <- pd.getitem df "platform" Product.platform ;;
  for_each (pd.unique column) stats (fun platform stats =>
    column1 <- pd.getitem df "platform" Product.platform ;;
    let platform_df := pd.getitem_mask df (pd.eq_mask column1 platform) in
    price1 <- pd.getitem platform_df "price_numeric" Product.price_numeric ;;
    price2 <- pd.getitem platform_df "price_numeric" Product.price_numeric ;;
    price3 <- pd.getitem platform_df "price_numeric" Product.price_numeric ;;
    price4 <- pd.getitem platform_df "price_numeric" Product.price_numeric ;;
    Ok (dict_set stats platform
          {| PlatformStats.total_products := List.length (pd.rows platform_df);
             PlatformStats.avg_price := pd.mean price1;
             PlatformStats.min_price := pd.min price2;
             PlatformStats.max_price := pd.max price3;
             PlatformStats.median_price := pd.median price4 |})).

(** The statistics of the rows of one platform. *)
Definition platform_entry (rows : list Product.t) : PlatformStats.t :=
  let prices := map Product.price_numeric rows in
  {| PlatformStats.total_products := List.length rows;
     PlatformStats.avg_price := pd.mean prices;
     PlatformStats.min_price := pd.min prices;
     PlatformStats.max_price := pd.max prices;
     PlatformStats.median_price := pd.median prices |}.

(** [lo] and [hi] are prices of the list and every price lies between
    them. *)
Definition price_range (prices : list Q) (lo hi : Q) : Prop :=
  In lo prices /\ In hi prices
  /\ forall p, In p prices -> (lo <= p <= hi)%Q.

(** Three products on two platforms. *)
Definition three_loaves : list Product.t :=
  [ Product.mk "Milk Bread" "Modern" "400 g" "400g" "40" 40%Q "img" "Zepto";
    Product.mk "Brown Bread" "Britannia" "400 g" "400g" "55" 55%Q "img" "Blinkit";
    Product.mk "Milk Bread" "Modern" "400 g" "400g" "38" 38%Q "img" "Zepto" ].

(** ** scraping/zepto.py: [ZeptoScraper.clean_price] *)

(** The rupee sign, as the three bytes of its UTF-8 encoding. *)
Definition rupee : list ascii :=
  [ascii_of_nat 226; ascii_of_nat 130; ascii_of_nat 185].

(** Text of ASCII characters and rupee signs. *)
Fixpoint plain (s : list ascii) : bool :=
  match s with
  | [] => true
  | c :: s' =>
      if is_ascii c then plain s'
      else match s' with
           | c2 :: c3 :: s'' => starts_with rupee [c; c2; c3] && plain s''
           | _ => false
           end
  end.

Definition comma : ascii := ","%char.
Definition dot : ascii := "."%char.

(** [\d+(?:,\d+)?(?:\.\d+)?] *)
Definition price_number : regex :=
  Cat (Plus (Class is_digit))
      (Cat (Opt (Cat (Chr comma) (Plus (Class is_digit))))
           (Opt (Cat (Chr dot) (Plus (Class is_digit))))).

(** [r'₹?\s*(\d+(?:,\d+)?(?:\.\d+)?)'], written here with the sign spelled
    out as [rupee]. *)
Definition price_re : regex :=
  Cat (Opt (Lit rupee)) (Cat (Star (Class is_space)) (Group 1 price_number)).

(** The longest prefix of characters in [p]. *)
Fixpoint take {char : Type} (p : char -> bool) (s : list char) : list char :=
  match s with
  | [] => []
  | c :: s' => if p c then c :: take p s' else []
  end.

Definition digit_value (c : ascii) : nat := code c - 48.

(** The number a string of digits writes. *)
Definition digits_value (l : list ascii) : nat :=
  fold_left (fun n c => 10 * n + digit_value c) l 0.

(** [float(s)] for a literal made of digits, or of digits, a dot and
    digits; the value is the rational the literal writes, which Python
    rounds to a double.  [None] stands for every other text, which this
    model of [float] does not cover. *)
Definition float_of_literal (s : list ascii) : option Q :=
  match take is_digit s with
  | [] => None
  | whole =>
      match skip is_digit s with
      | [] => Some (inject_Z (Z.of_nat (digits_value whole)))
      | c :: f =>
          if Ascii.eqb dot c && negb (Nat.eqb (List.length f) 0) && forallb is_digit f
          then Some (inject_Z (Z.of_nat (digits_value whole))
                     + inject_Z (Z.of_nat (digits_value f))
                       / inject_Z (10 ^ Z.of_nat (List.length f)))%Q
          else None
      end
  end.

(** [s.replace(',', '')] *)
Definition remove_commas (s : list ascii) : list ascii :=
  filter (fun c => negb (Ascii.eqb comma c)) s.

Definition clean_price (price_text : string) : option Q :=
  if String.eqb price_text EmptyString then Some 0%Q
  else
    match re_search price_re (chars price_text) with
    | Some price_match => float_of_literal (remove_commas (group price_match 1))
    | None => Some 0%Q
    end.

(** *** The price pattern, read directly *)

(** A separator and digits at the head of the text, when they are there. *)
Definition group_text (sep : ascii) (s : list ascii) : list ascii :=
  match s with
  | c :: e :: s' =>
      if Ascii.eqb sep c && is_digit e then c :: e :: take is_digit s' else []
  | _ => []
  end.

Definition group_rest (sep : ascii) (s : list ascii) : list ascii :=
  match s with
  | c :: e :: s' => if Ascii.eqb sep c && is_digit e then skip is_digit s' else s
  | _ => s
  end.

(** The number at the head of [s], after its first digit: the digits that
    follow, one group after a comma, one group after a dot. *)
Definition number_text (s : list ascii) : list ascii :=
  let t1 := skip is_digit s in
  let t2 := group_rest comma t1 in
  take is_digit s ++ group_text comma t1 ++ group_text dot t2.

Definition number_rest (s : list ascii) : list ascii :=
  group_rest dot (group_rest comma (skip is_digit s)).

(** The number that starts at the first digit of the text. *)
Fixpoint first_price (s : list ascii) : option (list ascii) :=
  match s with
  | [] => None
  | c :: s' => if is_digit c then Some (c :: number_text s') else first_price s'
  end.

(** [price_re] from the group on, as the pattern ends there. *)
Definition price_group (s : list ascii) (caps : captures)
    : option (list ascii * captures) :=
  rmatch (Group 1 price_number) s caps (fun rest caps1 => Some (rest, caps1)).


(** *** A price as it is written *)

Definition starts_digit (s : list ascii) : bool :=
  match s with
  | c :: _ => is_digit c
  | [] => false
  end.

Definition starts_group (sep : ascii) (s : list ascii) : bool :=
  match s with
  | c :: e :: _ => Ascii.eqb sep c && is_digit e
  | _ => false
  end.

(** One digit or more. *)
Definition digits (l : list ascii) : bool :=
  negb (Nat.eqb (List.length l) 0) && forallb is_digit l.

Definition opt_digits (o : option (list ascii)) : bool :=
  match o with
  | Some l => digits l
  | None => true
  end.

Definition after (sep : ascii) (o : option (list ascii)) : list ascii :=
  match o with
  | Some l => sep :: l
  | None => []
  end.

Definition or_empty (o : option (list ascii)) : list ascii :=
  match o with
  | Some l => l
  | None => []
  end.

Definition is_some {A : Type} (o : option A) : bool :=
  match o with
  | Some _ => true
  | None => false
  end.

(** [whole], then a comma and [grp], then a dot and [frac]. *)
Definition written (whole : list ascii) (grp frac : option (list ascii))
    : list ascii :=
  whole ++ after comma grp ++ after dot frac.

(** The text after a written price does not continue it. *)
Definition stops (grp frac : option (list ascii)) (rest : list ascii) : bool :=
  negb (starts_digit rest)
  && (is_some frac || negb (starts_group dot rest))
  && (is_some grp || is_some frac || negb (starts_group comma rest)).

Definition literal_value (whole : list ascii) (frac : option (list ascii)) : Q :=
  match frac with
  | None => inject_Z (Z.of_nat (digits_value whole))
  | Some f =>
      (inject_Z (Z.of_nat (digits_value whole))
       + inject_Z (Z.of_nat (digits_value f))
         / inject_Z (10 ^ Z.of_nat (List.length f)))%Q
  end.


(** ** scraping/zepto.py: [ZeptoScraper.extract_brand] *)

Definition brands : list string :=
  [ "Britannia"; "Modern"; "Harvest Gold"; "Bread World";
    "English Oven"; "Milk Bread"; "Kitty"; "Bonn";
    "Fresho"; "BBPopular"; "Monginis"; "Wibs" ]%string.

(** [sub in s] *)
Fixpoint contains (sub s : list ascii) : bool :=
  starts_with sub s
  || match s with
     | [] => false
     | _ :: s' => contains sub s'
     end.

(** The loop over the brands; [None] when it ends without a [return]. *)
Fixpoint brand_loop (brands : list string) (product_lower : list ascii)
    : option string :=
  match brands with
  | [] => None
  | brand :: brands' =>
      if contains (lower (chars brand)) product_lower then Some brand
      else brand_loop brands' product_lower
  end.

Definition extract_brand (product_name : string) : string :=
  let product_lower := lower (chars product_name) in
  match brand_loop brands product_lower with
  | Some brand => brand
  | None =>
      let words := Fuzz.split (chars product_name) in
      match words with
      | word :: _ => str word
      | [] => "Unknown"%string
      end
  end.

Definition not_space (c : ascii) : bool := negb (is_space c).

(** ** scraping/zepto.py: the records that [ZeptoScraper.scrape] returns *)

(** A product as the page gives it. *)
Module Scraped.
Record t : Type := mk {
  name : string;
  price : string;
  weight : string;
  image : string
}.
End Scraped.

(** The loop that cleans the products of the page.  [clean_price] returns
    a number for every text (shown below); its other case ends the loop
    here. *)
Fixpoint process (products : list Scraped.t) (processed_products : list Product.t)
    : option (list Product.t) :=
  match products with
  | [] => Some processed_products
  | product :: products' =>
      match clean_price (Scraped.price product) with
      | Some price_numeric =>
          process products'
            (processed_products ++
             [ {| Product.name := Scraped.name product;
                  Product.brand := extract_brand (Scraped.name product);
                  Product.weight := Scraped.weight product;
                  Product.weight_clean := clean_weight (Scraped.weight product);
                  Product.price := Scraped.price product;
                  Product.price_numeric := price_numeric;
                  Product.image := Scraped.image product;
                  Product.platform := "Zepto" |} ])
      | None => None
      end
  end.

(** ** models.py: [ProductMatch.to_dict] *)

(** The values of the dict: texts, floats and the integer score. *)
Inductive value : Type :=
| Text (s : string)
| Float (q : Q)
| Int (z : Z).

Definition to_dict (self : ProductMatch.t) : list (string * value) :=
  [ ("product_name", Text (ProductMatch.product_name self));
    ("brand", Text (ProductMatch.brand self));
    ("weight", Text (ProductMatch.weight self));
    ("platform1", Text (ProductMatch.platform1 self));
    ("price1", Float (ProductMatch.price1 self));
    ("platform2", Text (ProductMatch.platform2 self));
    ("price2", Float (ProductMatch.price2 self));
    ("price_diff", Float (ProductMatch.price_diff self));
    ("price_diff_pct", Float (ProductMatch.price_diff_pct self));
    ("similarity", Int (ProductMatch.similarity self));
    ("cheaper_platform", Text (ProductMatch.cheaper_platform self));
    ("savings", Float (ProductMatch.savings self)) ]%string.

(** ** app.py: [compare], up to the serialisation of the answer *)

(** What the handler hands to [jsonify], with the status: the error with
    status 400, or the report.  [jsonify] itself, which turns the object
    into the body of the response, is not part of the model. *)
Inductive response : Type :=
| BadRequest (error : string)
| Report (total_products matches_found : nat)
         (best_deals : list (list (string * value)))
         (statistics : Statistics)
         (platform_stats : list (string * PlatformStats.t)).

Definition compare (scraped_data : list Product.t) : result response :=
  match scraped_data with
  | [] => Ok (BadRequest "No data scraped yet. Call /scrape first")
  | _ =>
      let df := pd.DataFrame_of scraped_data in
      matches <- match_products df 75%Q ;;
      let best_deals := get_best_deals matches 10%Z in
      stats <- calculate_statistics df ;;
      platform_stats <- get_platform_stats df ;;
      Ok (Report (List.length scraped_data) (List.length matches)
            (map to_dict (slice_to best_deals 10%Z)) stats platform_stats)
  end.

(** What the cleaning loop makes of one product of the page. *)
Definition cleaned (product : Scraped.t) (r : Product.t) : Prop :=
  Product.name r = Scraped.name product
  /\ Product.price r = Scraped.price product
  /\ Product.weight r = Scraped.weight product
  /\ Product.weight_clean r = clean_weight (Scraped.weight product)
  /\ Product.image r = Scraped.image product
  /\ Product.platform r = "Zepto"%string
  /\ clean_price (Scraped.price product) = Some (Product.price_numeric r)
  /\ (0 <= Product.price_numeric r)%Q
  /\ Product.brand r <> EmptyString.

Definition no_data : string := "No data scraped yet. Call /scrape first".

(** Two products of a page. *)
Definition two_products : list Scraped.t :=
  [ Scraped.mk "Modern Milk Bread" "Rs 45" "400 g" "a.png";
    Scraped.mk "Brown Bread" "38.50" "" "b.png" ].


(** ** utils.py: [PriceAnalyzer.find_cheapest_platform] *)

(** How a call ends: it returns, it raises one of the exceptions above, or
    it raises [IndexError]. *)
Inductive outcome (A : Type) : Type :=
| Returns (a : A)
| Raises (e : exn)
| RaisesIndexError.
Arguments Returns {A} a.
Arguments Raises {A} e.
Arguments RaisesIndexError {A}.

Module Cheapest.
Record t : Type := mk {
  cheapest : string;
  avg_price : pd.float;
  all_platforms : list (string * pd.float)
}.
End Cheapest.

Fixpoint insert_key (k : string) (l : list string) : list string :=
  match l with
  | [] => [k]
  | x :: l' => if String.leb k x then k :: l else x :: insert_key k l'
  end.

(** The group keys in increasing order, as [groupby] lists them. *)
Definition sort_keys (l : list string) : list string :=
  fold_right insert_key [] l.

(** [df.groupby('platform')['price_numeric'].mean()]: the platforms in
    increasing order, each with the mean price of its rows. *)
Definition groupby_mean (df : pd.DataFrame) : result (list (string * pd.float)) :=
  platform <- pd.getitem df "platform" Product.platform ;;
  if pd.has_column df "price_numeric"
  then Ok (map (fun key =>
                  (key, pd.mean (map Product.price_numeric
                                   (platform_rows (pd.rows df) key))))
             (sort_keys (pd.unique platform)))
  else Raise (KeyError "Column not found: price_numeric").

Section FindCheapest.

(** [Series.sort_values()] on the means.  pandas does not say in which
    order it leaves equal values, so the sort is a parameter here. *)
Variable sort_values : list (string * pd.float) -> list (string * pd.float).

Definition find_cheapest_platform (df : pd.DataFrame) : outcome Cheapest.t :=
  match groupby_mean df with
  | Raise e => Raises e
  | Ok means =>
      let platform_avg := sort_values means in
      match platform_avg with
      | [] => RaisesIndexError
      | (index0, value0) :: _ =>
          Returns {| Cheapest.cheapest := index0;
                     Cheapest.avg_price := value0;
                     Cheapest.all_platforms := platform_avg |}
      end
  end.

End FindCheapest.

(** The order of two means that are numbers. *)
Definition float_le (a b : pd.float) : Prop :=
  match a, b with
  | pd.Num x, pd.Num y => (x <= y)%Q
  | _, _ => True
  end.

Definition is_number (a : pd.float) : Prop := exists q, a = pd.Num q.

(** What is known of [sort_values]: the sorted series has the entries of
    the series, and numbers come in increasing order. *)
Definition sorts (sort : list (string * pd.float) -> list (string * pd.float))
    : Prop :=
  (forall l, Permutation (sort l) l)
  /\ (forall l, Forall (fun item => is_number (snd item)) l ->
        StronglySorted (fun a b => float_le (snd a) (snd b)) (sort l)).

(** The mean price of the rows of [platform]. *)
Definition platform_mean (df : pd.DataFrame) (platform : string) : pd.float :=
  pd.mean (map Product.price_numeric (platform_rows (pd.rows df) platform)).

(** A sort by insertion, for the examples. *)
Definition mean_leb (a b : string * pd.float) : bool :=
  match snd a, snd b with
  | pd.Num x, pd.Num y => Qle_bool x y
  | _, _ => true
  end.

Fixpoint insert_mean (x : string * pd.float) (l : list (string * pd.float))
    : list (string * pd.float) :=
  match l with
  | [] => [x]
  | y :: l' => if mean_leb x y then x :: l else y :: insert_mean x l'
  end.

Definition insertion_sort (l : list (string * pd.float))
    : list (string * pd.float) :=
  fold_right insert_mean [] l.

(** * Properties *)

(** ** Characters *)

Ltac all_chars c :=
  destruct c as [[] [] [] [] [] [] [] []]; vm_compute; try reflexivity; try discriminate.

Lemma to_lower_idem (c : ascii) : to_lower (to_lower c) = to_lower c.
Proof. all_chars c. Qed.

Lemma name_char_iff (c : ascii) :
  is_name_char c =
  (Ascii.eqb (to_lower c) c && keep c && (negb (is_space c) || Ascii.eqb c space))%bool.
Proof. all_chars c. Qed.

(** ** Stripping *)

Lemma skip_length {char : Type} (p : char -> bool) (s : list char) :
  List.length (skip p s) <= List.length s.
Proof.
  induction s as [|c s IH]; simpl; [lia|].
  destruct (p c); simpl; lia.
Qed.

Lemma lstrip_clean (s : list ascii) : starts_clean s -> lstrip s = s.
Proof.
  destruct s as [|c s]; simpl; [reflexivity|].
  unfold lstrip; simpl. intros ->. reflexivity.
Qed.

Lemma lstrip_starts_clean (s : list ascii) : starts_clean (lstrip s).
Proof.
  unfold lstrip. induction s as [|c s IH]; simpl; [exact I|].
  destruct (is_space c) eqn:E; [exact IH|exact E].
Qed.

Lemma rstrip_cons_clean (c : ascii) (s : list ascii) :
  is_space c = false -> rstrip (c :: s) = c :: rstrip s.
Proof.
  intros E. simpl. rewrite E. destruct (rstrip s); reflexivity.
Qed.

Lemma rstrip_starts_clean (s : list ascii) :
  starts_clean s -> starts_clean (rstrip s).
Proof.
  destruct s as [|c s]; [intros; exact I|].
  intros E. simpl in E. rewrite (rstrip_cons_clean c s E). exact E.
Qed.

Lemma rstrip_idem (s : list ascii) : rstrip (rstrip s) = rstrip s.
Proof.
  induction s as [|c s IH]; [reflexivity|].
  simpl. destruct (rstrip s) as [|x r] eqn:E.
  - destruct (is_space c) eqn:Ec; [reflexivity|]. simpl. rewrite Ec. reflexivity.
  - change (rstrip (c :: x :: r) = c :: x :: r).
    simpl. simpl in IH. rewrite IH. reflexivity.
Qed.

Lemma strip_starts_clean (s : list ascii) : starts_clean (strip s).
Proof. apply rstrip_starts_clean, lstrip_starts_clean. Qed.

Lemma strip_idem (s : list ascii) : strip (strip s) = strip s.
Proof.
  unfold strip at 1. rewrite (lstrip_clean _ (strip_starts_clean s)).
  unfold strip. apply rstrip_idem.
Qed.

Lemma Forall_lstrip (P : ascii -> Prop) (s : list ascii) :
  Forall P s -> Forall P (lstrip s).
Proof.
  unfold lstrip. induction 1 as [|c s Hc Hs IH]; simpl; [constructor|].
  destruct (is_space c); [exact IH|constructor; assumption].
Qed.

Lemma Forall_rstrip (P : ascii -> Prop) (s : list ascii) :
  Forall P s -> Forall P (rstrip s).
Proof.
  induction 1 as [|c s Hc Hs IH]; simpl; [constructor|].
  destruct (rstrip s).
  - destruct (is_space c); constructor; [assumption|constructor].
  - constructor; assumption.
Qed.

Lemma Forall_strip (P : ascii -> Prop) (s : list ascii) :
  Forall P s -> Forall P (strip s).
Proof. intros H. apply Forall_rstrip, Forall_lstrip, H. Qed.

(** ** Whitespace runs *)

Lemma squeeze_true_lstrip (s : list ascii) :
  squeeze true s = squeeze false (lstrip s).
Proof.
  unfold lstrip. induction s as [|c s IH]; [reflexivity|].
  simpl. destruct (is_space c) eqn:E; [exact IH|].
  simpl. rewrite E. reflexivity.
Qed.

Lemma squeeze_tidy (s : list ascii) (b : bool) :
  tidy (squeeze b s) /\ (b = true -> starts_clean (squeeze b s)).
Proof.
  revert b. induction s as [|c s IH]; intros b; simpl; [tauto|].
  destruct (is_space c) eqn:E.
  - destruct b.
    + apply IH.
    + destruct (IH true) as [Ht Hc]. split; [|discriminate].
      simpl. split; [|exact Ht]. intros _. split; [reflexivity|]. apply Hc. reflexivity.
  - destruct (IH false) as [Ht _]. split.
    + simpl. split; [|exact Ht]. rewrite E. discriminate.
    + intros _. exact E.
Qed.

Lemma tidy_squeeze (s : list ascii) : tidy s -> squeeze false s = s.
Proof.
  induction s as [|c s IH]; [reflexivity|].
  simpl. intros [Hc Hs]. destruct (is_space c) eqn:E.
  - destruct (Hc eq_refl) as [-> Hclean].
    rewrite squeeze_true_lstrip, (lstrip_clean _ Hclean), (IH Hs). reflexivity.
  - rewrite (IH Hs). reflexivity.
Qed.

Lemma tidy_lstrip (s : list ascii) : tidy s -> tidy (lstrip s).
Proof.
  unfold lstrip. induction s as [|c s IH]; [intros H; exact H|].
  intros H. cbn [skip]. destruct (is_space c); [apply IH, H|exact H].
Qed.

Lemma tidy_rstrip (s : list ascii) : tidy s -> tidy (rstrip s).
Proof.
  induction s as [|c s IH]; [simpl; tauto|].
  intros [Hc Hs]. simpl. destruct (rstrip s) as [|x r] eqn:E.
  - destruct (is_space c) eqn:Ec; simpl; [tauto|].
    rewrite Ec. split; [discriminate|exact I].
  - change (tidy (c :: x :: r)). simpl. split.
    + intros Hsp. destruct (Hc Hsp) as [-> Hclean]. split; [reflexivity|].
      apply rstrip_starts_clean in Hclean. rewrite E in Hclean. exact Hclean.
    + specialize (IH Hs). exact IH.
Qed.

Lemma tidy_strip (s : list ascii) : tidy s -> tidy (strip s).
Proof. intros H. apply tidy_rstrip, tidy_lstrip, H. Qed.

Lemma Forall_squeeze (P : ascii -> Prop) (s : list ascii) (b : bool) :
  P space -> Forall P s -> Forall P (squeeze b s).
Proof.
  intros Hsp H. revert b. induction H as [|c s Hc Hs IH]; intros b; simpl; [constructor|].
  destruct (is_space c); [destruct b|]; auto.
Qed.

(** ** The matcher on character classes *)

Section ClassStar.

Context {char A : Type}.
Variable p : char -> bool.
Variable k : list char -> @captures char -> option A.

Lemma star_loop_class (n : nat) :
  forall (s : list char) (caps : captures),
    List.length s <= n ->
    star_loop (fun s1 caps1 k1 => rmatch (Class p) s1 caps1 k1) k n s caps
    = star_class p k s caps.
Proof.
  induction n as [|n IH]; intros s caps Hlen.
  - destruct s; [reflexivity|simpl in Hlen; lia].
  - destruct s as [|c s]; [reflexivity|].
    simpl. destruct (p c); [|reflexivity].
    assert (Hlt : (List.length s <? S (List.length s)) = true) by (apply Nat.ltb_lt; lia).
    rewrite Hlt, IH by (simpl in Hlen; lia). reflexivity.
Qed.

Lemma rmatch_star_class (s : list char) (caps : captures) :
  rmatch (Star (Class p)) s caps k = star_class p k s caps.
Proof. simpl. apply star_loop_class. lia. Qed.

(** When the rest of the pattern cannot start with a character of the
    class, giving back characters of the run never helps: only the longest
    run is of use. *)
Lemma star_class_greedy :
  (forall c s caps, p c = true -> k (c :: s) caps = None) ->
  forall s caps, star_class p k s caps = k (skip p s) caps.
Proof.
  intros Hk s caps. induction s as [|c s IH]; [reflexivity|].
  cbn [star_class skip]. destruct (p c) eqn:E; [|reflexivity].
  rewrite IH. destruct (k (skip p s) caps) eqn:Ek; [reflexivity|].
  apply Hk, E.
Qed.

End ClassStar.

Lemma star_class_accept {char : Type} (p : char -> bool) (s : list char)
    (caps : captures) :
  star_class p (fun rest caps1 => Some (rest, caps1)) s caps = Some (skip p s, caps).
Proof.
  induction s as [|c s IH]; [reflexivity|].
  simpl. destruct (p c); [rewrite IH|]; reflexivity.
Qed.

Lemma re_match_spaces (c : ascii) (s : list ascii) :
  re_match spaces (c :: s) = if is_space c then Some (lstrip s, []) else None.
Proof.
  unfold re_match, spaces, Plus.
  change (rmatch (Cat (Class is_space) (Star (Class is_space))) (c :: s) []
            (fun rest caps => Some (rest, caps)))
    with (if is_space c
          then rmatch (Star (Class is_space)) s [] (fun rest caps => Some (rest, caps))
          else None).
  destruct (is_space c); [|reflexivity].
  rewrite rmatch_star_class. apply star_class_accept.
Qed.

(** [re.sub(r'[^\w\s]', '', s)] deletes the characters outside [keep]. *)
Lemma re_sub_non_word_space (s : list ascii) :
  re_sub non_word_space [] s = filter keep s.
Proof.
  unfold re_sub. generalize (Nat.le_refl (List.length s)).
  generalize (List.length s) at 2 3. intros n. revert s.
  induction n as [|n IH]; intros s Hlen.
  - destruct s; [reflexivity|simpl in Hlen; lia].
  - destruct s as [|c s]; [reflexivity|].
    simpl in Hlen. cbn [re_sub_steps].
    unfold re_match, non_word_space, NotClass. cbn [rmatch filter].
    fold (keep c). destruct (keep c); cbn [negb].
    + rewrite IH by lia. reflexivity.
    + assert (Hlt : (List.length s <? List.length (c :: s)) = true)
        by (apply Nat.ltb_lt; simpl; lia).
      rewrite Hlt, IH by lia. reflexivity.
Qed.

(** [re.sub(r'\s+', ' ', s)] squeezes every run of whitespace to a space. *)
Lemma re_sub_spaces (s : list ascii) :
  re_sub spaces [space] s = squeeze false s.
Proof.
  unfold re_sub. generalize (Nat.le_refl (List.length s)).
  generalize (List.length s) at 2 3. intros n. revert s.
  induction n as [|n IH]; intros s Hlen.
  - destruct s; [reflexivity|simpl in Hlen; lia].
  - destruct s as [|c s]; [reflexivity|].
    simpl in Hlen. cbn [re_sub_steps]. rewrite re_match_spaces.
    cbn [squeeze]. destruct (is_space c).
    + pose proof (skip_length is_space s) as Hs. fold (lstrip s) in Hs.
      assert (Hlt : (List.length (lstrip s) <? List.length (c :: s)) = true)
        by (apply Nat.ltb_lt; simpl; lia).
      rewrite Hlt, IH by lia. rewrite squeeze_true_lstrip. reflexivity.
    + rewrite IH by lia. reflexivity.
Qed.

Lemma normalize_name_unfold (name : string) :
  normalize_name name = normalize_name_passes name.
Proof.
  unfold normalize_name, normalize_name_passes.
  rewrite re_sub_non_word_space, re_sub_spaces. reflexivity.
Qed.

(** ** [normalize_name] *)

Lemma space_not_word (c : ascii) : is_space c = true -> is_word c = false.
Proof. all_chars c. Qed.

Lemma filter_word_lstrip (s : list ascii) :
  filter is_word (lstrip s) = filter is_word s.
Proof.
  unfold lstrip. induction s as [|c s IH]; [reflexivity|].
  cbn [skip]. destruct (is_space c) eqn:E; [|reflexivity].
  cbn [filter]. rewrite (space_not_word c E). exact IH.
Qed.

Lemma filter_word_rstrip (s : list ascii) :
  filter is_word (rstrip s) = filter is_word s.
Proof.
  induction s as [|c s IH]; [reflexivity|].
  cbn [rstrip filter]. destruct (rstrip s) as [|x r].
  - cbn [filter] in IH. rewrite <- IH.
    destruct (is_space c) eqn:E.
    + rewrite (space_not_word c E). reflexivity.
    + cbn [filter]. reflexivity.
  - cbn [filter]. cbn [filter] in IH. rewrite IH. reflexivity.
Qed.

Lemma filter_word_squeeze (s : list ascii) (b : bool) :
  filter is_word (squeeze b s) = filter is_word s.
Proof.
  revert b. induction s as [|c s IH]; intros b; [reflexivity|].
  cbn [squeeze filter]. destruct (is_space c) eqn:E.
  - rewrite (space_not_word c E). destruct b; [apply IH|].
    cbn [filter]. change (is_word space) with false. apply IH.
  - cbn [filter]. rewrite IH. reflexivity.
Qed.

Lemma filter_word_keep (s : list ascii) :
  filter is_word (filter keep s) = filter is_word s.
Proof.
  induction s as [|c s IH]; [reflexivity|].
  cbn [filter]. unfold keep at 1. destruct (is_word c) eqn:E; cbn [orb filter].
  - rewrite E, IH. reflexivity.
  - destruct (is_space c); [cbn [filter]; rewrite E|]; exact IH.
Qed.

Lemma tidy_spaces (s : list ascii) :
  tidy s -> Forall (fun c => is_space c = true -> c = space) s.
Proof.
  induction s as [|c s IH]; [constructor|].
  intros [Hc Hs]. constructor; [|apply IH, Hs].
  intros E. apply Hc, E.
Qed.

Lemma passes_lowered (s : list ascii) :
  Forall (fun c => to_lower c = c /\ keep c = true) (passes s).
Proof.
  apply Forall_strip, Forall_squeeze; [split; reflexivity|].
  apply Forall_forall. intros c Hc. apply filter_In in Hc. destruct Hc as [Hin Hk].
  split; [|exact Hk].
  apply in_map_iff in Hin. destruct Hin as [c0 [<- _]]. apply to_lower_idem.
Qed.

Lemma passes_tidy (s : list ascii) : tidy (passes s).
Proof. apply tidy_strip, squeeze_tidy. Qed.

Lemma passes_name_chars (s : list ascii) :
  Forall (fun c => is_name_char c = true) (passes s).
Proof.
  pose proof (passes_lowered s) as H1.
  pose proof (tidy_spaces _ (passes_tidy s)) as H2.
  rewrite Forall_forall in *. intros c Hc.
  destruct (H1 c Hc) as [Hl Hk]. specialize (H2 c Hc).
  rewrite name_char_iff, Hk, Hl, Ascii.eqb_refl. cbn [andb].
  destruct (is_space c); [|reflexivity].
  rewrite (H2 eq_refl). reflexivity.
Qed.

Lemma passes_lower (s : list ascii) : lower (passes s) = passes s.
Proof.
  pose proof (passes_lowered s) as H.
  unfold lower. rewrite <- (map_id (passes s)) at 2.
  apply map_ext_in. intros c Hc. rewrite Forall_forall in H. apply (H c Hc).
Qed.

Lemma passes_words (s : list ascii) :
  filter is_word (passes s) = filter is_word (lower s).
Proof.
  unfold passes, strip.
  rewrite filter_word_rstrip, filter_word_lstrip, filter_word_squeeze.
  apply filter_word_keep.
Qed.

Lemma chars_str (l : list ascii) : chars (str l) = l.
Proof. apply list_ascii_of_string_of_list_ascii. Qed.

Lemma str_chars (s : string) : str (chars s) = s.
Proof. apply string_of_list_ascii_of_string. Qed.

Lemma normalize_name_passes_eq (name : string) :
  chars (normalize_name name) = passes (chars name).
Proof. rewrite normalize_name_unfold. apply chars_str. Qed.

(** ** [normalize_name] on text of any characters *)

Module UnicodeFacts.

Import Unicode.

Section Facts.

Variable db : database.

Lemma text_lstrip_clean (s : list (char db)) :
  starts_clean db s -> lstrip db s = s.
Proof.
  destruct s as [|c s]; [reflexivity|].
  unfold lstrip. cbn [starts_clean skip]. intros ->. reflexivity.
Qed.

Lemma text_lstrip_starts_clean (s : list (char db)) : starts_clean db (lstrip db s).
Proof.
  unfold lstrip. induction s as [|c s IH]; [exact I|].
  cbn [skip]. destruct (is_space db c) eqn:E; [exact IH|exact E].
Qed.

Lemma text_rstrip_cons_clean (c : char db) (s : list (char db)) :
  is_space db c = false -> rstrip db (c :: s) = c :: rstrip db s.
Proof.
  intros E. cbn [rstrip]. rewrite E. destruct (rstrip db s); reflexivity.
Qed.

Lemma text_rstrip_starts_clean (s : list (char db)) :
  starts_clean db s -> starts_clean db (rstrip db s).
Proof.
  destruct s as [|c s]; [intros; exact I|].
  intros E. cbn [starts_clean] in E. rewrite (text_rstrip_cons_clean c s E). exact E.
Qed.

Lemma text_rstrip_idem (s : list (char db)) : rstrip db (rstrip db s) = rstrip db s.
Proof.
  induction s as [|c s IH]; [reflexivity|].
  cbn [rstrip]. destruct (rstrip db s) as [|x r] eqn:E.
  - destruct (is_space db c) eqn:Ec; [reflexivity|]. cbn [rstrip]. rewrite Ec. reflexivity.
  - change (rstrip db (c :: x :: r) = c :: x :: r).
    cbn [rstrip]. cbn [rstrip] in IH. rewrite IH. reflexivity.
Qed.

Lemma text_strip_starts_clean (s : list (char db)) : starts_clean db (strip db s).
Proof. apply text_rstrip_starts_clean, text_lstrip_starts_clean. Qed.

Lemma text_strip_idem (s : list (char db)) : strip db (strip db s) = strip db s.
Proof.
  unfold strip at 1. rewrite (text_lstrip_clean _ (text_strip_starts_clean s)).
  unfold strip. apply text_rstrip_idem.
Qed.

Lemma text_Forall_strip (P : char db -> Prop) (s : list (char db)) :
  Forall P s -> Forall P (strip db s).
Proof.
  intros H. unfold strip, lstrip.
  assert (H1 : Forall P (skip (is_space db) s)).
  { induction H as [|c s Hc Hs IH]; [constructor|].
    cbn [skip]. destruct (is_space db c); [exact IH|constructor; assumption]. }
  induction H1 as [|c t Hc Ht IH]; [constructor|].
  cbn [rstrip]. destruct (rstrip db t).
  - destruct (is_space db c); constructor; [assumption|constructor].
  - constructor; assumption.
Qed.

Lemma text_squeeze_true_lstrip (s : list (char db)) :
  squeeze db true s = squeeze db false (lstrip db s).
Proof.
  unfold lstrip. induction s as [|c s IH]; [reflexivity|].
  cbn [squeeze skip]. destruct (is_space db c) eqn:E; [exact IH|].
  cbn [squeeze]. rewrite E. reflexivity.
Qed.

Lemma text_squeeze_tidy (s : list (char db)) (b : bool) :
  is_space db (space db) = true ->
  tidy db (squeeze db b s) /\ (b = true -> starts_clean db (squeeze db b s)).
Proof.
  intros Hsp. revert b. induction s as [|c s IH]; intros b; [cbn; tauto|].
  cbn [squeeze]. destruct (is_space db c) eqn:E.
  - destruct b.
    + apply IH.
    + destruct (IH true) as [Ht Hc]. split; [|discriminate].
      cbn [tidy]. split; [|exact Ht]. intros _. split; [reflexivity|].
      apply Hc. reflexivity.
  - destruct (IH false) as [Ht _]. split.
    + cbn [tidy]. split; [|exact Ht]. rewrite E. discriminate.
    + intros _. exact E.
Qed.

Lemma text_tidy_squeeze (s : list (char db)) :
  is_space db (space db) = true -> tidy db s -> squeeze db false s = s.
Proof.
  intros Hsp. induction s as [|c s IH]; [reflexivity|].
  cbn [tidy squeeze]. intros [Hc Hs]. destruct (is_space db c) eqn:E.
  - destruct (Hc eq_refl) as [-> Hclean].
    rewrite text_squeeze_true_lstrip, (text_lstrip_clean _ Hclean), (IH Hs).
    reflexivity.
  - rewrite (IH Hs). reflexivity.
Qed.

Lemma text_tidy_strip (s : list (char db)) : tidy db s -> tidy db (strip db s).
Proof.
  intros H. unfold strip, lstrip.
  assert (H1 : tidy db (skip (is_space db) s)).
  { induction s as [|c s IH]; [exact H|].
    cbn [skip]. destruct (is_space db c); [apply IH, H|exact H]. }
  clear H. revert H1. generalize (skip (is_space db) s) as t.
  induction t as [|c t IH]; [cbn; tauto|].
  intros [Hc Ht]. cbn [rstrip]. destruct (rstrip db t) as [|x r] eqn:E.
  - destruct (is_space db c) eqn:Ec; cbn [tidy]; [tauto|].
    rewrite Ec. split; [split; [discriminate|exact I]|exact I].
  - change (tidy db (c :: x :: r)). cbn [tidy]. split.
    + intros Hsp. destruct (Hc Hsp) as [-> Hclean]. split; [reflexivity|].
      apply text_rstrip_starts_clean in Hclean. rewrite E in Hclean. exact Hclean.
    + specialize (IH Ht). exact IH.
Qed.

Lemma text_Forall_squeeze (P : char db -> Prop) (s : list (char db)) (b : bool) :
  P (space db) -> Forall P s -> Forall P (squeeze db b s).
Proof.
  intros Hsp H. revert b.
  induction H as [|c s Hc Hs IH]; intros b; cbn [squeeze]; [constructor|].
  destruct (is_space db c); [destruct b|]; auto.
Qed.

Lemma text_re_match_spaces (c : char db) (s : list (char db)) :
  re_match (spaces db) (c :: s)
  = if is_space db c then Some (lstrip db s, []) else None.
Proof.
  unfold re_match, spaces, Plus.
  change (rmatch (Cat (Class (is_space db)) (Star (Class (is_space db)))) (c :: s) []
            (fun rest caps => Some (rest, caps)))
    with (if is_space db c
          then rmatch (Star (Class (is_space db))) s []
                 (fun rest caps => Some (rest, caps))
          else None).
  destruct (is_space db c); [|reflexivity].
  rewrite rmatch_star_class. apply star_class_accept.
Qed.

(** [re.sub(r'[^\w\s]', '', s)] deletes the characters outside [keep]. *)
Lemma text_re_sub_non_word_space (s : list (char db)) :
  re_sub (non_word_space db) [] s = filter (keep db) s.
Proof.
  unfold re_sub. generalize (Nat.le_refl (List.length s)).
  generalize (List.length s) at 2 3. intros n. revert s.
  induction n as [|n IH]; intros s Hlen.
  - destruct s; [reflexivity|simpl in Hlen; lia].
  - destruct s as [|c s]; [reflexivity|].
    simpl in Hlen. cbn [re_sub_steps].
    unfold re_match, non_word_space, NotClass. cbn [rmatch filter].
    fold (keep db c). destruct (keep db c); cbn [negb].
    + rewrite IH by lia. reflexivity.
    + assert (Hlt : (List.length s <? List.length (c :: s)) = true)
        by (apply Nat.ltb_lt; simpl; lia).
      rewrite Hlt, IH by lia. reflexivity.
Qed.

(** [re.sub(r'\s+', ' ', s)] squeezes every run of whitespace to a space. *)
Lemma text_re_sub_spaces (s : list (char db)) :
  re_sub (spaces db) [space db] s = squeeze db false s.
Proof.
  unfold re_sub. generalize (Nat.le_refl (List.length s)).
  generalize (List.length s) at 2 3. intros n. revert s.
  induction n as [|n IH]; intros s Hlen.
  - destruct s; [reflexivity|simpl in Hlen; lia].
  - destruct s as [|c s]; [reflexivity|].
    simpl in Hlen. cbn [re_sub_steps]. rewrite text_re_match_spaces.
    cbn [squeeze]. destruct (is_space db c).
    + pose proof (skip_length (is_space db) s) as Hs. fold (lstrip db s) in Hs.
      assert (Hlt : (List.length (lstrip db s) <? List.length (c :: s)) = true)
        by (apply Nat.ltb_lt; simpl; lia).
      rewrite Hlt, IH by lia. rewrite text_squeeze_true_lstrip. reflexivity.
    + rewrite IH by lia. reflexivity.
Qed.

Lemma text_normalize_name_unfold (name : list (char db)) :
  normalize_name db name = passes db name.
Proof.
  unfold normalize_name, passes. cbv zeta.
  rewrite text_re_sub_non_word_space, text_re_sub_spaces. reflexivity.
Qed.

Hypothesis db_lawful : lawful db.

Lemma text_passes_tidy (s : list (char db)) : tidy db (passes db s).
Proof. apply text_tidy_strip, text_squeeze_tidy, db_lawful. Qed.

Lemma text_passes_lowered (s : list (char db)) :
  Forall (fun c => lowered db c /\ keep db c = true) (passes db s).
Proof.
  destruct db_lawful as (Hsp & _ & Hlsp & Hlow & _).
  apply text_Forall_strip, text_Forall_squeeze.
  - split; [exact Hlsp|]. unfold keep. rewrite Hsp. apply orb_true_r.
  - apply Forall_forall. intros c Hc. apply filter_In in Hc. destruct Hc as [Hin Hk].
    split; [apply (Hlow s c Hin)|exact Hk].
Qed.

Lemma text_passes_lower (s : list (char db)) : lower db (passes db s) = passes db s.
Proof.
  destruct db_lawful as (_ & _ & _ & _ & Hfix). apply Hfix.
  apply (Forall_impl _ (fun c H => proj1 H) (text_passes_lowered s)).
Qed.

Lemma text_passes_idem (s : list (char db)) :
  passes db (passes db s) = passes db s.
Proof.
  assert (Hkeep : filter (keep db) (passes db s) = passes db s).
  { apply forallb_filter_id. apply forallb_forall. intros c Hc.
    pose proof (text_passes_lowered s) as H. rewrite Forall_forall in H.
    apply (H c Hc). }
  unfold passes at 1.
  rewrite text_passes_lower, Hkeep.
  rewrite (text_tidy_squeeze _ (proj1 db_lawful) (text_passes_tidy s)).
  apply text_strip_idem.
Qed.

Lemma text_filter_word_skip (s : list (char db)) :
  filter (is_word db) (skip (is_space db) s) = filter (is_word db) s.
Proof.
  destruct db_lawful as (_ & Hnw & _).
  induction s as [|c s IH]; [reflexivity|].
  cbn [skip]. destruct (is_space db c) eqn:E; [|reflexivity].
  cbn [filter]. rewrite (Hnw c E). exact IH.
Qed.

Lemma text_filter_word_rstrip (s : list (char db)) :
  filter (is_word db) (rstrip db s) = filter (is_word db) s.
Proof.
  destruct db_lawful as (_ & Hnw & _).
  induction s as [|c s IH]; [reflexivity|].
  cbn [rstrip filter]. destruct (rstrip db s) as [|x r].
  - cbn [filter] in IH. rewrite <- IH.
    destruct (is_space db c) eqn:E.
    + rewrite (Hnw c E). reflexivity.
    + cbn [filter]. reflexivity.
  - cbn [filter]. cbn [filter] in IH. rewrite IH. reflexivity.
Qed.

Lemma text_filter_word_squeeze (s : list (char db)) (b : bool) :
  filter (is_word db) (squeeze db b s) = filter (is_word db) s.
Proof.
  destruct db_lawful as (Hsp & Hnw & _).
  revert b. induction s as [|c s IH]; intros b; [reflexivity|].
  cbn [squeeze filter]. destruct (is_space db c) eqn:E.
  - rewrite (Hnw c E). destruct b; [apply IH|].
    cbn [filter]. rewrite (Hnw _ Hsp). apply IH.
  - cbn [filter]. rewrite IH. reflexivity.
Qed.

Lemma text_filter_word_keep (s : list (char db)) :
  filter (is_word db) (filter (keep db) s) = filter (is_word db) s.
Proof.
  induction s as [|c s IH]; [reflexivity|].
  cbn [filter]. unfold keep at 1. destruct (is_word db c) eqn:E; cbn [orb filter].
  - rewrite E, IH. reflexivity.
  - destruct (is_space db c); [cbn [filter]; rewrite E|]; exact IH.
Qed.

Lemma text_passes_words (s : list (char db)) :
  filter (is_word db) (passes db s) = filter (is_word db) (lower db s).
Proof.
  unfold passes, strip, lstrip.
  rewrite text_filter_word_rstrip, text_filter_word_skip, text_filter_word_squeeze.
  apply text_filter_word_keep.
Qed.

Lemma text_passes_chars (s : list (char db)) :
  Forall (fun c => is_word db c = true \/ c = space db) (passes db s).
Proof.
  pose proof (text_passes_lowered s) as H1.
  pose proof (text_passes_tidy s) as H2.
  assert (H3 : Forall (fun c => is_space db c = true -> c = space db) (passes db s)).
  { induction (passes db s) as [|c t IH]; [constructor|].
    destruct H2 as [Hc Ht]. constructor; [|apply IH; [inversion H1; assumption|exact Ht]].
    intros E. apply Hc, E. }
  rewrite Forall_forall in *. intros c Hc.
  destruct (H1 c Hc) as [_ Hk]. specialize (H3 c Hc). unfold keep in Hk.
  destruct (is_word db c); [left; reflexivity|].
  right. apply H3. exact Hk.
Qed.

End Facts.

(** The ASCII classes are a lawful database. *)
Lemma ascii_lawful : lawful ascii_database.
Proof.
  unfold lawful, lowered. cbn [ascii_database is_space is_word space lower char].
  split; [reflexivity|]. split; [apply space_not_word|].
  split; [reflexivity|]. split.
  - intros s c Hc. apply in_map_iff in Hc. destruct Hc as [c0 [<- _]].
    unfold Str.lower. cbn [map]. rewrite to_lower_idem. reflexivity.
  - intros s H. unfold Str.lower. rewrite <- (map_id s) at 2.
    apply map_ext_in. intros c Hc. rewrite Forall_forall in H.
    specialize (H c Hc). unfold Str.lower in H. cbn [map] in H.
    injection H as H. exact H.
Qed.

End UnicodeFacts.

Lemma rstrip_bytes (s : list ascii) :
  Unicode.rstrip Unicode.ascii_database s = rstrip s.
Proof.
  induction s as [|c s IH]; [reflexivity|].
  cbn [Unicode.rstrip rstrip]. rewrite IH. reflexivity.
Qed.

Lemma squeeze_bytes (s : list ascii) (b : bool) :
  Unicode.squeeze Unicode.ascii_database b s = squeeze b s.
Proof.
  revert b. induction s as [|c s IH]; intros b; [reflexivity|].
  cbn [Unicode.squeeze squeeze]. rewrite !IH. reflexivity.
Qed.

(** On the byte strings the function is the one on text of any characters,
    taken with the ASCII classes. *)
Lemma normalize_name_bytes (name : string) :
  chars (normalize_name name)
  = Unicode.normalize_name Unicode.ascii_database (chars name).
Proof.
  rewrite normalize_name_passes_eq, UnicodeFacts.text_normalize_name_unfold.
  unfold Unicode.passes, Unicode.strip, Unicode.lstrip.
  rewrite rstrip_bytes, squeeze_bytes. reflexivity.
Qed.

(** C4, as the code has it: for a text of any characters, [normalize_name]
    lower-cases its input, drops every character that is neither a word
    character (alphanumeric or the underscore) nor whitespace, replaces
    each run of whitespace by one space and trims.  The result consists of
    word characters and spaces only, all of them characters that
    lower-casing leaves as they are; a space never starts or ends it and
    never follows another space; its word characters are those of the
    lower-cased input, in the same order. *)
Theorem normalize_name_spec (db : Unicode.database) (name : list (Unicode.char db)) :
  Unicode.lawful db ->
  let out := Unicode.normalize_name db name in
  out = Unicode.passes db name
  /\ Forall (fun c => Unicode.is_word db c = true \/ c = Unicode.space db) out
  /\ Forall (Unicode.lowered db) out
  /\ Unicode.tidy db out
  /\ Unicode.strip db out = out
  /\ filter (Unicode.is_word db) out
     = filter (Unicode.is_word db) (Unicode.lower db name).
Proof.
  intros Hdb. cbv zeta. rewrite UnicodeFacts.text_normalize_name_unfold.
  split; [reflexivity|].
  split; [apply UnicodeFacts.text_passes_chars, Hdb|].
  split.
  { apply (Forall_impl _ (fun c H => proj1 H)
             (UnicodeFacts.text_passes_lowered db Hdb name)). }
  split; [apply UnicodeFacts.text_passes_tidy, Hdb|].
  split; [apply UnicodeFacts.text_strip_idem|].
  apply UnicodeFacts.text_passes_words, Hdb.
Qed.

Lemma normalize_name_spec_witness :
  Unicode.lawful Unicode.ascii_database
  /\ let out := Unicode.normalize_name Unicode.ascii_database
                  (chars "  Brown_Bread,  400 G! ") in
     out = Unicode.passes Unicode.ascii_database (chars "  Brown_Bread,  400 G! ")
     /\ Forall (fun c => Str.is_word c = true \/ c = Str.space) out
     /\ Forall (Unicode.lowered Unicode.ascii_database) out
     /\ Unicode.tidy Unicode.ascii_database out
     /\ Unicode.strip Unicode.ascii_database out = out
     /\ filter Str.is_word out
        = filter Str.is_word (Str.lower (chars "  Brown_Bread,  400 G! ")).
Proof.
  split; [apply UnicodeFacts.ascii_lawful|].
  apply (normalize_name_spec Unicode.ascii_database
           (chars "  Brown_Bread,  400 G! ") UnicodeFacts.ascii_lawful).
Defined.

(** C4, as stated, fails: an underscore is neither alphanumeric nor
    whitespace, and it is still there after normalization. *)
Lemma normalize_name_keeps_underscore :
  normalize_name "Brown_Bread" = "brown_bread"%string
  /\ In "_"%char (chars (normalize_name "Brown_Bread"))
  /\ is_alnum "_"%char = false
  /\ is_space "_"%char = false.
Proof.
  split; [vm_compute; reflexivity|].
  split; [vm_compute; tauto|].
  split; reflexivity.
Qed.

(** C9: [normalize_name] is idempotent, on text of any characters. *)
Theorem normalize_name_idempotent (db : Unicode.database)
    (x : list (Unicode.char db)) :
  Unicode.lawful db ->
  Unicode.normalize_name db (Unicode.normalize_name db x)
  = Unicode.normalize_name db x.
Proof.
  intros Hdb. rewrite !UnicodeFacts.text_normalize_name_unfold.
  apply UnicodeFacts.text_passes_idem, Hdb.
Qed.

Lemma normalize_name_idempotent_witness :
  Unicode.lawful Unicode.ascii_database
  /\ Unicode.normalize_name Unicode.ascii_database
       (Unicode.normalize_name Unicode.ascii_database (chars " Milk  BREAD (400g) "))
     = Unicode.normalize_name Unicode.ascii_database (chars " Milk  BREAD (400g) ").
Proof.
  split; [apply UnicodeFacts.ascii_lawful|].
  apply (normalize_name_idempotent Unicode.ascii_database
           (chars " Milk  BREAD (400g) ") UnicodeFacts.ascii_lawful).
Defined.

(** ** The weight pattern *)

Lemma rmatch_lit {A : Type} (a : list ascii)
    (k : list ascii -> captures -> option A) :
  forall s caps,
    rmatch (Lit a) s caps k
    = if starts_with a s then k (skipn (List.length a) s) caps else None.
Proof.
  induction a as [|x a IH]; intros s caps; [reflexivity|].
  cbn [Lit]. change (rmatch (Cat (Chr x) (Lit a)) s caps k)
    with (rmatch (Chr x) s caps (fun s1 caps1 => rmatch (Lit a) s1 caps1 k)).
  destruct s as [|y s]; [reflexivity|].
  cbn [rmatch Chr starts_with List.length skipn].
  destruct (Ascii.eqb x y); [apply IH|reflexivity].
Qed.

Lemma rmatch_alternatives {A : Type} (l : list string)
    (k : list ascii -> captures -> option A) (s : list ascii) (caps : captures) :
  (forall s1 caps1, k s1 caps1 <> None) ->
  rmatch (alternatives l) s caps k
  = match find (fun x => starts_with (chars x) s) l with
    | Some x => k (skipn (List.length (chars x)) s) caps
    | None => None
    end.
Proof.
  intros Hk. induction l as [|x l IH].
  - destruct s; reflexivity.
  - cbn [alternatives fold_right find]. fold (alternatives l).
    change (rmatch (Alt (Lit (chars x)) (alternatives l)) s caps k)
      with (match rmatch (Lit (chars x)) s caps k with
            | Some a => Some a
            | None => rmatch (alternatives l) s caps k
            end).
    rewrite rmatch_lit. destruct (starts_with (chars x) s); [|exact IH].
    destruct (k (skipn (List.length (chars x)) s) caps) eqn:E; [reflexivity|].
    exfalso. apply (Hk _ _ E).
Qed.

Lemma starts_with_firstn (a s : list ascii) :
  starts_with a s = true ->
  firstn (List.length s - List.length (skipn (List.length a) s)) s = a.
Proof.
  revert s. induction a as [|x a IH]; intros s H.
  - cbn [List.length skipn]. rewrite Nat.sub_diag. reflexivity.
  - destruct s as [|y s]; [discriminate|].
    cbn [starts_with] in H. apply andb_true_iff in H. destruct H as [Exy H].
    apply Ascii.eqb_eq in Exy. subst y.
    cbn [List.length skipn].
    pose proof (length_skipn (List.length a) s) as Hl.
    replace (S (List.length s) - List.length (skipn (List.length a) s))
      with (S (List.length s - List.length (skipn (List.length a) s))) by lia.
    cbn [firstn]. rewrite (IH s H). reflexivity.
Qed.

Lemma unit_at_initial (c : ascii) (s : list ascii) :
  unit_initial c = false -> unit_at (c :: s) = None.
Proof.
  unfold unit_initial, unit_at, unit_names. cbn [existsb find chars list_ascii_of_string starts_with].
  intros H. repeat (apply orb_false_iff in H; destruct H as [?H H]).
  rewrite !(Ascii.eqb_sym _ c).
  repeat match goal with E : Ascii.eqb c _ = false |- _ => rewrite E; clear E end.
  reflexivity.
Qed.

Lemma space_not_initial (c : ascii) : is_space c = true -> unit_initial c = false.
Proof. all_chars c. Qed.

Lemma digit_not_initial (c : ascii) : is_digit c = true -> unit_initial c = false.
Proof. all_chars c. Qed.

Lemma digit_not_space (c : ascii) : is_digit c = true -> is_space c = false.
Proof. all_chars c. Qed.

Lemma digit_not_dot (c : ascii) : is_digit c = true -> Ascii.eqb "."%char c = false.
Proof. all_chars c. Qed.

Lemma unit_tail_spec (s : list ascii) (caps : captures) :
  unit_tail s caps
  = match unit_at (lstrip s) with
    | Some u => Some (skipn (List.length (chars u)) (lstrip s), (2, chars u) :: caps)
    | None => None
    end.
Proof.
  unfold unit_tail.
  change (rmatch (Cat (Star (Class is_space)) (Group 2 (alternatives unit_names))) s caps
            (fun rest caps1 => Some (rest, caps1)))
    with (rmatch (Star (Class is_space)) s caps
            (fun s1 caps1 =>
               rmatch (alternatives unit_names) s1 caps1
                 (fun s2 caps2 =>
                    Some (s2, (2, firstn (List.length s1 - List.length s2) s1) :: caps2)))).
  rewrite rmatch_star_class.
  assert (Halt : forall s1 caps1,
    rmatch (alternatives unit_names) s1 caps1
      (fun s2 caps2 =>
         Some (s2, (2, firstn (List.length s1 - List.length s2) s1) :: caps2))
    = match unit_at s1 with
      | Some u => Some (skipn (List.length (chars u)) s1, (2, chars u) :: caps1)
      | None => None
      end).
  { intros s1 caps1. rewrite rmatch_alternatives by discriminate.
    unfold unit_at. destruct (find _ unit_names) as [u|] eqn:E; [|reflexivity].
    apply find_some in E. destruct E as [_ E].
    rewrite (starts_with_firstn _ _ E). reflexivity. }
  rewrite star_class_greedy.
  - apply Halt.
  - intros c s1 caps1 Hc. rewrite Halt, unit_at_initial; [reflexivity|].
    apply space_not_initial, Hc.
Qed.

Lemma unit_tail_fails (c : ascii) (s : list ascii) (caps : captures) :
  is_digit c = true \/ c = "."%char -> unit_tail (c :: s) caps = None.
Proof.
  intros H. rewrite unit_tail_spec.
  assert (Hsp : is_space c = false)
    by (destruct H as [H| ->]; [apply digit_not_space, H|reflexivity]).
  unfold lstrip. cbn [skip]. rewrite Hsp. rewrite unit_at_initial; [reflexivity|].
  destruct H as [H| ->]; [apply digit_not_initial, H|reflexivity].
Qed.

Lemma rmatch_cat {A : Type} (r1 r2 : regex) (s : list ascii) (caps : captures)
    (k : list ascii -> captures -> option A) :
  rmatch (Cat r1 r2) s caps k
  = rmatch r1 s caps (fun s1 caps1 => rmatch r2 s1 caps1 k).
Proof. reflexivity. Qed.

Lemma rmatch_alt {A : Type} (r1 r2 : regex) (s : list ascii) (caps : captures)
    (k : list ascii -> captures -> option A) :
  rmatch (Alt r1 r2) s caps k
  = match rmatch r1 s caps k with
    | Some a => Some a
    | None => rmatch r2 s caps k
    end.
Proof. reflexivity. Qed.

Lemma rmatch_class {A : Type} (p : ascii -> bool) (s : list ascii) (caps : captures)
    (k : list ascii -> captures -> option A) :
  rmatch (Class p) s caps k
  = match s with
    | c :: s' => if p c then k s' caps else None
    | [] => None
    end.
Proof. reflexivity. Qed.

Lemma rmatch_group {A : Type} (i : nat) (r : regex) (s : list ascii) (caps : captures)
    (k : list ascii -> captures -> option A) :
  rmatch (Group i r) s caps k
  = rmatch r s caps
      (fun s1 caps1 => k s1 ((i, firstn (List.length s - List.length s1) s) :: caps1)).
Proof. reflexivity. Qed.

(** The number of the pattern, before a continuation that cannot go on at
    a digit or a dot: only the longest number is of use. *)
Lemma rmatch_number {A : Type} (k : list ascii -> captures -> option A) :
  (forall c s caps, is_digit c = true \/ c = "."%char -> k (c :: s) caps = None) ->
  forall s caps,
    rmatch number s caps k
    = match after_number s with
      | Some t => k t caps
      | None => None
      end.
Proof.
  intros Hk s caps. unfold number, Plus, Opt, Chr.
  rewrite rmatch_cat, rmatch_cat, rmatch_class.
  destruct s as [|c s0]; [reflexivity|].
  cbn [after_number]. destruct (is_digit c) eqn:Ec; [|reflexivity].
  rewrite rmatch_star_class, star_class_greedy.
  - generalize (skip is_digit s0). intros t1. cbv zeta.
    rewrite rmatch_alt, rmatch_cat, rmatch_class.
    destruct t1 as [|dot t]; [reflexivity|].
    destruct (Ascii.eqb "."%char dot) eqn:Edot; [|destruct t; reflexivity].
    rewrite rmatch_cat, rmatch_class.
    destruct t as [|e t']; [reflexivity|].
    destruct (is_digit e) eqn:Ee; [|reflexivity].
    cbn [andb]. rewrite rmatch_star_class, star_class_greedy.
    + destruct (k (skip is_digit t') caps) eqn:Ek; [reflexivity|].
      cbn [rmatch]. apply Hk. right. symmetry. apply Ascii.eqb_eq, Edot.
    + intros d s1 caps1 Hd. apply Hk. left. exact Hd.
  - intros d s1 caps1 Hd.
    rewrite rmatch_alt, rmatch_cat, rmatch_class.
    rewrite (digit_not_dot d Hd). cbn [rmatch]. apply Hk. left. exact Hd.
Qed.

(** [re.match] of the whole pattern. *)
Lemma re_match_weight (s : list ascii) :
  re_match weight_re s
  = match after_number s with
    | Some t =>
        match unit_at (lstrip t) with
        | Some u =>
            Some (skipn (List.length (chars u)) (lstrip t),
                  [(2, chars u); (1, firstn (List.length s - List.length t) s)])
        | None => None
        end
    | None => None
    end.
Proof.
  unfold re_match, weight_re. rewrite rmatch_cat, rmatch_group.
  rewrite (rmatch_number
             (fun s1 caps1 =>
                unit_tail s1 ((1, firstn (List.length s - List.length s1) s) :: caps1))).
  - destruct (after_number s) as [t|]; [|reflexivity]. apply unit_tail_spec.
  - intros c s1 caps1 H. apply unit_tail_fails, H.
Qed.

Lemma re_search_weight (s : list ascii) :
  re_search weight_re s = option_map groups_of (first_weight s).
Proof.
  induction s as [|c s IH].
  - reflexivity.
  - cbn [re_search first_weight]. rewrite re_match_weight. unfold weight_here.
    destruct (after_number (c :: s)) as [t|]; [|exact IH].
    destruct (unit_at (lstrip t)) as [u|]; [reflexivity|exact IH].
Qed.

(** ** [clean_weight] *)

Lemma clean_weight_unfold (weight_text : string) :
  clean_weight weight_text = clean_weight_scan weight_text.
Proof.
  unfold clean_weight, clean_weight_scan.
  destruct (String.eqb weight_text EmptyString); [reflexivity|].
  cbv zeta. rewrite re_search_weight.
  destruct (first_weight (lower (chars weight_text))) as [[value unit]|]; [|reflexivity].
  unfold option_map, groups_of, canonical. cbn [group fst snd Nat.eqb].
  rewrite str_chars. reflexivity.
Qed.

Lemma skip_app (p : ascii -> bool) (a t : list ascii) :
  forallb p a = true -> skip p (a ++ t) = skip p t.
Proof.
  induction a as [|c a IH]; [reflexivity|].
  cbn [forallb app skip]. intros H. apply andb_true_iff in H. destruct H as [Hc Ha].
  rewrite Hc. apply IH, Ha.
Qed.

Lemma skip_head (p : ascii -> bool) (s : list ascii) :
  match s with [] => True | c :: _ => p c = false end -> skip p s = s.
Proof. destruct s as [|c s]; [reflexivity|]. cbn [skip]. intros ->. reflexivity. Qed.

Lemma firstn_app_length (a b : list ascii) :
  firstn (List.length (a ++ b) - List.length b) (a ++ b) = a.
Proof.
  rewrite length_app, Nat.add_sub, firstn_app, Nat.sub_diag, firstn_all.
  cbn [firstn]. apply app_nil_r.
Qed.

Lemma after_number_numeral (whole : list ascii) (frac : option (list ascii))
    (tail : list ascii) :
  is_digits whole = true ->
  match frac with Some f => is_digits f = true | None => True end ->
  head_free tail ->
  after_number (numeral whole frac ++ tail) = Some tail.
Proof.
  unfold is_digits, numeral. intros Hw Hf Ht.
  apply andb_true_iff in Hw. destruct Hw as [Hne Hw].
  destruct whole as [|c whole]; [discriminate|]. clear Hne.
  cbn [forallb] in Hw. apply andb_true_iff in Hw. destruct Hw as [Hc Hw].
  rewrite <- app_assoc. cbn [app after_number]. rewrite Hc.
  rewrite (skip_app _ _ _ Hw).
  assert (Hfree : skip is_digit tail = tail).
  { apply skip_head. destruct tail; [exact I|]. apply Ht. }
  destruct frac as [f|].
  - apply andb_true_iff in Hf. destruct Hf as [Hne Hf].
    destruct f as [|e f]; [discriminate|].
    cbn [forallb] in Hf. apply andb_true_iff in Hf. destruct Hf as [He Hf].
    cbn [app skip]. cbn [Str.is_digit]. 
    replace (is_digit "."%char) with false by reflexivity.
    rewrite He. cbn [Ascii.eqb andb].
    replace (Ascii.eqb "." ".")%char with true by reflexivity. cbn [andb].
    rewrite (skip_app _ _ _ Hf), Hfree. reflexivity.
  - cbn [app]. rewrite Hfree.
    destruct tail as [|d [|e tail]]; try reflexivity.
    destruct Ht as [_ Ht]. rewrite Ht. reflexivity.
Qed.

Lemma lower_fixed (s : list ascii) :
  forallb (fun c => Ascii.eqb (to_lower c) c) s = true -> lower s = s.
Proof.
  induction s as [|c s IH]; [reflexivity|].
  cbn [forallb lower map]. intros H. apply andb_true_iff in H. destruct H as [Hc Hs].
  apply Ascii.eqb_eq in Hc. rewrite Hc. fold (lower s). rewrite (IH Hs). reflexivity.
Qed.

Lemma digit_lower (c : ascii) : is_digit c = true -> Ascii.eqb (to_lower c) c = true.
Proof. all_chars c. Qed.

Lemma space_lower (c : ascii) : is_space c = true -> Ascii.eqb (to_lower c) c = true.
Proof. all_chars c. Qed.


Lemma forallb_impl (p q : ascii -> bool) (s : list ascii) :
  (forall c, p c = true -> q c = true) -> forallb p s = true -> forallb q s = true.
Proof.
  intros H. induction s as [|c s IH]; [reflexivity|].
  cbn [forallb]. intros Hs. apply andb_true_iff in Hs. destruct Hs as [Hc Hs].
  rewrite (H c Hc), (IH Hs). reflexivity.
Qed.

Lemma lower_numeral (whole : list ascii) (frac : option (list ascii)) :
  is_digits whole = true ->
  match frac with Some f => is_digits f = true | None => True end ->
  lower (numeral whole frac) = numeral whole frac.
Proof.
  unfold is_digits, numeral. intros Hw Hf.
  apply andb_true_iff in Hw. destruct Hw as [_ Hw].
  unfold lower. rewrite map_app. fold (lower whole).
  rewrite (lower_fixed whole (forallb_impl _ _ _ digit_lower Hw)).
  destruct frac as [f|]; [|reflexivity].
  apply andb_true_iff in Hf. destruct Hf as [_ Hf].
  cbn [map]. fold (lower f).
  rewrite (lower_fixed f (forallb_impl _ _ _ digit_lower Hf)). reflexivity.
Qed.


Lemma space_head_free (c : ascii) (s : list ascii) :
  is_space c = true -> head_free (c :: s).
Proof. revert s. all_chars c; intros; split; reflexivity. Qed.

Lemma unit_after_spaces (ws rest : list ascii) (unit : string) :
  forallb is_space ws = true -> In unit unit_names ->
  head_free (ws ++ chars unit ++ rest)
  /\ lstrip (ws ++ chars unit ++ rest) = chars unit ++ rest
  /\ lower (chars unit) = chars unit
  /\ unit_at (chars unit ++ rest)
     = Some (if mem unit ["g"; "gm"; "gram"]%string then "g"%string else unit).
Proof.
  intros Hws Hin.
  assert (Hunit : head_free (chars unit ++ rest)
                  /\ lstrip (chars unit ++ rest) = chars unit ++ rest
                  /\ lower (chars unit) = chars unit
                  /\ unit_at (chars unit ++ rest)
                     = Some (if mem unit ["g"; "gm"; "gram"]%string
                             then "g"%string else unit)).
  { unfold unit_names in Hin. cbn [In] in Hin.
    repeat (destruct Hin as [<-|Hin]; [repeat split; reflexivity|]).
    destruct Hin. }
  destruct Hunit as (H1 & H2 & H3 & H4).
  split; [|split; [|split; assumption]].
  - destruct ws as [|c ws]; [exact H1|].
    cbn [forallb] in Hws. apply andb_true_iff in Hws.
    apply space_head_free, Hws.
  - unfold lstrip. rewrite (skip_app _ _ _ Hws). exact H2.
Qed.

Lemma first_weight_here (s : list ascii) (r : list ascii * string) :
  weight_here s = Some r -> first_weight s = Some r.
Proof. intros H. destruct s; cbn [first_weight]; rewrite H; reflexivity. Qed.

(** A text that starts with a number, whitespace and a unit name. *)
Lemma clean_weight_units (whole : list ascii) (frac : option (list ascii))
    (ws : list ascii) (unit : string) (rest : list ascii) :
  is_digits whole = true ->
  match frac with Some f => is_digits f = true | None => True end ->
  forallb is_space ws = true ->
  In unit unit_names ->
  clean_weight (str (numeral whole frac ++ ws ++ chars unit ++ rest))
  = canonical (lower (numeral whole frac ++ ws ++ chars unit ++ rest))
      (numeral whole frac) unit.
Proof.
  intros Hw Hf Hws Hin.
  rewrite clean_weight_unfold. unfold clean_weight_scan.
  assert (Hne : String.eqb (str (numeral whole frac ++ ws ++ chars unit ++ rest)) EmptyString = false).
  { destruct whole as [|c whole]; [discriminate|]. reflexivity. }
  rewrite Hne, chars_str. cbv zeta.
  destruct (unit_after_spaces ws (lower rest) unit Hws Hin) as (Hfree & Hstrip & Hlow & Hunit).
  assert (Hlower : lower (numeral whole frac ++ ws ++ chars unit ++ rest)
                   = numeral whole frac ++ ws ++ chars unit ++ lower rest).
  { unfold lower. rewrite !map_app. fold (lower (numeral whole frac)) (lower ws)
      (lower (chars unit)) (lower rest).
    rewrite (lower_numeral _ _ Hw Hf), Hlow.
    rewrite (lower_fixed ws (forallb_impl _ _ _ space_lower Hws)). reflexivity. }
  rewrite Hlower.
  rewrite (first_weight_here _
             (numeral whole frac,
              if mem unit ["g"; "gm"; "gram"]%string then "g"%string else unit)).
  2:{ unfold weight_here.
      rewrite (after_number_numeral _ _ _ Hw Hf Hfree), Hstrip, Hunit, firstn_app_length.
      reflexivity. }
  unfold canonical.
  unfold unit_names in Hin. cbn [In] in Hin.
  repeat (destruct Hin as [<-|Hin]; [reflexivity|]).
  destruct Hin.
Qed.




(** ** The fuzzy ratio stays between 0 and 100 *)

Module FuzzFacts.
Import Fuzz.

Lemma bounded_seq (k n : nat) : bounded k (seq k n).
Proof.
  revert k. induction n as [|n IH]; intros k; simpl; [exact I|].
  split; [lia|apply IH].
Qed.

Lemma next_row_bounded (x : ascii) (b : list ascii) :
  forall (prev : list nat) (left base : nat),
    bounded base prev -> bounded (S (S base)) (next_row x b prev left).
Proof.
  induction b as [|y b IH]; intros prev left base H; [exact I|].
  destruct prev as [|diag [|up prev]]; [exact I|exact I|].
  cbn [next_row]. destruct H as [Hd [Hu Hp]]. split.
  - lia.
  - apply IH. split; assumption.
Qed.

Lemma next_row_length (x : ascii) (b : list ascii) :
  forall (prev : list nat) (left : nat),
    List.length (next_row x b prev left) <= List.length b.
Proof.
  induction b as [|y b IH]; intros prev left; [simpl; lia|].
  destruct prev as [|diag [|up prev]]; [simpl; lia|simpl; lia|].
  cbn [next_row List.length]. specialize (IH (up :: prev)
    (Nat.min (Nat.min (up + 1) (left + 1)) (diag + (if Ascii.eqb x y then 0 else 2)))).
  lia.
Qed.

Lemma step_row_bounded (b : list ascii) (prev : list nat) (x : ascii) (base : nat) :
  bounded base prev -> bounded (S base) (step_row b prev x).
Proof.
  intros H. unfold step_row. split.
  - destruct prev as [|v prev]; simpl; [lia|]. destruct H. lia.
  - apply next_row_bounded, H.
Qed.

Lemma step_row_length (b : list ascii) (prev : list nat) (x : ascii) :
  List.length (step_row b prev x) <= S (List.length b).
Proof.
  unfold step_row. cbn [List.length].
  pose proof (next_row_length x b prev (hd 0 prev + 1)). lia.
Qed.

Lemma rows_bounded (b a : list ascii) :
  forall (row : list nat) (base : nat),
    bounded base row -> List.length row <= S (List.length b) ->
    bounded (base + List.length a) (fold_left (step_row b) a row)
    /\ List.length (fold_left (step_row b) a row) <= S (List.length b).
Proof.
  induction a as [|x a IH]; intros row base Hb Hl.
  - simpl. rewrite Nat.add_0_r. tauto.
  - cbn [fold_left List.length]. rewrite <- Nat.add_succ_comm.
    apply IH; [apply step_row_bounded, Hb|apply step_row_length].
Qed.

Lemma bounded_last (row : list nat) :
  forall base, bounded base row -> last row 0 <= base + (List.length row - 1).
Proof.
  induction row as [|v row IH]; intros base H; [simpl; lia|].
  destruct H as [Hv Hr]. destruct row as [|w row]; [simpl; lia|].
  specialize (IH (S base) Hr). cbn [List.length] in *. 
  change (last (v :: w :: row) 0) with (last (w :: row) 0). lia.
Qed.

Lemma edit_nil_r (ra : list ascii) : edit ra [] = List.length ra.
Proof. destruct ra; reflexivity. Qed.

Lemma edit_cons (x y : ascii) (ra rb : list ascii) :
  edit (x :: ra) (y :: rb)
  = Nat.min (Nat.min (edit ra (y :: rb) + 1) (edit (x :: ra) rb + 1))
            (edit ra rb + if Ascii.eqb x y then 0 else 2).
Proof. reflexivity. Qed.

Lemma next_row_edit (x : ascii) (rp : list ascii) (todo : list ascii) :
  forall rb : list ascii,
    next_row x todo (map (edit rp) (rb :: extend rb todo)) (edit (x :: rp) rb)
    = map (edit (x :: rp)) (extend rb todo).
Proof.
  induction todo as [|y todo IH]; intros rb; [reflexivity|].
  cbn [extend map next_row]. rewrite <- edit_cons. f_equal.
  apply (IH (y :: rb)).
Qed.

Lemma step_row_edit (b : list ascii) (rp : list ascii) (x : ascii) :
  step_row b (map (edit rp) (prefixes b)) x = map (edit (x :: rp)) (prefixes b).
Proof.
  unfold step_row, prefixes. cbn [map hd].
  assert (E : edit rp [] + 1 = edit (x :: rp) [])
    by (rewrite edit_nil_r; cbn [edit List.length]; lia).
  rewrite E. f_equal. apply (next_row_edit x rp b []).
Qed.

Lemma extend_lengths (todo : list ascii) :
  forall rb, map (edit []) (extend rb todo)
             = seq (S (List.length rb)) (List.length todo).
Proof.
  induction todo as [|y todo IH]; intros rb; [reflexivity|].
  cbn [extend map List.length seq]. f_equal. apply (IH (y :: rb)).
Qed.

Lemma fold_rows_edit (b a : list ascii) :
  forall rp : list ascii,
    fold_left (step_row b) a (map (edit rp) (prefixes b))
    = map (edit (rev a ++ rp)) (prefixes b).
Proof.
  induction a as [|x a IH]; intros rp; [reflexivity|].
  cbn [fold_left rev]. rewrite step_row_edit, IH, <- app_assoc. reflexivity.
Qed.

Lemma last_extend {B : Type} (f : list ascii -> B) (d : B) (todo : list ascii) :
  forall rb, last (map f (rb :: extend rb todo)) d = f (rev todo ++ rb).
Proof.
  induction todo as [|y todo IH]; intros rb; [reflexivity|].
  cbn [extend rev]. rewrite <- app_assoc. cbn [app]. rewrite <- (IH (y :: rb)).
  reflexivity.
Qed.

(** The table holds the edit distances of the prefixes, and its last entry
    is the distance of the two texts. *)
Lemma distance_edit (a b : list ascii) : distance a b = edit (rev a) (rev b).
Proof.
  unfold distance, rows_of.
  assert (H0 : seq 0 (S (List.length b)) = map (edit []) (prefixes b)).
  { unfold prefixes. cbn [map seq]. rewrite extend_lengths. reflexivity. }
  rewrite H0, fold_rows_edit. unfold prefixes.
  rewrite last_extend, !app_nil_r. reflexivity.
Qed.

(** Deleting all of [a] and inserting all of [b] is always possible. *)
Lemma distance_le (a b : list ascii) :
  distance a b <= List.length a + List.length b.
Proof.
  unfold distance, rows_of.
  destruct (rows_bounded b a (seq 0 (S (List.length b))) 0) as [Hb Hl].
  - apply bounded_seq.
  - rewrite length_seq. lia.
  - apply bounded_last in Hb. lia.
Qed.

Lemma round_half_even_range (n d : Z) :
  (0 < d)%Z -> (0 <= n <= 100 * d)%Z -> (0 <= round_half_even n d <= 100)%Z.
Proof.
  intros Hd Hn. unfold round_half_even.
  pose proof (Z.div_mod n d ltac:(lia)) as Hdm.
  pose proof (Z.mod_pos_bound n d Hd) as Hr.
  assert (0 <= n / d)%Z by (apply Z.div_pos; lia).
  assert (n / d <= 100)%Z by (apply Z.div_le_upper_bound; lia).
  assert (n / d = 100 -> n mod d = 0)%Z by nia.
  destruct (2 * (n mod d) <? d)%Z eqn:E1; [lia|].
  apply Z.ltb_ge in E1.
  destruct (d <? 2 * (n mod d))%Z eqn:E2.
  - apply Z.ltb_lt in E2. lia.
  - destruct (Z.even (n / d)); lia.
Qed.

Lemma ratio_range (a b : list ascii) : (0 <= ratio a b <= 100)%Z.
Proof.
  unfold ratio. destruct (list_eqb a b); [lia|].
  destruct (Nat.eqb (List.length a) 0) eqn:Ea; [simpl; lia|].
  destruct (Nat.eqb (List.length b) 0) eqn:Eb; [simpl; lia|].
  cbn [orb]. apply Nat.eqb_neq in Ea, Eb.
  pose proof (distance_le a b).
  apply round_half_even_range; lia.
Qed.

Lemma ratio_same (a : list ascii) : ratio a a = 100%Z.
Proof. unfold ratio, list_eqb. rewrite String.eqb_refl. reflexivity. Qed.

Lemma name_char_word_or_space (c : ascii) :
  is_name_char c = true -> (if is_word c then c else space) = c.
Proof.
  destruct c as [[] [] [] [] [] [] [] []]; vm_compute; intros;
    try reflexivity; discriminate.
Qed.

Lemma full_process_normalized (s : list ascii) :
  full_process (passes s) = passes s.
Proof.
  unfold full_process.
  assert (E : map (fun c => if is_word c then c else space) (passes s) = passes s).
  { rewrite <- (map_id (passes s)) at 2. apply map_ext_in. intros c Hc.
    apply name_char_word_or_space.
    pose proof (passes_name_chars s) as H. rewrite Forall_forall in H. apply H, Hc. }
  rewrite E, passes_lower. apply strip_idem.
Qed.

Lemma token_sort_ratio_range (s1 s2 : string) :
  (0 <= token_sort_ratio s1 s2 <= 100)%Z.
Proof. apply ratio_range. Qed.

Lemma token_sort_ratio_same (s : string) : token_sort_ratio s s = 100%Z.
Proof. apply ratio_same. Qed.

End FuzzFacts.

(** ** [calculate_similarity] *)

Lemma calculate_similarity_range (name1 name2 weight1 weight2 : string) :
  (0 <= calculate_similarity name1 name2 weight1 weight2 <= 100)%Z.
Proof.
  unfold calculate_similarity.
  pose proof (FuzzFacts.token_sort_ratio_range
                (normalize_name name1) (normalize_name name2)).
  destruct (truthy weight1 && truthy weight2 && String.eqb weight1 weight2)%bool; lia.
Qed.

(** C6: the score is between 0 and 100 for all names and weights, and the
    cap is what keeps it there: two records with the same name and the same
    weight score exactly 100, not 120. *)
Theorem calculate_similarity_in_0_100 :
  (forall name1 name2 weight1 weight2 : string,
      (0 <= calculate_similarity name1 name2 weight1 weight2 <= 100)%Z)
  /\ (forall name weight : string,
         calculate_similarity name name weight weight = 100%Z)
  /\ (Fuzz.token_sort_ratio (normalize_name "Milk Bread") (normalize_name "Milk Bread")
      + 20 = 120)%Z.
Proof.
  split; [apply calculate_similarity_range|]. split.
  - intros name weight. unfold calculate_similarity.
    rewrite FuzzFacts.token_sort_ratio_same.
    destruct (truthy weight && truthy weight && String.eqb weight weight)%bool; reflexivity.
  - vm_compute. reflexivity.
Qed.

(** ** Loops and frames *)

Section Loops.

Context {X S : Type}.
Variable body : X -> S -> result S.

(** A property of the accumulator that every iteration keeps holds when the
    loop ends. *)
Lemma for_each_invariant (P : S -> Prop) (xs : list X) :
  (forall x acc acc', In x xs -> P acc -> body x acc = Ok acc' -> P acc') ->
  forall acc acc', P acc -> for_each xs acc body = Ok acc' -> P acc'.
Proof.
  induction xs as [|x xs IH]; intros Hbody acc acc' HP H.
  - simpl in H. injection H as <-. exact HP.
  - simpl in H. destruct (body x acc) as [acc1|e] eqn:E; [|discriminate].
    simpl in H. apply (IH (fun y a a' Hy => Hbody y a a' (or_intror Hy)) acc1 acc').
    + apply (Hbody x acc acc1); [left; reflexivity|exact HP|exact E].
    + exact H.
Qed.

(** A loop whose iterations return, returns. *)
Lemma for_each_returns (xs : list X) :
  (forall x acc, In x xs -> exists acc', body x acc = Ok acc') ->
  forall acc, exists acc', for_each xs acc body = Ok acc'.
Proof.
  induction xs as [|x xs IH]; intros Hbody acc.
  - exists acc. reflexivity.
  - destruct (Hbody x acc (or_introl eq_refl)) as [acc1 E].
    simpl. rewrite E. simpl. apply IH. intros y a Hy. apply Hbody. right. exact Hy.
Qed.

End Loops.

Lemma select_eq_mask_In (rows : list Product.t) (value : string) (r : Product.t) :
  In r (pd.select rows (pd.eq_mask (map Product.platform rows) value)) ->
  In r rows /\ Product.platform r = value.
Proof.
  induction rows as [|x rows IH]; [intros []|].
  cbn [map pd.eq_mask pd.select]. fold (pd.eq_mask (map Product.platform rows) value).
  destruct (String.eqb_spec (Product.platform x) value) as [E|E].
  - intros [<-|H]; [split; [left; reflexivity|exact E]|].
    destruct (IH H). split; [right|]; assumption.
  - intros H. destruct (IH H). split; [right|]; assumption.
Qed.

Lemma leb_false_ltb (s1 s2 : string) :
  String.leb s2 s1 = false -> String.ltb s1 s2 = true.
Proof.
  unfold String.leb, String.ltb. rewrite (String.compare_antisym s1 s2).
  destruct (String.compare s2 s1); simpl; congruence.
Qed.

Lemma ltb_irrefl (s : string) : String.ltb s s = false.
Proof.
  unfold String.ltb. pose proof (String.compare_antisym s s) as E.
  destruct (String.compare s s); simpl in E; congruence.
Qed.

Lemma ltb_asym (s1 s2 : string) :
  String.ltb s1 s2 = true -> String.ltb s2 s1 = false.
Proof.
  unfold String.ltb. rewrite (String.compare_antisym s1 s2).
  destruct (String.compare s2 s1); simpl; congruence.
Qed.

(** ** [match_products] *)

Lemma match_pair_emitted (df df1 df2 : pd.DataFrame) (platform1 platform2 : string)
    (threshold : Q) (row1 row2 : Product.t) (matches matches' : list ProductMatch.t) :
  In row1 (pd.rows df) -> In row2 (pd.rows df) ->
  Product.platform row1 = platform1 -> Product.platform row2 = platform2 ->
  String.ltb platform1 platform2 = true ->
  Forall (emitted df threshold) matches ->
  match_pair df1 df2 platform1 platform2 threshold row1 row2 matches = Ok matches' ->
  Forall (emitted df threshold) matches'.
Proof.
  intros H1 H2 Hp1 Hp2 Hlt Hacc. unfold match_pair, pd.row_getitem.
  destruct (pd.has_column df1 "name"); [|discriminate].
  destruct (pd.has_column df2 "name"); [|discriminate].
  destruct (pd.has_column df1 "weight_clean"); [|discriminate].
  destruct (pd.has_column df2 "weight_clean"); [|discriminate].
  cbn [bind].
  destruct (Qle_bool threshold _) eqn:Eth.
  - destruct (pd.has_column df1 "price_numeric"); [|discriminate].
    destruct (pd.has_column df2 "price_numeric"); [|discriminate].
    destruct (pd.has_column df1 "brand"); [|discriminate].
    cbn [bind]. intros H. injection H as <-.
    apply Forall_app. split; [exact Hacc|]. constructor; [|constructor].
    exists row1, row2. cbn. repeat split; assumption.
  - intros H. injection H as <-. exact Hacc.
Qed.

Lemma match_products_emitted (df : pd.DataFrame) (threshold : Q)
    (matches : list ProductMatch.t) :
  match_products df threshold = Ok matches ->
  Forall (emitted df threshold) matches.
Proof.
  unfold match_products, pd.getitem.
  destruct (pd.has_column df "platform"); [|discriminate].
  cbn [bind].
  destruct (List.length _ <? 2); [intros H; injection H as <-; constructor|].
  apply for_each_invariant; [|constructor].
  intros platform1 acc1 acc1' _ Hacc1.
  apply for_each_invariant; [|exact Hacc1].
  intros platform2 acc2 acc2' _ Hacc2.
  destruct (String.leb platform2 platform1) eqn:Ele;
    [intros H; injection H as <-; exact Hacc2|].
  apply leb_false_ltb in Ele.
  apply for_each_invariant; [|exact Hacc2].
  intros row1 acc3 acc3' Hrow1 Hacc3.
  apply for_each_invariant; [|exact Hacc3].
  intros row2 acc4 acc4' Hrow2 Hacc4.
  apply select_eq_mask_In in Hrow1, Hrow2.
  apply match_pair_emitted; tauto.
Qed.

(** On a frame that has the product columns the function returns. *)
Lemma match_products_returns (df : pd.DataFrame) (threshold : Q) :
  (forall key, In key pd.product_keys -> pd.has_column df key = true) ->
  exists matches, match_products df threshold = Ok matches.
Proof.
  intros Hcols. unfold match_products, pd.getitem.
  rewrite (Hcols "platform"%string) by (simpl; tauto). cbn [bind].
  destruct (List.length _ <? 2); [eexists; reflexivity|].
  apply for_each_returns. intros platform1 acc1 _.
  apply for_each_returns. intros platform2 acc2 _.
  destruct (String.leb platform2 platform1); [eexists; reflexivity|].
  apply for_each_returns. intros row1 acc3 _.
  apply for_each_returns. intros row2 acc4 _.
  unfold match_pair, pd.row_getitem, pd.getitem_mask, pd.has_column. cbn [pd.columns].
  unfold pd.has_column in Hcols.
  rewrite (Hcols "name"%string), (Hcols "weight_clean"%string) by (simpl; tauto).
  cbn [bind]. destruct (Qle_bool threshold _); [|eexists; reflexivity].
  rewrite (Hcols "price_numeric"%string), (Hcols "brand"%string) by (simpl; tauto).
  cbn [bind]. eexists; reflexivity.
Qed.

Lemma Qltb_lt (a b : Q) : Qltb a b = true <-> (a < b)%Q.
Proof.
  unfold Qltb. rewrite negb_true_iff. split.
  - intros H. apply Qnot_le_lt. intros Hle. apply Qle_bool_iff in Hle. congruence.
  - intros H. destruct (Qle_bool b a) eqn:E; [|reflexivity].
    apply Qle_bool_iff in E. exfalso. apply (Qlt_not_le _ _ H E).
Qed.

(** C7: every record of the result pairs a platform with a strictly greater
    one, so no record pairs a platform with itself and no two records pair
    the same platforms in opposite orders; its savings are its price
    difference; and its similarity, the score of the two rows it was built
    from, reaches the threshold. *)
Theorem match_products_invariants (df : pd.DataFrame) (threshold : Q)
    (matches : list ProductMatch.t) (m : ProductMatch.t) :
  match_products df threshold = Ok matches ->
  In m matches ->
  String.ltb (ProductMatch.platform1 m) (ProductMatch.platform2 m) = true
  /\ ProductMatch.platform1 m <> ProductMatch.platform2 m
  /\ (forall m', In m' matches ->
        ~ (ProductMatch.platform1 m' = ProductMatch.platform2 m
           /\ ProductMatch.platform2 m' = ProductMatch.platform1 m))
  /\ ProductMatch.savings m = ProductMatch.price_diff m
  /\ (threshold <= inject_Z (ProductMatch.similarity m))%Q
  /\ (exists row1 row2,
        In row1 (pd.rows df) /\ In row2 (pd.rows df)
        /\ Product.platform row1 = ProductMatch.platform1 m
        /\ Product.platform row2 = ProductMatch.platform2 m
        /\ ProductMatch.similarity m
           = calculate_similarity (Product.name row1) (Product.name row2)
               (Product.weight_clean row1) (Product.weight_clean row2)).
Proof.
  intros Hrun Hin. apply match_products_emitted in Hrun.
  rewrite Forall_forall in Hrun.
  destruct (Hrun m Hin)
    as (row1 & row2 & Hr1 & Hr2 & Hp1 & Hp2 & Hlt & _ & _ & Hsim & Hth & _ & Hsav & _).
  split; [exact Hlt|]. split.
  - intros E. rewrite E, ltb_irrefl in Hlt. discriminate.
  - split.
    + intros m' Hin' [E1 E2].
      destruct (Hrun m' Hin') as (_ & _ & _ & _ & _ & _ & Hlt' & _).
      rewrite E1, E2 in Hlt'. apply ltb_asym in Hlt. congruence.
    + split; [exact Hsav|]. split; [apply Qle_bool_iff, Hth|].
      exists row1, row2. tauto.
Qed.

(** C2, as the code has it: [cheaper_platform] is [platform1] exactly when
    [price1] is strictly below [price2]; when [price2] is strictly below
    [price1], and also when the prices are equal, it is [platform2], the
    greater of the two platform names. *)
Theorem cheaper_platform_spec (df : pd.DataFrame) (threshold : Q)
    (matches : list ProductMatch.t) (m : ProductMatch.t) :
  match_products df threshold = Ok matches ->
  In m matches ->
  ((ProductMatch.price1 m < ProductMatch.price2 m)%Q ->
     ProductMatch.cheaper_platform m = ProductMatch.platform1 m)
  /\ ((ProductMatch.price2 m < ProductMatch.price1 m)%Q ->
        ProductMatch.cheaper_platform m = ProductMatch.platform2 m)
  /\ ((ProductMatch.price1 m == ProductMatch.price2 m)%Q ->
        ProductMatch.cheaper_platform m = ProductMatch.platform2 m)
  /\ String.ltb (ProductMatch.platform1 m) (ProductMatch.platform2 m) = true.
Proof.
  intros Hrun Hin. apply match_products_emitted in Hrun.
  rewrite Forall_forall in Hrun.
  destruct (Hrun m Hin)
    as (row1 & row2 & _ & _ & _ & _ & Hlt & _ & _ & _ & _ & _ & _ & Hch).
  rewrite Hch.
  destruct (Qltb (ProductMatch.price1 m) (ProductMatch.price2 m)) eqn:E.
  - apply Qltb_lt in E. repeat split; try reflexivity; try exact Hlt.
    + intros H. exfalso. apply (Qlt_irrefl (ProductMatch.price1 m)).
      apply (Qlt_trans _ _ _ E H).
    + intros H. exfalso. rewrite H in E. apply (Qlt_irrefl _ E).
  - repeat split; try reflexivity; try exact Hlt.
    intros H. apply Qltb_lt in H. congruence.
Qed.

(** *** Examples *)

(** C1: on the two Britannia records, whatever their other fields are, a
    threshold of 75 gives exactly one record; platform B is the cheaper one,
    the savings are 7 and the price difference is 140/9 percent, which is
    15.56 to two decimals. *)
Theorem britannia_example
    (brand1 weight1 price1 image1 brand2 weight2 price2 image2 : string) :
  exists m : ProductMatch.t,
    match_products
      (pd.DataFrame_of
         (britannia brand1 weight1 price1 image1 brand2 weight2 price2 image2)) 75%Q
    = Ok [m]
    /\ ProductMatch.platform1 m = "A"%string
    /\ ProductMatch.platform2 m = "B"%string
    /\ ProductMatch.cheaper_platform m = "B"%string
    /\ (ProductMatch.savings m == 7)%Q
    /\ (ProductMatch.price_diff_pct m == 140 # 9)%Q
    /\ (Qabs (ProductMatch.price_diff_pct m - (1556 # 100)) < 5 # 1000)%Q.
Proof.
  eexists. split; [vm_compute; reflexivity|].
  cbn. repeat split; reflexivity.
Qed.

Lemma milk_bread_run :
  match_products (pd.DataFrame_of milk_bread_tie) 75%Q = Ok [milk_bread_match].
Proof. vm_compute. reflexivity. Qed.

(** C2, as stated, fails: the two Milk Bread records cost the same, and the
    record built for them names platform B, which is [platform2], as the
    cheaper one. *)
Lemma tie_goes_to_platform2 :
  match_products (pd.DataFrame_of milk_bread_tie) 75%Q = Ok [milk_bread_match]
  /\ (ProductMatch.price1 milk_bread_match == ProductMatch.price2 milk_bread_match)%Q
  /\ ProductMatch.cheaper_platform milk_bread_match
     = ProductMatch.platform2 milk_bread_match
  /\ ProductMatch.cheaper_platform milk_bread_match
     <> ProductMatch.platform1 milk_bread_match.
Proof.
  split; [exact milk_bread_run|].
  split; [reflexivity|]. split; [reflexivity|]. discriminate.
Qed.

Lemma cheaper_platform_spec_witness :
  (match_products (pd.DataFrame_of milk_bread_tie) 75%Q = Ok [milk_bread_match]
   /\ In milk_bread_match [milk_bread_match])
  /\ (((40 < 40)%Q -> "B"%string = "A"%string)
      /\ ((40 < 40)%Q -> "B"%string = "B"%string)
      /\ ((40 == 40)%Q -> "B"%string = "B"%string)
      /\ String.ltb "A" "B" = true).
Proof.
  split.
  - split; [exact milk_bread_run|left; reflexivity].
  - apply (cheaper_platform_spec (pd.DataFrame_of milk_bread_tie) 75%Q
             [milk_bread_match] milk_bread_match).
    + exact milk_bread_run.
    + left; reflexivity.
Defined.

Lemma match_products_invariants_witness :
  (match_products (pd.DataFrame_of milk_bread_tie) 75%Q = Ok [milk_bread_match]
   /\ In milk_bread_match [milk_bread_match])
  /\ (String.ltb "A" "B" = true
      /\ "A"%string <> "B"%string
      /\ (forall m', In m' [milk_bread_match] ->
            ~ (ProductMatch.platform1 m' = "B"%string
               /\ ProductMatch.platform2 m' = "A"%string))
      /\ 0%Q = 0%Q
      /\ (75 <= inject_Z 100)%Q
      /\ (exists row1 row2,
            In row1 milk_bread_tie /\ In row2 milk_bread_tie
            /\ Product.platform row1 = "A"%string
            /\ Product.platform row2 = "B"%string
            /\ 100%Z
               = calculate_similarity (Product.name row1) (Product.name row2)
                   (Product.weight_clean row1) (Product.weight_clean row2))).
Proof.
  split.
  - split; [exact milk_bread_run|left; reflexivity].
  - apply (match_products_invariants (pd.DataFrame_of milk_bread_tie) 75%Q
             [milk_bread_match] milk_bread_match).
    + exact milk_bread_run.
    + left; reflexivity.
Defined.

(** ** [get_best_deals] *)

Lemma Qltb_false_le (a b : Q) : Qltb a b = false -> (b <= a)%Q.
Proof.
  unfold Qltb. rewrite negb_false_iff. apply Qle_bool_iff.
Qed.

Lemma insert_desc_length (x : ProductMatch.t) (l : list ProductMatch.t) :
  List.length (insert_desc x l) = S (List.length l).
Proof.
  induction l as [|y l IH]; [reflexivity|].
  simpl. destruct (Qltb _ _); simpl; [rewrite IH|]; reflexivity.
Qed.

Lemma sorted_length (l : list ProductMatch.t) :
  List.length (sorted_by_savings_desc l) = List.length l.
Proof.
  induction l as [|x l IH]; [reflexivity|].
  simpl. rewrite insert_desc_length, IH. reflexivity.
Qed.

Lemma insert_desc_In (x y : ProductMatch.t) (l : list ProductMatch.t) :
  In y (insert_desc x l) <-> y = x \/ In y l.
Proof.
  induction l as [|z l IH]; simpl; [intuition congruence|].
  destruct (Qltb _ _); simpl; [rewrite IH|]; intuition congruence.
Qed.

Lemma sorted_In (y : ProductMatch.t) (l : list ProductMatch.t) :
  In y (sorted_by_savings_desc l) <-> In y l.
Proof.
  induction l as [|x l IH]; simpl; [tauto|].
  rewrite insert_desc_In, IH. intuition congruence.
Qed.

Lemma insert_desc_sorted (x : ProductMatch.t) (l : list ProductMatch.t) :
  StronglySorted not_below l -> StronglySorted not_below (insert_desc x l).
Proof.
  induction 1 as [|y l Hl IH Hy]; simpl; [repeat constructor|].
  destruct (Qltb (ProductMatch.savings x) (ProductMatch.savings y)) eqn:E.
  - constructor; [exact IH|].
    apply Forall_forall. intros z Hz. apply insert_desc_In in Hz.
    destruct Hz as [->|Hz].
    + apply Qlt_le_weak, Qltb_lt, E.
    + rewrite Forall_forall in Hy. apply Hy, Hz.
  - apply Qltb_false_le in E. constructor; [constructor; assumption|].
    constructor; [exact E|].
    apply Forall_forall. intros z Hz. rewrite Forall_forall in Hy.
    unfold not_below in *. apply (Qle_trans _ _ _ (Hy z Hz) E).
Qed.

Lemma sorted_sorted (l : list ProductMatch.t) :
  StronglySorted not_below (sorted_by_savings_desc l).
Proof.
  induction l as [|x l IH]; simpl; [constructor|].
  apply insert_desc_sorted, IH.
Qed.

(** Inserting a record does not move it past a record with the same
    savings. *)
Lemma insert_desc_stable (q : Q) (x : ProductMatch.t) (l : list ProductMatch.t) :
  filter (saves q) (insert_desc x l) = filter (saves q) (x :: l).
Proof.
  induction l as [|y l IH]; [reflexivity|].
  cbn [insert_desc].
  destruct (Qltb (ProductMatch.savings x) (ProductMatch.savings y)) eqn:E;
    [|reflexivity].
  cbn [filter] in *. rewrite IH.
  destruct (saves q x) eqn:Ex; [|reflexivity].
  destruct (saves q y) eqn:Ey; [|reflexivity].
  exfalso. unfold saves in Ex, Ey. apply Qeq_bool_iff in Ex, Ey.
  apply Qltb_lt in E. rewrite Ex, Ey in E. apply (Qlt_irrefl _ E).
Qed.

Lemma sorted_stable (q : Q) (l : list ProductMatch.t) :
  filter (saves q) (sorted_by_savings_desc l) = filter (saves q) l.
Proof.
  induction l as [|x l IH]; [reflexivity|].
  cbn [sorted_by_savings_desc fold_right].
  fold (sorted_by_savings_desc l).
  rewrite insert_desc_stable. cbn [filter]. rewrite IH. reflexivity.
Qed.

Lemma firstn_sorted (n : nat) (l : list ProductMatch.t) :
  StronglySorted not_below l -> StronglySorted not_below (firstn n l).
Proof.
  intros H. revert n. induction H as [|y l Hl IH Hy]; intros n.
  - rewrite firstn_nil. constructor.
  - destruct n as [|n]; [constructor|]. cbn [firstn].
    constructor; [apply IH|].
    rewrite Forall_forall in *. intros z Hz. apply Hy.
    rewrite <- (firstn_skipn n l). apply in_or_app. left. exact Hz.
Qed.

Lemma slice_to_prefix {A : Type} (l : list A) (n : Z) :
  exists k, slice_to l n = firstn k l.
Proof. unfold slice_to. destruct (0 <=? n)%Z; eexists; reflexivity. Qed.

(** For every top_n the result is a prefix of the sorted list: it is sorted
    by decreasing savings, it keeps the order of the input among records
    with the same savings, and its records are records of the input. *)
Lemma get_best_deals_sorted_stable (matches : list ProductMatch.t) (top_n : Z) :
  StronglySorted not_below (get_best_deals matches top_n)
  /\ (forall q : Q, exists rest,
         filter (saves q) matches
         = filter (saves q) (get_best_deals matches top_n) ++ rest)
  /\ (forall m, In m (get_best_deals matches top_n) -> In m matches).
Proof.
  unfold get_best_deals.
  destruct (slice_to_prefix (sorted_by_savings_desc matches) top_n) as [k ->].
  split; [apply firstn_sorted, sorted_sorted|]. split.
  - intros q. exists (filter (saves q) (skipn k (sorted_by_savings_desc matches))).
    rewrite <- filter_app, firstn_skipn. symmetry. apply sorted_stable.
  - intros m Hm. apply sorted_In.
    rewrite <- (firstn_skipn k). apply in_or_app. left. exact Hm.
Qed.

(** C8: with top_n the number of records asked for, the result has
    [min top_n (len matches)] records, so at most top_n, and fewer when the
    input has fewer.  For every top_n the result has no more records than
    the input, it is sorted by decreasing savings, and the records with a
    given amount of savings are the first ones of the input with that
    amount, in the order of the input. *)
Theorem get_best_deals_spec (matches : list ProductMatch.t) (top_n : Z) :
  let deals := get_best_deals matches top_n in
  ((0 <= top_n)%Z ->
     List.length deals = Nat.min (Z.to_nat top_n) (List.length matches)
     /\ (Z.of_nat (List.length deals) <= top_n)%Z)
  /\ List.length deals <= List.length matches
  /\ StronglySorted not_below deals
  /\ (forall q : Q, exists rest,
         filter (saves q) matches = filter (saves q) deals ++ rest)
  /\ (forall m, In m deals -> In m matches).
Proof.
  cbv zeta. split; [|split; [|apply get_best_deals_sorted_stable]].
  - intros Hn.
    assert (Hlen : List.length (get_best_deals matches top_n)
                   = Nat.min (Z.to_nat top_n) (List.length matches)).
    { unfold get_best_deals, slice_to.
      assert (E : (0 <=? top_n)%Z = true) by (apply Z.leb_le, Hn).
      rewrite E, length_firstn, sorted_length. reflexivity. }
    split; [exact Hlen|rewrite Hlen; lia].
  - unfold get_best_deals.
    destruct (slice_to_prefix (sorted_by_savings_desc matches) top_n) as [k ->].
    rewrite length_firstn, sorted_length. lia.
Qed.

Lemma get_best_deals_spec_witness :
  (0 <= 2)%Z
  /\ List.length (get_best_deals three_deals 2)
     = Nat.min (Z.to_nat 2) (List.length three_deals)
  /\ (Z.of_nat (List.length (get_best_deals three_deals 2)) <= 2)%Z.
Proof.
  split; [lia|].
  apply (proj1 (get_best_deals_spec three_deals 2)). lia.
Defined.

(** *** On list objects *)

Lemma store_get_best_deals_run (st : Store.store) (matches : Store.ref) (top_n : Z) :
  Store.get_best_deals matches top_n st
  = (S (List.length st),
     st ++ [sorted_by_savings_desc (nth matches st [])]
        ++ [get_best_deals (nth matches st []) top_n]).
Proof.
  unfold Store.get_best_deals, Store.sorted, Store.slice, Store.bind,
    Store.load, Store.alloc, get_best_deals.
  rewrite nth_middle, length_app, <- app_assoc. cbn [List.length app].
  rewrite Nat.add_1_r. reflexivity.
Qed.

(** C10: the call leaves the list it is given, and every other list of the
    store, as it was; its result is a list object that did not exist
    before, so it is not the argument, and holds the best deals. *)
Theorem get_best_deals_leaves_input (st : Store.store) (matches : Store.ref)
    (top_n : Z) :
  matches < List.length st ->
  let (deals, st') := Store.get_best_deals matches top_n st in
  nth matches st' [] = nth matches st []
  /\ deals <> matches
  /\ List.length st <= deals
  /\ nth deals st' [] = get_best_deals (nth matches st []) top_n
  /\ (forall r : Store.ref, r < List.length st -> nth r st' [] = nth r st []).
Proof.
  intros Hlt. rewrite store_get_best_deals_run.
  split; [apply app_nth1, Hlt|]. split; [lia|]. split; [lia|]. split.
  - rewrite app_nth2 by lia.
    replace (S (List.length st) - List.length st) with 1 by lia. reflexivity.
  - intros r Hr. apply app_nth1, Hr.
Qed.

Lemma get_best_deals_leaves_input_witness :
  0 < List.length [three_deals]
  /\ (let (deals, st') := Store.get_best_deals 0 2 [three_deals] in
      nth 0 st' [] = nth 0 [three_deals] []
      /\ deals <> 0
      /\ List.length [three_deals] <= deals
      /\ nth deals st' [] = get_best_deals (nth 0 [three_deals] []) 2
      /\ (forall r : Store.ref,
             r < List.length [three_deals] -> nth r st' [] = nth r [three_deals] [])).
Proof.
  split; [simpl; lia|].
  apply (get_best_deals_leaves_input [three_deals] 0 2). simpl; lia.
Defined.

(** Sorting in place, which the function does not do, would reorder the
    argument. *)
Lemma sort_in_place_reorders :
  nth 0 (snd (Store.sort_in_place 0 [three_deals])) [] <> three_deals.
Proof. vm_compute. discriminate. Qed.

(** ** [calculate_statistics] *)

Lemma calculate_statistics_run (df : pd.DataFrame) :
  pd.has_column df "platform" = true ->
  pd.has_column df "brand" = true ->
  pd.has_column df "price_numeric" = true ->
  calculate_statistics df
  = Ok {| total_products := List.length (pd.rows df);
          total_platforms := pd.nunique (map Product.platform (pd.rows df));
          total_brands := pd.nunique (map Product.brand (pd.rows df));
          avg_price := pd.mean (map Product.price_numeric (pd.rows df));
          median_price := pd.median (map Product.price_numeric (pd.rows df));
          min_price := pd.min (map Product.price_numeric (pd.rows df));
          max_price := pd.max (map Product.price_numeric (pd.rows df));
          price_std := pd.std (map Product.price_numeric (pd.rows df)) |}.
Proof.
  intros H1 H2 H3. unfold calculate_statistics, pd.getitem.
  rewrite H1, H2, H3. reflexivity.
Qed.

Lemma std_small (l : list Q) : List.length l < 2 -> pd.std l = pd.NaN.
Proof.
  destruct l as [|x [|y l]]; simpl; [reflexivity|reflexivity|lia].
Qed.

Lemma std_large (l : list Q) : 2 <= List.length l -> pd.std l <> pd.NaN.
Proof.
  destruct l as [|x [|y l]]; simpl; [lia|lia|discriminate].
Qed.

(** The frame of a list of records that is not empty has every product
    column. *)
Lemma DataFrame_of_columns (records : list Product.t) (key : string) :
  records <> [] -> In key pd.product_keys ->
  pd.has_column (pd.DataFrame_of records) key = true.
Proof.
  intros Hne Hin. destruct records as [|r records]; [contradiction|].
  unfold pd.has_column, mem. cbn [pd.DataFrame_of pd.columns].
  apply existsb_exists. exists key. split; [exact Hin|apply String.eqb_refl].
Qed.

(** With a single record there is a mean and no standard deviation. *)
Lemma calculate_statistics_one_record :
  exists stats : Statistics,
    calculate_statistics (pd.DataFrame_of [one_loaf]) = Ok stats
    /\ total_products stats = 1
    /\ avg_price stats = pd.Num (40 / 1)%Q
    /\ price_std stats = pd.NaN.
Proof. eexists. split; [reflexivity|]. repeat split. Qed.

(** C3, as the code has it: on a frame that has the platform, brand and
    price_numeric columns the call returns.  With no rows it counts 0
    products, platforms and brands, and the mean, the median, the minimum,
    the maximum and the standard deviation are NaN; with fewer than two
    rows the standard deviation is NaN, with two or more it is not. *)
Theorem calculate_statistics_spec (df : pd.DataFrame) :
  pd.has_column df "platform" = true ->
  pd.has_column df "brand" = true ->
  pd.has_column df "price_numeric" = true ->
  exists stats : Statistics,
    calculate_statistics df = Ok stats
    /\ total_products stats = List.length (pd.rows df)
    /\ (List.length (pd.rows df) < 2 -> price_std stats = pd.NaN)
    /\ (2 <= List.length (pd.rows df) -> price_std stats <> pd.NaN)
    /\ (pd.rows df = [] ->
          stats = {| total_products := 0; total_platforms := 0; total_brands := 0;
                     avg_price := pd.NaN; median_price := pd.NaN;
                     min_price := pd.NaN; max_price := pd.NaN;
                     price_std := pd.NaN |}).
Proof.
  intros H1 H2 H3. eexists. split; [apply calculate_statistics_run; assumption|].
  cbn [total_products price_std]. split; [reflexivity|].
  split; [intros H; apply std_small; rewrite length_map; exact H|].
  split; [intros H; apply std_large; rewrite length_map; exact H|].
  intros ->. reflexivity.
Qed.

Lemma calculate_statistics_spec_witness :
  (pd.has_column no_rows "platform" = true
   /\ pd.has_column no_rows "brand" = true
   /\ pd.has_column no_rows "price_numeric" = true)
  /\ exists stats : Statistics,
       calculate_statistics no_rows = Ok stats
       /\ total_products stats = List.length (pd.rows no_rows)
       /\ (List.length (pd.rows no_rows) < 2 -> price_std stats = pd.NaN)
       /\ (2 <= List.length (pd.rows no_rows) -> price_std stats <> pd.NaN)
       /\ (pd.rows no_rows = [] ->
             stats = {| total_products := 0; total_platforms := 0; total_brands := 0;
                        avg_price := pd.NaN; median_price := pd.NaN;
                        min_price := pd.NaN; max_price := pd.NaN;
                        price_std := pd.NaN |}).
Proof.
  split; [repeat split; reflexivity|].
  apply (calculate_statistics_spec no_rows); reflexivity.
Defined.

(** C3, as stated, fails: the frame that pandas builds from an empty list
    of records has no columns, and the lookup of the platform column
    raises. *)
Lemma calculate_statistics_empty_raises :
  pd.rows (pd.DataFrame_of []) = []
  /\ calculate_statistics (pd.DataFrame_of []) = Raise (KeyError "platform").
Proof. split; reflexivity. Qed.

(** * More of the matcher *)

(** ** Loops that only append *)

Lemma for_each_append {X B : Type} (g : X -> list B)
    (body : X -> list B -> result (list B)) (xs : list X) :
  (forall x acc, In x xs -> body x acc = Ok (acc ++ g x)) ->
  forall acc, for_each xs acc body = Ok (acc ++ flat_map g xs).
Proof.
  induction xs as [|x xs IH]; intros Hbody acc.
  - simpl. rewrite app_nil_r. reflexivity.
  - cbn [for_each flat_map]. rewrite (Hbody x acc (or_introl eq_refl)). cbn [bind].
    rewrite IH by (intros y a Hy; apply Hbody; right; exact Hy).
    rewrite app_assoc. reflexivity.
Qed.

Lemma has_columns_In (df : pd.DataFrame) (keys : list string) (key : string) :
  has_columns df keys = true -> In key keys -> pd.has_column df key = true.
Proof.
  unfold has_columns. intros H Hin. rewrite forallb_forall in H. apply H, Hin.
Qed.

Lemma match_pair_run (df1 df2 : pd.DataFrame) (platform1 platform2 : string)
    (threshold : Q) (row1 row2 : Product.t) (matches : list ProductMatch.t) :
  has_columns df1 match_columns = true ->
  has_columns df2 match_columns = true ->
  match_pair df1 df2 platform1 platform2 threshold row1 row2 matches
  = Ok (matches ++ pair_matches threshold platform1 platform2 row1 row2).
Proof.
  intros H1 H2. unfold match_pair, pd.row_getitem.
  rewrite (has_columns_In df1 _ "name" H1), (has_columns_In df2 _ "name" H2),
    (has_columns_In df1 _ "weight_clean" H1), (has_columns_In df2 _ "weight_clean" H2)
    by (simpl; tauto).
  cbn [bind]. unfold pair_matches, qualifies.
  destruct (Qle_bool threshold _).
  - rewrite (has_columns_In df1 _ "price_numeric" H1),
      (has_columns_In df2 _ "price_numeric" H2),
      (has_columns_In df1 _ "brand" H1) by (simpl; tauto).
    reflexivity.
  - rewrite app_nil_r. reflexivity.
Qed.

(** On a frame with the columns, the loops build [all_matches]. *)
Lemma match_products_run (df : pd.DataFrame) (threshold : Q) :
  has_columns df match_columns = true ->
  match_products df threshold = Ok (all_matches (pd.rows df) threshold).
Proof.
  intros Hcols. unfold match_products, pd.getitem.
  rewrite (has_columns_In df _ "platform" Hcols) by (simpl; tauto). cbn [bind].
  unfold all_matches. cbv zeta.
  set (platforms := pd.unique (map Product.platform (pd.rows df))).
  assert (Hloops :
    for_each platforms []
      (fun platform1 matches =>
         column1 <- Ok (map Product.platform (pd.rows df)) ;;
         for_each platforms matches
           (fun platform2 matches0 =>
              if String.leb platform2 platform1 then Ok matches0
              else
                column2 <- Ok (map Product.platform (pd.rows df)) ;;
                for_each (pd.iterrows (pd.getitem_mask df (pd.eq_mask column1 platform1)))
                  matches0
                  (fun row1 matches1 =>
                     for_each
                       (pd.iterrows (pd.getitem_mask df (pd.eq_mask column2 platform2)))
                       matches1
                       (fun row2 matches2 =>
                          match_pair (pd.getitem_mask df (pd.eq_mask column1 platform1))
                            (pd.getitem_mask df (pd.eq_mask column2 platform2))
                            platform1 platform2 threshold row1 row2 matches2))))
    = Ok ([] ++ flat_map (fun platform1 =>
        flat_map (fun platform2 =>
          if String.leb platform2 platform1 then []
          else
            flat_map (fun row1 =>
              flat_map (fun row2 =>
                pair_matches threshold platform1 platform2 row1 row2)
                (platform_rows (pd.rows df) platform2))
              (platform_rows (pd.rows df) platform1))
          platforms) platforms)).
  { apply for_each_append. intros platform1 acc1 _. cbn [bind].
    apply for_each_append. intros platform2 acc2 _.
    destruct (String.leb platform2 platform1); [rewrite app_nil_r; reflexivity|].
    cbn [bind]. apply for_each_append. intros row1 acc3 _.
    apply for_each_append. intros row2 acc4 _.
    apply match_pair_run; exact Hcols. }
  cbn [app] in Hloops.
  destruct (List.length platforms <? 2) eqn:Elen; [|exact Hloops].
  f_equal. apply Nat.ltb_lt in Elen.
  destruct platforms as [|p [|q platforms]]; [reflexivity| |simpl in Elen; lia].
  cbn [flat_map]. 
  assert (E : String.leb p p = true).
  { destruct (String.leb_total p p) as [H|H]; exact H. }
  rewrite E. reflexivity.
Qed.

(** ** Which records [match_products] returns *)

Lemma ltb_leb_false (s1 s2 : string) :
  String.ltb s1 s2 = true -> String.leb s2 s1 = false.
Proof.
  unfold String.leb, String.ltb. rewrite (String.compare_antisym s1 s2).
  destruct (String.compare s2 s1); simpl; congruence.
Qed.

Lemma platform_rows_In (rows : list Product.t) (platform : string) (r : Product.t) :
  In r (platform_rows rows platform) <-> In r rows /\ Product.platform r = platform.
Proof.
  split; [apply select_eq_mask_In|].
  unfold platform_rows. induction rows as [|x rows IH]; [intros [[] _]|].
  intros [Hin Hp]. cbn [map pd.eq_mask pd.select].
  fold (pd.eq_mask (map Product.platform rows) platform).
  destruct Hin as [->|Hin].
  - rewrite Hp, String.eqb_refl. left. reflexivity.
  - destruct (String.eqb (Product.platform x) platform); [right|]; apply IH; tauto.
Qed.

Lemma unique_In (x : string) (l : list string) : In x (pd.unique l) <-> In x l.
Proof.
  induction l as [|y l IH]; [tauto|].
  cbn [pd.unique In]. rewrite filter_In, IH.
  destruct (String.eqb_spec y x) as [->|Hne]; [tauto|].
  cbn [negb]. intuition congruence.
Qed.

Lemma all_matches_In (rows : list Product.t) (threshold : Q) (m : ProductMatch.t) :
  In m (all_matches rows threshold)
  <-> exists row1 row2 : Product.t,
        In row1 rows /\ In row2 rows
        /\ String.ltb (Product.platform row1) (Product.platform row2) = true
        /\ qualifies threshold row1 row2 = true
        /\ m = match_record (Product.platform row1) (Product.platform row2) row1 row2.
Proof.
  unfold all_matches. cbv zeta. split.
  - intros H. apply in_flat_map in H. destruct H as (p1 & _ & H).
    apply in_flat_map in H. destruct H as (p2 & _ & H).
    destruct (String.leb p2 p1) eqn:Ele; [destruct H|].
    apply in_flat_map in H. destruct H as (r1 & Hr1 & H).
    apply in_flat_map in H. destruct H as (r2 & Hr2 & H).
    apply platform_rows_In in Hr1, Hr2. destruct Hr1 as [Hr1 <-], Hr2 as [Hr2 <-].
    unfold pair_matches in H. destruct (qualifies threshold r1 r2) eqn:Eq; [|destruct H].
    destruct H as [<-|[]]. exists r1, r2.
    repeat split; try assumption. apply leb_false_ltb, Ele.
  - intros (r1 & r2 & Hr1 & Hr2 & Hlt & Hq & ->).
    apply in_flat_map. exists (Product.platform r1). split.
    { apply unique_In, in_map, Hr1. }
    apply in_flat_map. exists (Product.platform r2). split.
    { apply unique_In, in_map, Hr2. }
    rewrite (ltb_leb_false _ _ Hlt).
    apply in_flat_map. exists r1. split; [apply platform_rows_In; tauto|].
    apply in_flat_map. exists r2. split; [apply platform_rows_In; tauto|].
    unfold pair_matches. rewrite Hq. left. reflexivity.
Qed.

(** X1: on a frame with the columns the function reads, the result holds
    exactly the records of the pairs of rows whose platforms are in strict
    order and whose score reaches the threshold: none is left out and
    nothing else is added. *)
Theorem match_products_exact (df : pd.DataFrame) (threshold : Q) :
  has_columns df match_columns = true ->
  exists matches : list ProductMatch.t,
    match_products df threshold = Ok matches
    /\ forall m : ProductMatch.t,
         In m matches
         <-> exists row1 row2 : Product.t,
               In row1 (pd.rows df) /\ In row2 (pd.rows df)
               /\ String.ltb (Product.platform row1) (Product.platform row2) = true
               /\ (threshold
                   <= inject_Z (calculate_similarity
                                  (Product.name row1) (Product.name row2)
                                  (Product.weight_clean row1)
                                  (Product.weight_clean row2)))%Q
               /\ m = match_record (Product.platform row1) (Product.platform row2)
                        row1 row2.
Proof.
  intros Hcols. exists (all_matches (pd.rows df) threshold).
  split; [apply match_products_run, Hcols|].
  intros m. rewrite all_matches_In. unfold qualifies.
  split; intros (r1 & r2 & H1 & H2 & H3 & H4 & H5); exists r1, r2;
    repeat split; try assumption; apply Qle_bool_iff; exact H4.
Qed.

Lemma filter_all_equal (x : string) (u : list string) :
  (forall y, In y u -> y = x) ->
  filter (fun y => negb (String.eqb x y)) u = [].
Proof.
  induction u as [|y u IH]; intros H; [reflexivity|].
  cbn [filter]. rewrite (H y (or_introl eq_refl)), String.eqb_refl. cbn [negb].
  apply IH. intros z Hz. apply H. right. exact Hz.
Qed.

Lemma unique_one (p : string) (l : list string) :
  (forall x, In x l -> x = p) -> List.length (pd.unique l) <= 1.
Proof.
  intros H. destruct l as [|x l]; [simpl; lia|].
  cbn [pd.unique List.length]. rewrite filter_all_equal; [simpl; lia|].
  intros y Hy. apply (proj1 (unique_In y l)) in Hy.
  rewrite (H x (or_introl eq_refl)). apply H. right. exact Hy.
Qed.

(** X2: when all rows are of one platform (or there is no row), the result
    is empty; only the platform column is needed for that. *)
Theorem match_products_one_platform (df : pd.DataFrame) (threshold : Q)
    (platform : string) :
  pd.has_column df "platform" = true ->
  (forall row, In row (pd.rows df) -> Product.platform row = platform) ->
  match_products df threshold = Ok [].
Proof.
  intros Hcol Hone. unfold match_products, pd.getitem. rewrite Hcol. cbn [bind].
  assert (Hlen : List.length (pd.unique (map Product.platform (pd.rows df))) <= 1).
  { apply (unique_one platform). intros x Hx. apply in_map_iff in Hx.
    destruct Hx as (r & <- & Hr). apply Hone, Hr. }
  assert (E : (List.length (pd.unique (map Product.platform (pd.rows df))) <? 2) = true)
    by (apply Nat.ltb_lt; lia).
  rewrite E. reflexivity.
Qed.

Lemma match_products_one_platform_witness :
  (pd.has_column (pd.DataFrame_of [one_loaf; one_loaf]) "platform" = true
   /\ (forall row, In row (pd.rows (pd.DataFrame_of [one_loaf; one_loaf])) ->
         Product.platform row = "Zepto"%string))
  /\ match_products (pd.DataFrame_of [one_loaf; one_loaf]) 75%Q = Ok [].
Proof.
  assert (H : forall row, In row (pd.rows (pd.DataFrame_of [one_loaf; one_loaf])) ->
                Product.platform row = "Zepto"%string).
  { intros row [<-|[<-|[]]]; reflexivity. }
  split; [split; [reflexivity|exact H]|].
  apply (match_products_one_platform (pd.DataFrame_of [one_loaf; one_loaf]) 75%Q
           "Zepto"%string); [reflexivity|exact H].
Defined.

Lemma match_products_exact_witness :
  has_columns (pd.DataFrame_of milk_bread_tie) match_columns = true
  /\ exists matches : list ProductMatch.t,
       match_products (pd.DataFrame_of milk_bread_tie) 75%Q = Ok matches
       /\ forall m : ProductMatch.t,
            In m matches
            <-> exists row1 row2 : Product.t,
                  In row1 milk_bread_tie /\ In row2 milk_bread_tie
                  /\ String.ltb (Product.platform row1) (Product.platform row2) = true
                  /\ (75 <= inject_Z (calculate_similarity
                                        (Product.name row1) (Product.name row2)
                                        (Product.weight_clean row1)
                                        (Product.weight_clean row2)))%Q
                  /\ m = match_record (Product.platform row1) (Product.platform row2)
                           row1 row2.
Proof.
  split; [reflexivity|].
  apply (match_products_exact (pd.DataFrame_of milk_bread_tie) 75%Q). reflexivity.
Defined.

Lemma match_pair_above_100 (df1 df2 : pd.DataFrame) (platform1 platform2 : string)
    (threshold : Q) (row1 row2 : Product.t) (matches matches' : list ProductMatch.t) :
  (100 < threshold)%Q ->
  match_pair df1 df2 platform1 platform2 threshold row1 row2 matches = Ok matches' ->
  matches' = matches.
Proof.
  intros Hth. unfold match_pair, pd.row_getitem.
  destruct (pd.has_column df1 "name"); [|discriminate].
  destruct (pd.has_column df2 "name"); [|discriminate].
  destruct (pd.has_column df1 "weight_clean"); [|discriminate].
  destruct (pd.has_column df2 "weight_clean"); [|discriminate].
  cbn [bind].
  destruct (Qle_bool threshold _) eqn:E.
  - exfalso. apply Qle_bool_iff in E.
    pose proof (calculate_similarity_range (Product.name row1) (Product.name row2)
                  (Product.weight_clean row1) (Product.weight_clean row2)) as [_ Hle].
    assert (Hq : (inject_Z (calculate_similarity (Product.name row1) (Product.name row2)
                   (Product.weight_clean row1) (Product.weight_clean row2)) <= 100)%Q).
    { change 100%Q with (inject_Z 100). rewrite <- Zle_Qle. exact Hle. }
    apply (Qlt_irrefl 100). eapply Qlt_le_trans; [exact Hth|].
    eapply Qle_trans; [exact E|exact Hq].
  - intros H. injection H as <-. reflexivity.
Qed.

(** X3: no score exceeds 100, so a threshold above 100 leaves no record:
    when the function returns, it returns the empty list. *)
Theorem match_products_threshold_above_100 (df : pd.DataFrame) (threshold : Q)
    (matches : list ProductMatch.t) :
  (100 < threshold)%Q ->
  match_products df threshold = Ok matches ->
  matches = [].
Proof.
  intros Hth. unfold match_products, pd.getitem.
  destruct (pd.has_column df "platform"); [|discriminate]. cbn [bind].
  destruct (List.length _ <? 2); [intros H; injection H as <-; reflexivity|].
  apply (for_each_invariant _ (fun acc => acc = [])); [|reflexivity].
  intros platform1 acc1 acc1' _ Hacc1.
  apply (for_each_invariant _ (fun acc => acc = [])); [|exact Hacc1].
  intros platform2 acc2 acc2' _ Hacc2.
  destruct (String.leb platform2 platform1);
    [intros H; injection H as <-; exact Hacc2|].
  apply (for_each_invariant _ (fun acc => acc = [])); [|exact Hacc2].
  intros row1 acc3 acc3' _ Hacc3.
  apply (for_each_invariant _ (fun acc => acc = [])); [|exact Hacc3].
  intros row2 acc4 acc4' _ Hacc4 H.
  apply (match_pair_above_100 _ _ _ _ _ _ _ _ _ Hth) in H. congruence.
Qed.

Lemma match_products_threshold_above_100_witness :
  ((100 < 101)%Q
   /\ match_products (pd.DataFrame_of milk_bread_tie) 101%Q = Ok [])
  /\ @nil ProductMatch.t = [].
Proof.
  split; [split; [reflexivity|vm_compute; reflexivity]|].
  apply (match_products_threshold_above_100 (pd.DataFrame_of milk_bread_tie) 101%Q []);
    [reflexivity|vm_compute; reflexivity].
Defined.

(** X4: on the frame that pandas builds from a list of scraped records the
    function returns exactly when the list is not empty; the frame of the
    empty list has no platform column and the lookup raises. *)
Theorem match_products_raises_iff_empty (records : list Product.t) (threshold : Q) :
  ((exists matches, match_products (pd.DataFrame_of records) threshold = Ok matches)
   <-> records <> [])
  /\ (records = [] ->
      match_products (pd.DataFrame_of records) threshold = Raise (KeyError "platform")).
Proof.
  split; [split|].
  - intros [matches H] ->. discriminate.
  - intros Hne. destruct records as [|r records]; [contradiction|].
    eexists. apply match_products_run. reflexivity.
  - intros ->. reflexivity.
Qed.

(** ** Prices of a record *)

(** ** More on [calculate_similarity] *)

Module SimilarityFacts.
Import Fuzz.

Lemma edit_sym (ra : list ascii) : forall rb, edit ra rb = edit rb ra.
Proof.
  induction ra as [|x ra IHa]; intros rb.
  - rewrite FuzzFacts.edit_nil_r. reflexivity.
  - induction rb as [|y rb IHb].
    + rewrite FuzzFacts.edit_nil_r. reflexivity.
    + rewrite !FuzzFacts.edit_cons.
      rewrite (IHa (y :: rb)), (IHa rb), IHb, (Ascii.eqb_sym x y).
      rewrite (Nat.min_comm (edit (y :: rb) ra + 1)). reflexivity.
Qed.

Lemma distance_sym (a b : list ascii) : distance a b = distance b a.
Proof. rewrite !FuzzFacts.distance_edit. apply edit_sym. Qed.

Lemma ratio_sym (a b : list ascii) : ratio a b = ratio b a.
Proof.
  unfold ratio, list_eqb.
  rewrite (String.eqb_sym (str a) (str b)), (distance_sym a b),
    (Nat.add_comm (List.length a)), (orb_comm (Nat.eqb (List.length a) 0)).
  reflexivity.
Qed.

Lemma token_sort_ratio_sym (s1 s2 : string) :
  token_sort_ratio s1 s2 = token_sort_ratio s2 s1.
Proof. apply ratio_sym. Qed.

End SimilarityFacts.

(** X6: the score does not depend on the order of the two products:
    swapping the names together with the weights gives the same score. *)
Theorem calculate_similarity_symmetric (name1 name2 weight1 weight2 : string) :
  calculate_similarity name1 name2 weight1 weight2
  = calculate_similarity name2 name1 weight2 weight1.
Proof.
  unfold calculate_similarity.
  rewrite (SimilarityFacts.token_sort_ratio_sym (normalize_name name1)),
    (String.eqb_sym weight1 weight2), (andb_comm (truthy weight1)).
  reflexivity.
Qed.

(** X7: two names with the same normal form score 100 whatever the weights
    are, so names that differ only in case, punctuation or the amount of
    whitespace always match. *)
Theorem calculate_similarity_same_normal_form (name1 name2 weight1 weight2 : string) :
  normalize_name name1 = normalize_name name2 ->
  calculate_similarity name1 name2 weight1 weight2 = 100%Z.
Proof.
  intros E. unfold calculate_similarity.
  rewrite E, FuzzFacts.token_sort_ratio_same.
  destruct (truthy weight1 && truthy weight2 && String.eqb weight1 weight2)%bool;
    reflexivity.
Qed.

Lemma calculate_similarity_same_normal_form_witness :
  normalize_name "MILK  Bread!" = normalize_name "milk bread"
  /\ calculate_similarity "MILK  Bread!" "milk bread" "400g" "1kg" = 100%Z.
Proof.
  split; [vm_compute; reflexivity|].
  apply (calculate_similarity_same_normal_form "MILK  Bread!" "milk bread" "400g" "1kg").
  vm_compute; reflexivity.
Defined.

(** The weights only ever add to the score: equal weights that are not
    empty give the score of the names plus 20, capped at 100, and any other
    pair of weights gives the score of the names alone. *)
Lemma calculate_similarity_bonus (name1 name2 weight1 weight2 : string) :
  let names := calculate_similarity name1 name2 EmptyString EmptyString in
  (weight1 <> EmptyString -> weight1 = weight2 ->
     calculate_similarity name1 name2 weight1 weight2 = Z.min 100 (names + 20))
  /\ (weight1 = EmptyString \/ weight2 = EmptyString \/ weight1 <> weight2 ->
        calculate_similarity name1 name2 weight1 weight2 = names)
  /\ (names <= calculate_similarity name1 name2 weight1 weight2)%Z.
Proof.
  cbv zeta. unfold calculate_similarity.
  pose proof (FuzzFacts.token_sort_ratio_range
                (normalize_name name1) (normalize_name name2)) as Hr.
  cbn [truthy String.eqb negb andb]. rewrite Z.add_0_r.
  split; [|split].
  - intros Hne <-. unfold truthy.
    destruct (String.eqb_spec weight1 EmptyString) as [E|_]; [contradiction|].
    rewrite String.eqb_refl. cbn [negb andb]. lia.
  - intros H.
    assert (E : (truthy weight1 && truthy weight2 && String.eqb weight1 weight2)%bool
                = false).
    { unfold truthy.
      destruct (String.eqb_spec weight1 EmptyString) as [E1|N1]; [reflexivity|].
      destruct (String.eqb_spec weight2 EmptyString) as [E2|N2]; [reflexivity|].
      destruct (String.eqb_spec weight1 weight2) as [E|N]; [|reflexivity].
      exfalso. destruct H as [H|[H|H]]; contradiction. }
    rewrite E, Z.add_0_r. reflexivity.
  - destruct (truthy weight1 && truthy weight2 && String.eqb weight1 weight2)%bool; lia.
Qed.

(** ** More on [normalize_name] *)

Lemma squeeze_true_spaces (s : list ascii) :
  forallb is_space s = true -> squeeze true s = [].
Proof.
  induction s as [|c s IH]; intros H; [reflexivity|].
  cbn [forallb] in H. apply andb_true_iff in H. destruct H as [Hc Hs].
  cbn [squeeze]. rewrite Hc. apply IH, Hs.
Qed.

Lemma squeeze_spaces (s : list ascii) (b : bool) :
  forallb is_space s = true ->
  squeeze b s = [] \/ squeeze b s = [space].
Proof.
  destruct s as [|c s]; intros H; [left; reflexivity|].
  cbn [forallb] in H. apply andb_true_iff in H. destruct H as [Hc Hs].
  cbn [squeeze]. rewrite Hc, (squeeze_true_spaces s Hs).
  destruct b; [left|right]; reflexivity.
Qed.

Lemma passes_no_word (s : list ascii) :
  forallb (fun c => negb (is_word c)) (lower s) = true -> passes s = [].
Proof.
  intros H. unfold passes.
  assert (Hsp : forallb is_space (filter keep (lower s)) = true).
  { apply forallb_forall. intros c Hc. apply filter_In in Hc. destruct Hc as [Hin Hk].
    rewrite forallb_forall in H. specialize (H c Hin).
    unfold keep in Hk. apply negb_true_iff in H. rewrite H in Hk. exact Hk. }
  destruct (squeeze_spaces _ false Hsp) as [E|E]; rewrite E; reflexivity.
Qed.

Lemma lower_is_word (c : ascii) : is_word (to_lower c) = is_word c.
Proof. all_chars c. Qed.

(** X8: an ASCII name without a letter, a digit or an underscore (the
    empty name, blanks, punctuation) is normalized to the empty string. *)
Theorem normalize_name_blank (name : string) :
  ascii_text name = true ->
  forallb (fun c => negb (is_word c)) (chars name) = true ->
  normalize_name name = EmptyString.
Proof.
  intros _ H. rewrite normalize_name_unfold. unfold normalize_name_passes.
  rewrite passes_no_word; [reflexivity|].
  unfold lower. revert H. generalize (chars name). intros s.
  induction s as [|c s IH]; [reflexivity|].
  cbn [forallb map]. rewrite lower_is_word. intros H.
  apply andb_true_iff in H. destruct H as [Hc Hs]. rewrite Hc. apply IH, Hs.
Qed.

Lemma normalize_name_blank_witness :
  (ascii_text " -- !? " = true
   /\ forallb (fun c => negb (is_word c)) (chars " -- !? ") = true)
  /\ normalize_name " -- !? " = EmptyString.
Proof.
  split; [split; reflexivity|].
  apply (normalize_name_blank " -- !? "); reflexivity.
Defined.

Lemma lower_lower (s : list ascii) : lower (lower s) = lower s.
Proof.
  unfold lower. rewrite map_map. apply map_ext. intros c. apply to_lower_idem.
Qed.

(** X9: the case of the letters does not matter, on text of any
    characters: a name and its lower-cased form have the same normal
    form. *)
Theorem normalize_name_ignores_case (db : Unicode.database)
    (name : list (Unicode.char db)) :
  Unicode.lawful db ->
  Unicode.normalize_name db (Unicode.lower db name) = Unicode.normalize_name db name.
Proof.
  intros Hdb. rewrite !UnicodeFacts.text_normalize_name_unfold.
  unfold Unicode.passes.
  destruct Hdb as (_ & _ & _ & Hlow & Hfix).
  rewrite (Hfix (Unicode.lower db name)); [reflexivity|].
  apply Forall_forall. intros c Hc. apply (Hlow name c Hc).
Qed.

Lemma normalize_name_ignores_case_witness :
  Unicode.lawful Unicode.ascii_database
  /\ Unicode.normalize_name Unicode.ascii_database (Str.lower (chars "Milk BREAD"))
     = Unicode.normalize_name Unicode.ascii_database (chars "Milk BREAD").
Proof.
  split; [apply UnicodeFacts.ascii_lawful|].
  apply (normalize_name_ignores_case Unicode.ascii_database (chars "Milk BREAD")
           UnicodeFacts.ascii_lawful).
Defined.

Lemma squeeze_length (s : list ascii) (b : bool) :
  List.length (squeeze b s) <= List.length s.
Proof.
  revert b. induction s as [|c s IH]; intros b; [simpl; lia|].
  cbn [squeeze]. destruct (is_space c); [destruct b|]; cbn [List.length];
    [specialize (IH true)|specialize (IH true)|specialize (IH false)]; lia.
Qed.

Lemma rstrip_length (s : list ascii) : List.length (rstrip s) <= List.length s.
Proof.
  induction s as [|c s IH]; [simpl; lia|].
  cbn [rstrip]. destruct (rstrip s) as [|x r].
  - destruct (is_space c); simpl; lia.
  - cbn [List.length] in *. lia.
Qed.

(** X10: normalizing never makes an ASCII name longer. *)
Theorem normalize_name_length (name : string) :
  ascii_text name = true ->
  String.length (normalize_name name) <= String.length name.
Proof.
  intros _.
  assert (Hlen : forall s : string, String.length s = List.length (chars s)).
  { intros s. induction s as [|c s IH]; [reflexivity|]. simpl. rewrite IH. reflexivity. }
  rewrite !Hlen, normalize_name_passes_eq. unfold passes, strip.
  pose proof (rstrip_length (lstrip (squeeze false (filter keep (lower (chars name)))))).
  pose proof (skip_length is_space (squeeze false (filter keep (lower (chars name))))).
  pose proof (squeeze_length (filter keep (lower (chars name))) false).
  pose proof (filter_length_le keep (lower (chars name))).
  unfold lstrip in *. unfold lower in *. rewrite length_map in *. lia.
Qed.

Lemma normalize_name_length_witness :
  ascii_text "  Brown   Bread (400 g)  " = true
  /\ String.length (normalize_name "  Brown   Bread (400 g)  ")
     <= String.length "  Brown   Bread (400 g)  ".
Proof.
  split; [reflexivity|].
  apply (normalize_name_length "  Brown   Bread (400 g)  "). reflexivity.
Defined.

(** ** More on [get_best_deals] *)

Lemma insert_desc_perm (x : ProductMatch.t) (l : list ProductMatch.t) :
  Permutation (x :: l) (insert_desc x l).
Proof.
  induction l as [|y l IH]; [apply Permutation_refl|].
  cbn [insert_desc]. destruct (Qltb _ _); [|apply Permutation_refl].
  eapply perm_trans; [apply perm_swap|]. apply perm_skip, IH.
Qed.

Lemma sorted_perm (l : list ProductMatch.t) :
  Permutation l (sorted_by_savings_desc l).
Proof.
  induction l as [|x l IH]; [apply perm_nil|].
  cbn [sorted_by_savings_desc fold_right]. fold (sorted_by_savings_desc l).
  eapply perm_trans; [apply perm_skip, IH|apply insert_desc_perm].
Qed.

Lemma sorted_app_inv (a b : list ProductMatch.t) :
  StronglySorted not_below (a ++ b) ->
  forall x y, In x a -> In y b -> not_below x y.
Proof.
  induction a as [|z a IH]; intros H x y Hx Hy; [destruct Hx|].
  cbn [app] in H. apply StronglySorted_inv in H. destruct H as [Hs Hz].
  destruct Hx as [<-|Hx].
  - rewrite Forall_forall in Hz. apply Hz, in_or_app. right. exact Hy.
  - apply (IH Hs x y Hx Hy).
Qed.

Lemma sorted_fixed (l : list ProductMatch.t) :
  StronglySorted not_below l -> sorted_by_savings_desc l = l.
Proof.
  induction 1 as [|x l Hl IH Hx]; [reflexivity|].
  cbn [sorted_by_savings_desc fold_right]. fold (sorted_by_savings_desc l).
  rewrite IH. destruct l as [|y l]; [reflexivity|].
  cbn [insert_desc].
  assert (E : Qltb (ProductMatch.savings x) (ProductMatch.savings y) = false).
  { apply Forall_inv in Hx. unfold not_below in Hx.
    destruct (Qltb _ _) eqn:E; [|reflexivity].
    apply Qltb_lt in E. exfalso. apply (Qlt_not_le _ _ E Hx). }
  rewrite E. reflexivity.
Qed.

(** X11: the records that are returned are the best ones, for every top_n:
    the input is the result together with the records left out, and no
    record left out saves more than a record of the result. *)
Theorem get_best_deals_are_best (matches : list ProductMatch.t) (top_n : Z) :
  exists left_out : list ProductMatch.t,
    Permutation matches (get_best_deals matches top_n ++ left_out)
    /\ forall m m', In m (get_best_deals matches top_n) -> In m' left_out ->
         (ProductMatch.savings m' <= ProductMatch.savings m)%Q.
Proof.
  unfold get_best_deals.
  destruct (slice_to_prefix (sorted_by_savings_desc matches) top_n) as [k ->].
  exists (skipn k (sorted_by_savings_desc matches)). split.
  - rewrite firstn_skipn. apply sorted_perm.
  - apply sorted_app_inv. rewrite firstn_skipn. apply sorted_sorted.
Qed.

(** X12: for a top_n that is not negative, ranking the result again or
    slicing it again to top_n changes nothing; the [best_deals[:10]] of the
    compare handler is such a second slice. *)
Theorem get_best_deals_again (matches : list ProductMatch.t) (top_n : Z) :
  (0 <= top_n)%Z ->
  get_best_deals (get_best_deals matches top_n) top_n = get_best_deals matches top_n
  /\ slice_to (get_best_deals matches top_n) top_n = get_best_deals matches top_n.
Proof.
  intros Hn.
  assert (Hslice : slice_to (get_best_deals matches top_n) top_n
                   = get_best_deals matches top_n).
  { unfold get_best_deals, slice_to.
    assert (E : (0 <=? top_n)%Z = true) by (apply Z.leb_le, Hn). rewrite E.
    apply firstn_all2. rewrite length_firstn. lia. }
  split; [|exact Hslice].
  unfold get_best_deals at 1.
  rewrite sorted_fixed; [exact Hslice|].
  apply get_best_deals_sorted_stable.
Qed.

Lemma get_best_deals_again_witness :
  (0 <= 2)%Z
  /\ get_best_deals (get_best_deals three_deals 2) 2 = get_best_deals three_deals 2
  /\ slice_to (get_best_deals three_deals 2) 2 = get_best_deals three_deals 2.
Proof.
  split; [lia|]. apply (get_best_deals_again three_deals 2). lia.
Defined.

(** X13: with a top_n of at least the number of matches nothing is left
    out: the result is the whole input, reordered. *)
Theorem get_best_deals_all (matches : list ProductMatch.t) (top_n : Z) :
  (Z.of_nat (List.length matches) <= top_n)%Z ->
  Permutation matches (get_best_deals matches top_n)
  /\ get_best_deals matches top_n = sorted_by_savings_desc matches.
Proof.
  intros Hn.
  assert (E : get_best_deals matches top_n = sorted_by_savings_desc matches).
  { unfold get_best_deals, slice_to.
    assert (E : (0 <=? top_n)%Z = true) by (apply Z.leb_le; lia). rewrite E.
    apply firstn_all2. rewrite sorted_length. lia. }
  split; [rewrite E; apply sorted_perm|exact E].
Qed.

Lemma get_best_deals_all_witness :
  (Z.of_nat (List.length three_deals) <= 10)%Z
  /\ Permutation three_deals (get_best_deals three_deals 10)
  /\ get_best_deals three_deals 10 = sorted_by_savings_desc three_deals.
Proof.
  split; [simpl; lia|]. apply (get_best_deals_all three_deals 10). simpl; lia.
Defined.

(** * Statistics *)

(** ** Dictionaries *)

Lemma dict_set_fresh {V : Type} (d : list (string * V)) (k : string) (v : V) :
  ~ In k (map fst d) -> dict_set d k v = d ++ [(k, v)].
Proof.
  induction d as [|[k' v'] d IH]; intros H; [reflexivity|].
  cbn [dict_set app]. cbn [map fst In] in H.
  destruct (String.eqb_spec k' k) as [E|_]; [exfalso; apply H; left; exact E|].
  rewrite IH; [reflexivity|]. intros Hin. apply H. right. exact Hin.
Qed.

Lemma unique_NoDup (l : list string) : NoDup (pd.unique l).
Proof.
  induction l as [|x l IH]; [constructor|].
  cbn [pd.unique]. constructor.
  - intros H. apply filter_In in H. destruct H as [_ H].
    rewrite String.eqb_refl in H. discriminate.
  - apply NoDup_filter, IH.
Qed.

(** A loop that stores one value under each key of a list without
    repetitions builds the list of the items. *)
Lemma for_each_dict {V : Type} (entry : string -> V)
    (body : string -> list (string * V) -> result (list (string * V)))
    (keys : list string) :
  (forall k acc, In k keys -> body k acc = Ok (dict_set acc k (entry k))) ->
  NoDup keys ->
  forall acc,
    (forall k, In k keys -> ~ In k (map fst acc)) ->
    for_each keys acc body = Ok (acc ++ map (fun k => (k, entry k)) keys).
Proof.
  induction keys as [|k keys IH]; intros Hbody Hnd acc Hfresh.
  - simpl. rewrite app_nil_r. reflexivity.
  - cbn [for_each map]. rewrite (Hbody k acc (or_introl eq_refl)). cbn [bind].
    rewrite dict_set_fresh by (apply Hfresh; left; reflexivity).
    apply NoDup_cons_iff in Hnd. destruct Hnd as [Hk Hnd].
    rewrite IH.
    + rewrite <- app_assoc. reflexivity.
    + intros k' a Hk'. apply Hbody. right. exact Hk'.
    + exact Hnd.
    + intros k' Hk' Hin. rewrite map_app, in_app_iff in Hin. destruct Hin as [Hin|Hin].
      * apply (Hfresh k' (or_intror Hk') Hin).
      * cbn [map fst In] in Hin. destruct Hin as [<-|[]]. contradiction.
Qed.

(** ** [get_platform_stats] *)

Lemma get_platform_stats_run (df : pd.DataFrame) :
  pd.has_column df "platform" = true ->
  pd.has_column df "price_numeric" = true ->
  get_platform_stats df
  = Ok (map (fun platform =>
               (platform, platform_entry (platform_rows (pd.rows df) platform)))
          (pd.unique (map Product.platform (pd.rows df)))).
Proof.
  intros H1 H2. unfold get_platform_stats, pd.getitem. rewrite H1. cbn [bind].
  rewrite (for_each_dict
             (fun platform => platform_entry (platform_rows (pd.rows df) platform))).
  - reflexivity.
  - intros k acc _. unfold pd.has_column, pd.getitem_mask. cbn [pd.columns pd.rows].
    unfold pd.has_column in H2. rewrite H2. reflexivity.
  - apply unique_NoDup.
  - intros k _ [].
Qed.

(** ** Reductions of a column that is not empty *)

Lemma fold_min_spec (l : list Q) :
  forall acc : Q,
    let r := fold_left (fun m y => if Qle_bool y m then y else m) l acc in
    (r <= acc)%Q /\ (forall y, In y l -> (r <= y)%Q) /\ (r = acc \/ In r l).
Proof.
  induction l as [|x l IH]; intros acc; cbv zeta.
  - cbn. split; [apply Qle_refl|]. split; [intros y []|left; reflexivity].
  - cbn [fold_left].
    destruct (Qle_bool x acc) eqn:E.
    + apply Qle_bool_iff in E. destruct (IH x) as (H1 & H2 & H3). split; [|split].
      * eapply Qle_trans; [exact H1|exact E].
      * intros y [<-|Hy]; [exact H1|apply H2, Hy].
      * right. destruct H3 as [->|H3]; [left; reflexivity|right; exact H3].
    + assert (Hlt : (acc <= x)%Q).
      { destruct (Qlt_le_dec acc x) as [H|H]; [apply Qlt_le_weak, H|].
        apply Qle_bool_iff in H. congruence. }
      destruct (IH acc) as (H1 & H2 & H3). split; [exact H1|split].
      * intros y [<-|Hy]; [eapply Qle_trans; [exact H1|exact Hlt]|apply H2, Hy].
      * destruct H3 as [->|H3]; [left; reflexivity|right; right; exact H3].
Qed.

Lemma fold_max_spec (l : list Q) :
  forall acc : Q,
    let r := fold_left (fun m y => if Qle_bool m y then y else m) l acc in
    (acc <= r)%Q /\ (forall y, In y l -> (y <= r)%Q) /\ (r = acc \/ In r l).
Proof.
  induction l as [|x l IH]; intros acc; cbv zeta.
  - cbn. split; [apply Qle_refl|]. split; [intros y []|left; reflexivity].
  - cbn [fold_left].
    destruct (Qle_bool acc x) eqn:E.
    + apply Qle_bool_iff in E. destruct (IH x) as (H1 & H2 & H3). split; [|split].
      * eapply Qle_trans; [exact E|exact H1].
      * intros y [<-|Hy]; [exact H1|apply H2, Hy].
      * right. destruct H3 as [->|H3]; [left; reflexivity|right; exact H3].
    + assert (Hlt : (x <= acc)%Q).
      { destruct (Qlt_le_dec x acc) as [H|H]; [apply Qlt_le_weak, H|].
        apply Qle_bool_iff in H. congruence. }
      destruct (IH acc) as (H1 & H2 & H3). split; [exact H1|split].
      * intros y [<-|Hy]; [eapply Qle_trans; [exact Hlt|exact H1]|apply H2, Hy].
      * destruct H3 as [->|H3]; [left; reflexivity|right; right; exact H3].
Qed.

(** The minimum and the maximum of a column that is not empty are values of
    the column that bound it. *)
Lemma min_max_range (prices : list Q) :
  prices <> [] ->
  exists lo hi : Q,
    pd.min prices = pd.Num lo /\ pd.max prices = pd.Num hi
    /\ price_range prices lo hi.
Proof.
  destruct prices as [|x l]; [congruence|]. intros _.
  pose proof (fold_min_spec l x) as (A1 & A2 & A3).
  pose proof (fold_max_spec l x) as (B1 & B2 & B3).
  eexists. eexists. split; [reflexivity|]. split; [reflexivity|].
  split; [|split].
  - destruct A3 as [->|A3]; [left; reflexivity|right; exact A3].
  - destruct B3 as [->|B3]; [left; reflexivity|right; exact B3].
  - intros p [<-|Hp]; split; auto.
Qed.

Lemma platform_rows_not_empty (rows : list Product.t) (platform : string) :
  In platform (pd.unique (map Product.platform rows)) ->
  platform_rows rows platform <> [].
Proof.
  intros H. apply (proj1 (unique_In _ _)) in H. apply in_map_iff in H.
  destruct H as (r & Hp & Hr). intros E.
  assert (Hin : In r (platform_rows rows platform)) by (apply platform_rows_In; tauto).
  rewrite E in Hin. destruct Hin.
Qed.

(** X14: the statistics have one entry per platform of the frame, in the
    order in which the platforms first occur, and no key twice. *)
Theorem get_platform_stats_keys (df : pd.DataFrame) :
  pd.has_column df "platform" = true ->
  pd.has_column df "price_numeric" = true ->
  exists stats : list (string * PlatformStats.t),
    get_platform_stats df = Ok stats
    /\ map fst stats = pd.unique (map Product.platform (pd.rows df))
    /\ NoDup (map fst stats)
    /\ (forall platform, In platform (map fst stats)
                         <-> exists row, In row (pd.rows df)
                                         /\ Product.platform row = platform).
Proof.
  intros H1 H2. eexists. split; [apply get_platform_stats_run; assumption|].
  rewrite map_map. cbn [fst]. rewrite map_id.
  split; [reflexivity|]. split; [apply unique_NoDup|].
  intros platform. rewrite unique_In, in_map_iff.
  split; intros (r & A & B); exists r; tauto.
Qed.

(** X15: in the entry of a platform, the count is the number of rows of the
    platform and is not 0, and the minimum and the maximum are prices of
    rows of the platform that bound all of them: unlike in the overall
    statistics, neither is NaN. *)
Theorem get_platform_stats_entry (df : pd.DataFrame)
    (stats : list (string * PlatformStats.t)) (platform : string)
    (entry : PlatformStats.t) :
  pd.has_column df "price_numeric" = true ->
  get_platform_stats df = Ok stats ->
  In (platform, entry) stats ->
  let prices := map Product.price_numeric (platform_rows (pd.rows df) platform) in
  PlatformStats.total_products entry = List.length prices
  /\ 0 < PlatformStats.total_products entry
  /\ exists lo hi : Q,
       PlatformStats.min_price entry = pd.Num lo
       /\ PlatformStats.max_price entry = pd.Num hi
       /\ price_range prices lo hi.
Proof.
  intros H2 Hrun Hin. cbv zeta.
  assert (H1 : pd.has_column df "platform" = true).
  { unfold get_platform_stats, pd.getitem in Hrun.
    destruct (pd.has_column df "platform"); [reflexivity|discriminate]. }
  rewrite (get_platform_stats_run df H1 H2) in Hrun. injection Hrun as <-.
  apply in_map_iff in Hin. destruct Hin as (p & E & Hp). injection E as -> <-.
  pose proof (platform_rows_not_empty _ _ Hp) as Hne.
  set (rows := platform_rows (pd.rows df) platform) in *.
  assert (Hne' : map Product.price_numeric rows <> []).
  { destruct rows; [congruence|discriminate]. }
  cbn [platform_entry PlatformStats.total_products PlatformStats.min_price
       PlatformStats.max_price].
  rewrite length_map. split; [reflexivity|].
  split; [destruct rows; [congruence|simpl; lia]|].
  destruct (min_max_range _ Hne') as (lo & hi & Emin & Emax & Hrange).
  exists lo, hi. tauto.
Qed.

Lemma list_sum_cons (a : nat) (l : list nat) : list_sum (a :: l) = a + list_sum l.
Proof. reflexivity. Qed.

Lemma list_sum_indicator (k : string) (keys : list string) :
  NoDup keys ->
  list_sum (map (fun p => if String.eqb k p then 1 else 0) keys)
  = if in_dec string_dec k keys then 1 else 0.
Proof.
  induction 1 as [|x keys Hx Hnd IH]; [reflexivity|].
  cbn [map]. rewrite ?list_sum_cons. rewrite IH.
  destruct (String.eqb_spec k x) as [->|Hne].
  - destruct (in_dec string_dec x keys) as [Hin|_]; [contradiction|].
    destruct (in_dec string_dec x (x :: keys)) as [_|Hn]; [reflexivity|].
    exfalso. apply Hn. left. reflexivity.
  - destruct (in_dec string_dec k keys) as [Hin|Hn];
      destruct (in_dec string_dec k (x :: keys)) as [Hin'|Hn']; try reflexivity.
    + exfalso. apply Hn'. right. exact Hin.
    + exfalso. destruct Hin' as [E|Hin']; [congruence|contradiction].
Qed.

Lemma platform_rows_cons (x : Product.t) (rows : list Product.t) (platform : string) :
  List.length (platform_rows (x :: rows) platform)
  = (if String.eqb (Product.platform x) platform then 1 else 0)
    + List.length (platform_rows rows platform).
Proof.
  unfold platform_rows. cbn [map pd.eq_mask pd.select].
  fold (pd.eq_mask (map Product.platform rows) platform).
  destruct (String.eqb (Product.platform x) platform); reflexivity.
Qed.

Lemma group_sizes (rows : list Product.t) (keys : list string) :
  NoDup keys ->
  (forall row, In row rows -> In (Product.platform row) keys) ->
  list_sum (map (fun p => List.length (platform_rows rows p)) keys)
  = List.length rows.
Proof.
  intros Hnd. induction rows as [|x rows IH]; intros Hin.
  - induction keys as [|k keys IHk]; [reflexivity|].
    cbn [map]. rewrite ?list_sum_cons. apply NoDup_cons_iff in Hnd.
    rewrite IHk; [reflexivity|tauto|intros row []].
  - assert (E : map (fun p => List.length (platform_rows (x :: rows) p)) keys
                = map (fun p => (if String.eqb (Product.platform x) p then 1 else 0)
                                + List.length (platform_rows rows p)) keys).
    { apply map_ext. intros p. apply platform_rows_cons. }
    rewrite E.
    assert (Hsplit : forall (f g : string -> nat) (l : list string),
               list_sum (map (fun p => f p + g p) l)
               = list_sum (map f l) + list_sum (map g l)).
    { intros f g l. induction l as [|a l IHl]; [reflexivity|].
      cbn [map]. rewrite ?list_sum_cons. rewrite IHl. lia. }
    rewrite Hsplit, list_sum_indicator, IH by
      (try exact Hnd; intros row Hrow; apply Hin; right; exact Hrow).
    destruct (in_dec string_dec (Product.platform x) keys) as [_|Hn];
      [reflexivity|].
    exfalso. apply Hn, Hin. left. reflexivity.
Qed.

(** X16: every row is counted once: the counts of the platforms add up to
    the number of rows of the frame. *)
Theorem get_platform_stats_counts (df : pd.DataFrame)
    (stats : list (string * PlatformStats.t)) :
  pd.has_column df "price_numeric" = true ->
  get_platform_stats df = Ok stats ->
  list_sum (map (fun item => PlatformStats.total_products (snd item)) stats)
  = List.length (pd.rows df).
Proof.
  intros H2 Hrun.
  assert (H1 : pd.has_column df "platform" = true).
  { unfold get_platform_stats, pd.getitem in Hrun.
    destruct (pd.has_column df "platform"); [reflexivity|discriminate]. }
  rewrite (get_platform_stats_run df H1 H2) in Hrun. injection Hrun as <-.
  rewrite map_map. cbn [snd platform_entry PlatformStats.total_products].
  apply group_sizes; [apply unique_NoDup|].
  intros row Hrow. apply unique_In, in_map, Hrow.
Qed.

Lemma three_loaves_stats :
  get_platform_stats (pd.DataFrame_of three_loaves)
  = Ok [("Zepto"%string,
         PlatformStats.mk 2 (pd.Num (78 # 2)) (pd.Num 38) (pd.Num 40) (pd.Num (78 # 2)));
        ("Blinkit"%string,
         PlatformStats.mk 1 (pd.Num 55) (pd.Num 55) (pd.Num 55) (pd.Num 55))].
Proof. vm_compute. reflexivity. Qed.

Lemma get_platform_stats_keys_witness :
  (pd.has_column (pd.DataFrame_of three_loaves) "platform" = true
   /\ pd.has_column (pd.DataFrame_of three_loaves) "price_numeric" = true)
  /\ exists stats : list (string * PlatformStats.t),
       get_platform_stats (pd.DataFrame_of three_loaves) = Ok stats
       /\ map fst stats = pd.unique (map Product.platform three_loaves)
       /\ NoDup (map fst stats)
       /\ (forall platform, In platform (map fst stats)
                            <-> exists row, In row three_loaves
                                            /\ Product.platform row = platform).
Proof.
  split; [split; reflexivity|].
  apply (get_platform_stats_keys (pd.DataFrame_of three_loaves)); reflexivity.
Defined.

Lemma get_platform_stats_entry_witness :
  (pd.has_column (pd.DataFrame_of three_loaves) "price_numeric" = true
   /\ In ("Zepto"%string,
          PlatformStats.mk 2 (pd.Num (78 # 2)) (pd.Num 38) (pd.Num 40) (pd.Num (78 # 2)))
        [("Zepto"%string,
          PlatformStats.mk 2 (pd.Num (78 # 2)) (pd.Num 38) (pd.Num 40) (pd.Num (78 # 2)));
         ("Blinkit"%string,
          PlatformStats.mk 1 (pd.Num 55) (pd.Num 55) (pd.Num 55) (pd.Num 55))])
  /\ (2 = List.length (map Product.price_numeric (platform_rows three_loaves "Zepto"))
      /\ 0 < 2
      /\ exists lo hi : Q,
           pd.Num 38 = pd.Num lo
           /\ pd.Num 40 = pd.Num hi
           /\ price_range
                (map Product.price_numeric (platform_rows three_loaves "Zepto")) lo hi).
Proof.
  split; [split; [reflexivity|left; reflexivity]|].
  apply (get_platform_stats_entry (pd.DataFrame_of three_loaves) _ "Zepto"%string
           (PlatformStats.mk 2 (pd.Num (78 # 2)) (pd.Num 38) (pd.Num 40) (pd.Num (78 # 2)))
           eq_refl three_loaves_stats).
  left; reflexivity.
Defined.

Lemma get_platform_stats_counts_witness :
  pd.has_column (pd.DataFrame_of three_loaves) "price_numeric" = true
  /\ list_sum (map (fun item => PlatformStats.total_products (snd item))
                 [("Zepto"%string,
                   PlatformStats.mk 2 (pd.Num (78 # 2)) (pd.Num 38) (pd.Num 40)
                     (pd.Num (78 # 2)));
                  ("Blinkit"%string,
                   PlatformStats.mk 1 (pd.Num 55) (pd.Num 55) (pd.Num 55) (pd.Num 55))])
     = List.length three_loaves.
Proof.
  split; [reflexivity|].
  apply (get_platform_stats_counts (pd.DataFrame_of three_loaves) _ eq_refl
           three_loaves_stats).
Defined.

(** X17: a frame with the platform column and without the price column
    gives the empty dictionary when it has no row and raises
    [KeyError('price_numeric')] as soon as it has one; without the platform
    column, as for the frame of an empty list of records, the call raises
    [KeyError('platform')]. *)
Theorem get_platform_stats_missing_column (df : pd.DataFrame) :
  (pd.has_column df "platform" = false ->
     get_platform_stats df = Raise (KeyError "platform"))
  /\ (pd.has_column df "platform" = true -> pd.rows df = [] ->
        get_platform_stats df = Ok [])
  /\ (pd.has_column df "platform" = true ->
      pd.has_column df "price_numeric" = false -> pd.rows df <> [] ->
        get_platform_stats df = Raise (KeyError "price_numeric")).
Proof.
  unfold get_platform_stats, pd.getitem. split; [|split].
  - intros ->. reflexivity.
  - intros -> ->. reflexivity.
  - intros H1 H2 Hne. rewrite H1. cbn [bind].
    destruct (pd.rows df) as [|r rows]; [congruence|].
    cbn [map pd.unique for_each]. cbn [bind].
    unfold pd.has_column, pd.getitem_mask. cbn [pd.columns].
    unfold pd.has_column in H2. rewrite H2. reflexivity.
Qed.

Lemma get_platform_stats_missing_column_witness :
  (pd.has_column (pd.DataFrame_of []) "platform" = false
   /\ pd.has_column no_rows "platform" = true /\ pd.rows no_rows = []
   /\ pd.has_column (pd.mkDataFrame ["platform"%string] [one_loaf]) "platform" = true
   /\ pd.has_column (pd.mkDataFrame ["platform"%string] [one_loaf]) "price_numeric" = false)
  /\ get_platform_stats (pd.DataFrame_of []) = Raise (KeyError "platform")
  /\ get_platform_stats no_rows = Ok []
  /\ get_platform_stats (pd.mkDataFrame ["platform"%string] [one_loaf])
     = Raise (KeyError "price_numeric").
Proof.
  split; [repeat split; reflexivity|].
  split; [apply (proj1 (get_platform_stats_missing_column (pd.DataFrame_of []))); reflexivity|].
  split; [apply (proj1 (proj2 (get_platform_stats_missing_column no_rows))); reflexivity|].
  apply (proj2 (proj2 (get_platform_stats_missing_column
                         (pd.mkDataFrame ["platform"%string] [one_loaf]))));
    [reflexivity|reflexivity|discriminate].
Defined.

(** ** More on [calculate_statistics] *)

Lemma unique_length (l : list string) : List.length (pd.unique l) <= List.length l.
Proof.
  induction l as [|x l IH]; [simpl; lia|].
  cbn [pd.unique List.length].
  pose proof (filter_length_le (fun y => negb (String.eqb x y)) (pd.unique l)). lia.
Qed.

(** X18: on a frame with the three columns the counts of the overall
    statistics fit together: there are no more platforms or brands than
    products, at least one of each when there is a product, and as many
    platforms as [get_platform_stats] has entries. *)
Theorem calculate_statistics_counts (df : pd.DataFrame) :
  pd.has_column df "platform" = true ->
  pd.has_column df "brand" = true ->
  pd.has_column df "price_numeric" = true ->
  exists (stats : Statistics) (by_platform : list (string * PlatformStats.t)),
    calculate_statistics df = Ok stats
    /\ get_platform_stats df = Ok by_platform
    /\ total_products stats = List.length (pd.rows df)
    /\ total_platforms stats <= total_products stats
    /\ total_brands stats <= total_products stats
    /\ (pd.rows df <> [] -> 1 <= total_platforms stats /\ 1 <= total_brands stats)
    /\ List.length by_platform = total_platforms stats.
Proof.
  intros H1 H2 H3. eexists. eexists.
  split; [apply calculate_statistics_run; assumption|].
  split; [apply get_platform_stats_run; assumption|].
  cbn [total_products total_platforms total_brands]. unfold pd.nunique.
  split; [reflexivity|].
  split; [rewrite <- (length_map Product.platform (pd.rows df)); apply unique_length|].
  split; [rewrite <- (length_map Product.brand (pd.rows df)); apply unique_length|].
  split; [|rewrite length_map; reflexivity].
  intros Hne. destruct (pd.rows df) as [|r rows]; [congruence|].
  cbn [map pd.unique List.length]. lia.
Qed.

Lemma calculate_statistics_counts_witness :
  (pd.has_column (pd.DataFrame_of three_loaves) "platform" = true
   /\ pd.has_column (pd.DataFrame_of three_loaves) "brand" = true
   /\ pd.has_column (pd.DataFrame_of three_loaves) "price_numeric" = true)
  /\ exists (stats : Statistics) (by_platform : list (string * PlatformStats.t)),
       calculate_statistics (pd.DataFrame_of three_loaves) = Ok stats
       /\ get_platform_stats (pd.DataFrame_of three_loaves) = Ok by_platform
       /\ total_products stats = List.length three_loaves
       /\ total_platforms stats <= total_products stats
       /\ total_brands stats <= total_products stats
       /\ (three_loaves <> [] -> 1 <= total_platforms stats /\ 1 <= total_brands stats)
       /\ List.length by_platform = total_platforms stats.
Proof.
  split; [repeat split; reflexivity|].
  apply (calculate_statistics_counts (pd.DataFrame_of three_loaves)); reflexivity.
Defined.

(** X19: on a frame with the three columns and at least one row the
    minimum and the maximum are prices of the frame that bound all its
    prices; neither is NaN. *)
Theorem calculate_statistics_prices (df : pd.DataFrame) :
  pd.has_column df "platform" = true ->
  pd.has_column df "brand" = true ->
  pd.has_column df "price_numeric" = true ->
  pd.rows df <> [] ->
  exists (stats : Statistics) (lo hi : Q),
    calculate_statistics df = Ok stats
    /\ min_price stats = pd.Num lo
    /\ max_price stats = pd.Num hi
    /\ price_range (map Product.price_numeric (pd.rows df)) lo hi.
Proof.
  intros H1 H2 H3 Hne.
  assert (Hne' : map Product.price_numeric (pd.rows df) <> []).
  { destruct (pd.rows df); [congruence|discriminate]. }
  destruct (min_max_range _ Hne') as (lo & hi & Emin & Emax & Hrange).
  eexists. exists lo, hi.
  split; [apply calculate_statistics_run; assumption|].
  cbn [min_price max_price]. tauto.
Qed.

Lemma calculate_statistics_prices_witness :
  (pd.has_column (pd.DataFrame_of three_loaves) "platform" = true
   /\ pd.has_column (pd.DataFrame_of three_loaves) "brand" = true
   /\ pd.has_column (pd.DataFrame_of three_loaves) "price_numeric" = true
   /\ pd.rows (pd.DataFrame_of three_loaves) <> [])
  /\ exists (stats : Statistics) (lo hi : Q),
       calculate_statistics (pd.DataFrame_of three_loaves) = Ok stats
       /\ min_price stats = pd.Num lo
       /\ max_price stats = pd.Num hi
       /\ price_range (map Product.price_numeric three_loaves) lo hi.
Proof.
  split; [repeat split; try reflexivity; discriminate|].
  apply (calculate_statistics_prices (pd.DataFrame_of three_loaves));
    try reflexivity; discriminate.
Defined.

(** * The scraper's cleaning functions *)

(** ** The price pattern *)

Section TotalContinuation.

Context {A : Type}.
Variable k : list ascii -> @captures ascii -> option A.
Hypothesis k_total : forall s caps, k s caps <> None.

Lemma star_class_total (p : ascii -> bool) (s : list ascii) (caps : captures) :
  star_class p k s caps = k (skip p s) caps.
Proof.
  induction s as [|c s IH]; [reflexivity|].
  cbn [star_class skip]. destruct (p c); [|reflexivity].
  rewrite IH. destruct (k (skip p s) caps) eqn:E; [reflexivity|].
  exfalso. apply (k_total _ _ E).
Qed.

(** An optional separator with digits, before a continuation that never
    fails: the group is taken when it is there. *)
Lemma rmatch_opt_group (sep : ascii) (s : list ascii) (caps : captures) :
  rmatch (Opt (Cat (Chr sep) (Plus (Class is_digit)))) s caps k
  = k (group_rest sep s) caps.
Proof.
  unfold Opt, Plus, Chr. rewrite rmatch_alt, rmatch_cat, rmatch_class.
  destruct s as [|c s]; [reflexivity|].
  cbn [group_rest]. destruct (Ascii.eqb sep c); [|destruct s; reflexivity].
  rewrite rmatch_cat, rmatch_class. destruct s as [|e s]; [reflexivity|].
  destruct (is_digit e); [|reflexivity].
  cbn [andb]. rewrite rmatch_star_class, star_class_total.
  destruct (k (skip is_digit s) caps) eqn:E; [reflexivity|].
  exfalso. apply (k_total _ _ E).
Qed.

End TotalContinuation.

Lemma rmatch_price_number {A : Type} (k : list ascii -> captures -> option A)
    (s : list ascii) (caps : captures) :
  (forall s1 caps1, k s1 caps1 <> None) ->
  rmatch price_number s caps k
  = match s with
    | c :: s' => if is_digit c then k (number_rest s') caps else None
    | [] => None
    end.
Proof.
  intros Hk. unfold price_number, Plus.
  rewrite rmatch_cat, rmatch_cat, rmatch_class.
  destruct s as [|c s']; [reflexivity|]. destruct (is_digit c); [|reflexivity].
  assert (H2 : forall s1 caps1,
             rmatch (Opt (Cat (Chr dot) (Plus (Class is_digit)))) s1 caps1 k <> None).
  { intros s1 caps1. rewrite (rmatch_opt_group k Hk). apply Hk. }
  assert (H1 : forall s1 caps1,
             rmatch (Cat (Opt (Cat (Chr comma) (Plus (Class is_digit))))
                         (Opt (Cat (Chr dot) (Plus (Class is_digit))))) s1 caps1 k
             <> None).
  { intros s1 caps1. rewrite rmatch_cat.
    rewrite (rmatch_opt_group _ H2). apply H2. }
  rewrite rmatch_star_class, (star_class_total _ H1).
  rewrite rmatch_cat, (rmatch_opt_group _ H2), (rmatch_opt_group k Hk).
  reflexivity.
Qed.

Lemma take_skip (p : ascii -> bool) (s : list ascii) : take p s ++ skip p s = s.
Proof.
  induction s as [|c s IH]; [reflexivity|].
  cbn [take skip]. destruct (p c); [|reflexivity]. cbn [app]. rewrite IH. reflexivity.
Qed.

Lemma group_text_rest (sep : ascii) (s : list ascii) :
  group_text sep s ++ group_rest sep s = s.
Proof.
  destruct s as [|c [|e s]]; try reflexivity.
  cbn [group_text group_rest]. destruct (Ascii.eqb sep c && is_digit e); [|reflexivity].
  cbn [app]. rewrite take_skip. reflexivity.
Qed.

Lemma number_text_rest (s : list ascii) : number_text s ++ number_rest s = s.
Proof.
  unfold number_text, number_rest. cbv zeta.
  rewrite <- !app_assoc, group_text_rest, group_text_rest. apply take_skip.
Qed.

Lemma price_group_spec (s : list ascii) (caps : captures) :
  price_group s caps
  = match s with
    | c :: s' =>
        if is_digit c
        then Some (number_rest s', (1, c :: number_text s') :: caps)
        else None
    | [] => None
    end.
Proof.
  unfold price_group. rewrite rmatch_group, rmatch_price_number by discriminate.
  destruct s as [|c s']; [reflexivity|]. destruct (is_digit c); [|reflexivity].
  f_equal. f_equal. f_equal. f_equal.
  rewrite <- (number_text_rest s') at 1 3.
  apply (firstn_app_length (c :: number_text s') (number_rest s')).
Qed.

Lemma skip_split (p : ascii -> bool) (s : list ascii) :
  exists pre, s = pre ++ skip p s /\ forallb p pre = true.
Proof.
  exists (take p s). split; [symmetry; apply take_skip|].
  induction s as [|c s IH]; [reflexivity|].
  cbn [take]. destruct (p c) eqn:E; [|reflexivity].
  cbn [forallb]. rewrite E, IH. reflexivity.
Qed.

Lemma starts_with_split (a s : list ascii) :
  starts_with a s = true -> s = a ++ skipn (List.length a) s.
Proof.
  revert s. induction a as [|x a IH]; intros s H; [reflexivity|].
  destruct s as [|y s]; [discriminate|].
  cbn [starts_with] in H. apply andb_true_iff in H. destruct H as [E H].
  apply Ascii.eqb_eq in E. subst y. cbn [List.length skipn app].
  rewrite <- (IH s H). reflexivity.
Qed.

Lemma first_price_skip (pre s : list ascii) :
  forallb (fun c => negb (is_digit c)) pre = true ->
  first_price (pre ++ s) = first_price s.
Proof.
  induction pre as [|c pre IH]; intros H; [reflexivity|].
  cbn [forallb] in H. apply andb_true_iff in H. destruct H as [Hc Hpre].
  apply negb_true_iff in Hc. cbn [app first_price]. rewrite Hc. apply IH, Hpre.
Qed.

Lemma space_not_digit (c : ascii) : is_space c = true -> negb (is_digit c) = true.
Proof. all_chars c. Qed.

Lemma price_group_first (pre s : list ascii) (rest : list ascii) (caps : captures) :
  forallb (fun c => negb (is_digit c)) pre = true ->
  price_group s [] = Some (rest, caps) ->
  exists g, caps = [(1, g)] /\ first_price (pre ++ s) = Some g.
Proof.
  intros Hpre H. rewrite price_group_spec in H.
  destruct s as [|c s']; [discriminate|].
  destruct (is_digit c) eqn:E; [|discriminate].
  injection H as _ <-. eexists. split; [reflexivity|].
  rewrite (first_price_skip _ _ Hpre). cbn [first_price]. rewrite E. reflexivity.
Qed.

(** [re.match] of the price pattern: the sign when it is there, whitespace,
    and the number. *)
Lemma re_match_price (s : list ascii) :
  re_match price_re s
  = match (if starts_with rupee s
           then price_group (lstrip (skipn 3 s)) [] else None) with
    | Some r => Some r
    | None => price_group (lstrip s) []
    end.
Proof.
  unfold re_match, price_re, Opt.
  rewrite rmatch_cat, rmatch_alt, rmatch_lit.
  assert (Hws : forall s1 caps1,
             rmatch (Cat (Star (Class is_space)) (Group 1 price_number)) s1 caps1
               (fun rest caps => Some (rest, caps))
             = price_group (lstrip s1) caps1).
  { intros s1 caps1. rewrite rmatch_cat, rmatch_star_class, star_class_greedy.
    - reflexivity.
    - intros c s2 caps2 Hc. fold (price_group (c :: s2) caps2).
      rewrite price_group_spec.
      apply space_not_digit in Hc. apply negb_true_iff in Hc. rewrite Hc. reflexivity. }
  change (rmatch Eps s []
            (fun s1 caps1 =>
               rmatch (Cat (Star (Class is_space)) (Group 1 price_number)) s1 caps1
                 (fun rest caps => Some (rest, caps))))
    with (rmatch (Cat (Star (Class is_space)) (Group 1 price_number)) s []
            (fun rest caps => Some (rest, caps))).
  rewrite !Hws. reflexivity.
Qed.

(** [re.search] of the price pattern finds the number that starts at the
    first digit of the text. *)
Lemma re_search_price (s : list ascii) :
  re_search price_re s = option_map (fun g => [(1, g)]) (first_price s).
Proof.
  induction s as [|c s IH].
  - reflexivity.
  - cbn [re_search]. rewrite re_match_price.
    assert (Hvia : forall pre u rest caps,
               c :: s = pre ++ u ->
               forallb (fun c => negb (is_digit c)) pre = true ->
               price_group u [] = Some (rest, caps) ->
               Some caps = option_map (fun g => [(1, g)]) (first_price (c :: s))).
    { intros pre u rest caps E Hpre H.
      destruct (price_group_first pre u rest caps Hpre H) as (g & -> & Hg).
      rewrite E, Hg. reflexivity. }
    destruct (starts_with rupee (c :: s)) eqn:Er.
    + destruct (price_group (lstrip (skipn 3 (c :: s))) []) as [[rest caps]|] eqn:E1.
      * destruct (skip_split is_space (skipn 3 (c :: s))) as (sp & Esp & Hsp).
        apply (Hvia (rupee ++ sp) (lstrip (skipn 3 (c :: s))) rest caps);
          [| |exact E1].
        -- rewrite <- app_assoc. unfold lstrip. rewrite <- Esp.
           apply (starts_with_split rupee (c :: s) Er).
        -- rewrite forallb_app. apply andb_true_iff. split; [reflexivity|].
           apply (forallb_impl _ _ _ space_not_digit Hsp).
      * destruct (price_group (lstrip (c :: s)) []) as [[rest caps]|] eqn:E2.
        -- destruct (skip_split is_space (c :: s)) as (sp & Esp & Hsp).
           apply (Hvia sp (lstrip (c :: s)) rest caps Esp); [|exact E2].
           apply (forallb_impl _ _ _ space_not_digit Hsp).
        -- rewrite IH. cbn [first_price].
           destruct (is_digit c) eqn:Ec; [|reflexivity].
           exfalso. rewrite price_group_spec in E2. unfold lstrip in E2.
           cbn [skip] in E2. rewrite (digit_not_space c Ec), Ec in E2. discriminate.
    + destruct (price_group (lstrip (c :: s)) []) as [[rest caps]|] eqn:E2.
      * destruct (skip_split is_space (c :: s)) as (sp & Esp & Hsp).
        apply (Hvia sp (lstrip (c :: s)) rest caps Esp); [|exact E2].
        apply (forallb_impl _ _ _ space_not_digit Hsp).
      * rewrite IH. cbn [first_price].
        destruct (is_digit c) eqn:Ec; [|reflexivity].
        exfalso. rewrite price_group_spec in E2. unfold lstrip in E2.
        cbn [skip] in E2. rewrite (digit_not_space c Ec), Ec in E2. discriminate.
Qed.


(** ** [clean_price] *)

Lemma clean_price_first (price_text : string) :
  clean_price price_text
  = if String.eqb price_text EmptyString then Some 0%Q
    else match first_price (chars price_text) with
         | Some g => float_of_literal (remove_commas g)
         | None => Some 0%Q
         end.
Proof.
  unfold clean_price. rewrite re_search_price.
  destruct (first_price (chars price_text)); reflexivity.
Qed.

Lemma take_app (p : ascii -> bool) (w s : list ascii) :
  forallb p w = true ->
  match s with c :: _ => p c | [] => false end = false ->
  take p (w ++ s) = w /\ skip p (w ++ s) = s.
Proof.
  intros Hw Hs. induction w as [|c w IH].
  - cbn [app]. destruct s as [|c s]; [split; reflexivity|].
    cbn [take skip]. rewrite Hs. split; reflexivity.
  - cbn [forallb] in Hw. apply andb_true_iff in Hw. destruct Hw as [Hc Hw].
    cbn [app take skip]. rewrite Hc. destruct (IH Hw) as [-> ->]. split; reflexivity.
Qed.

Lemma take_all (p : ascii -> bool) (s : list ascii) : forallb p (take p s) = true.
Proof.
  induction s as [|c s IH]; [reflexivity|].
  cbn [take]. destruct (p c) eqn:E; [|reflexivity].
  cbn [forallb]. rewrite E. exact IH.
Qed.

Lemma digit_not_comma (c : ascii) : is_digit c = true -> Ascii.eqb comma c = false.
Proof. all_chars c. Qed.

Lemma remove_commas_digits (l : list ascii) :
  forallb is_digit l = true -> remove_commas l = l.
Proof.
  induction l as [|c l IH]; [reflexivity|].
  cbn [forallb]. intros H. apply andb_true_iff in H. destruct H as [Hc Hl].
  unfold remove_commas. cbn [filter]. rewrite (digit_not_comma c Hc). cbn [negb].
  fold (remove_commas l). rewrite (IH Hl). reflexivity.
Qed.

Lemma remove_commas_app (a b : list ascii) :
  remove_commas (a ++ b) = remove_commas a ++ remove_commas b.
Proof. apply filter_app. Qed.

Lemma digits_spec (l : list ascii) :
  digits l = true <-> l <> [] /\ forallb is_digit l = true.
Proof.
  unfold digits. rewrite andb_true_iff, negb_true_iff, Nat.eqb_neq.
  destruct l; cbn [List.length]; intuition (try discriminate; try congruence; try lia).
Qed.

(** [float] on a written number without commas. *)
Lemma float_of_literal_written (whole : list ascii) (frac : option (list ascii)) :
  digits whole = true -> opt_digits frac = true ->
  float_of_literal (written whole None frac) = Some (literal_value whole frac).
Proof.
  intros Hw Hf. apply digits_spec in Hw. destruct Hw as [Hne Hw].
  unfold written, float_of_literal. cbn [after app].
  destruct frac as [f|]; cbn [after literal_value].
  - destruct (take_app is_digit whole (dot :: f) Hw eq_refl) as [-> ->].
    destruct whole as [|c whole]; [congruence|].
    cbn [opt_digits] in Hf. unfold digits in Hf.
    rewrite Ascii.eqb_refl. cbn [andb]. rewrite Hf. reflexivity.
  - rewrite app_nil_r.
    destruct (take_app is_digit whole [] Hw eq_refl) as [E1 E2].
    rewrite app_nil_r in E1, E2. rewrite E1, E2.
    destruct whole as [|c whole]; [congruence|]. reflexivity.
Qed.

Lemma group_text_none (sep : ascii) (s : list ascii) :
  starts_group sep s = false -> group_text sep s = [] /\ group_rest sep s = s.
Proof.
  destruct s as [|c [|e s]]; try (split; reflexivity).
  cbn [starts_group group_text group_rest]. intros ->. split; reflexivity.
Qed.

Lemma group_text_some (sep : ascii) (g s : list ascii) :
  digits g = true -> starts_digit s = false ->
  group_text sep (sep :: g ++ s) = sep :: g /\ group_rest sep (sep :: g ++ s) = s.
Proof.
  intros Hg Hs. apply digits_spec in Hg. destruct Hg as [Hne Hg].
  destruct g as [|e g]; [congruence|].
  cbn [forallb] in Hg. apply andb_true_iff in Hg. destruct Hg as [He Hg].
  cbn [app group_text group_rest]. rewrite Ascii.eqb_refl, He. cbn [andb].
  destruct (take_app is_digit g s Hg Hs) as [-> ->]. split; reflexivity.
Qed.

(** The number the price pattern captures, when it is there: digits, with
    one group after a comma and one after a dot. *)
Lemma number_text_written (c : ascii) (s : list ascii) :
  is_digit c = true ->
  exists whole grp frac,
    c :: number_text s = written whole grp frac
    /\ digits whole = true /\ opt_digits grp = true /\ opt_digits frac = true.
Proof.
  intros Hc. unfold number_text. cbv zeta.
  set (t1 := skip is_digit s). set (t2 := group_rest comma t1).
  assert (Hgroup : forall sep t, exists o,
             group_text sep t = after sep o /\ opt_digits o = true).
  { intros sep t. destruct t as [|x [|e t]];
      try (exists None; split; reflexivity).
    cbn [group_text]. destruct (Ascii.eqb sep x && is_digit e) eqn:E.
    - apply andb_true_iff in E. destruct E as [Ex Ee].
      apply Ascii.eqb_eq in Ex. subst x.
      exists (Some (e :: take is_digit t)). split; [reflexivity|].
      cbn [opt_digits]. unfold digits. cbn [List.length Nat.eqb negb forallb andb].
      rewrite Ee, take_all. reflexivity.
    - exists None. split; reflexivity. }
  destruct (Hgroup comma t1) as (grp & -> & Hgrp).
  destruct (Hgroup dot t2) as (frac & -> & Hfrac).
  exists (c :: take is_digit s), grp, frac. repeat split; try assumption.
  unfold digits. cbn [List.length Nat.eqb negb forallb andb].
  rewrite Hc, take_all. reflexivity.
Qed.

Lemma digits_app (a b : list ascii) :
  digits a = true -> forallb is_digit b = true -> digits (a ++ b) = true.
Proof.
  intros Ha Hb. apply digits_spec in Ha. destruct Ha as [Hne Ha].
  apply digits_spec. split.
  - destruct a; [congruence|discriminate].
  - rewrite forallb_app, Ha, Hb. reflexivity.
Qed.

Lemma opt_digits_all (o : option (list ascii)) :
  opt_digits o = true -> forallb is_digit (or_empty o) = true.
Proof.
  destruct o as [l|]; [|reflexivity].
  cbn [opt_digits or_empty]. intros H. apply digits_spec in H. apply H.
Qed.

(** Without its comma, a written price is a literal [float] reads. *)
Lemma remove_commas_written (whole : list ascii) (grp frac : option (list ascii)) :
  digits whole = true -> opt_digits grp = true -> opt_digits frac = true ->
  remove_commas (written whole grp frac) = written (whole ++ or_empty grp) None frac.
Proof.
  intros Hw Hg Hf. unfold written. cbn [after app].
  rewrite !remove_commas_app, <- app_assoc.
  apply digits_spec in Hw. rewrite (remove_commas_digits whole (proj2 Hw)).
  f_equal. f_equal.
  - destruct grp as [g|]; [|reflexivity].
    cbn [after or_empty]. unfold remove_commas. cbn [filter].
    rewrite Ascii.eqb_refl. cbn [negb]. apply remove_commas_digits.
    apply (opt_digits_all (Some g) Hg).
  - destruct frac as [f|]; [|reflexivity].
    cbn [after]. unfold remove_commas. cbn [filter].
    change (Ascii.eqb comma dot) with false. cbn [negb]. f_equal.
    apply remove_commas_digits. apply (opt_digits_all (Some f) Hf).
Qed.

Lemma digits_value_nonneg (whole : list ascii) (frac : option (list ascii)) :
  (0 <= literal_value whole frac)%Q.
Proof.
  assert (Hn : forall n : nat, (0 <= inject_Z (Z.of_nat n))%Q).
  { intros n. change 0%Q with (inject_Z 0). rewrite <- Zle_Qle. lia. }
  destruct frac as [f|]; cbn [literal_value]; [|apply Hn].
  assert (H10 : (0 < inject_Z (10 ^ Z.of_nat (List.length f)))%Q).
  { change 0%Q with (inject_Z 0). rewrite <- Zlt_Qlt. apply Z.pow_pos_nonneg; lia. }
  assert (Hq : (0 <= inject_Z (Z.of_nat (digits_value f))
                     / inject_Z (10 ^ Z.of_nat (List.length f)))%Q).
  { apply Qle_shift_div_l; [exact H10|]. rewrite Qmult_0_l. apply Hn. }
  pose proof (Hn (digits_value whole)). lra.
Qed.


Lemma str_not_empty (c : ascii) (l : list ascii) :
  String.eqb (str (c :: l)) EmptyString = false.
Proof. reflexivity. Qed.

(** The price of a text in which a written price is the first thing with a
    digit. *)
Lemma first_price_written (pre whole : list ascii) (grp frac : option (list ascii))
    (rest : list ascii) :
  forallb (fun c => negb (is_digit c)) pre = true ->
  digits whole = true -> opt_digits grp = true -> opt_digits frac = true ->
  stops grp frac rest = true ->
  first_price (pre ++ written whole grp frac ++ rest)
  = Some (written whole grp frac).
Proof.
  intros Hpre Hw Hg Hf Hstop.
  rewrite (first_price_skip _ _ Hpre).
  unfold stops in Hstop. apply andb_true_iff in Hstop. destruct Hstop as [Hstop H3].
  apply andb_true_iff in Hstop. destruct Hstop as [H1 H2].
  apply negb_true_iff in H1.
  pose proof (proj1 (digits_spec whole) Hw) as [Hne Hall].
  destruct whole as [|c whole]; [congruence|].
  cbn [forallb] in Hall. apply andb_true_iff in Hall. destruct Hall as [Hc Hall].
  unfold written. rewrite <- !app_assoc. cbn [app first_price]. rewrite Hc.
  f_equal. f_equal. unfold number_text. cbv zeta.
  assert (Hfr : group_text dot (after dot frac ++ rest) = after dot frac
                /\ starts_digit (after dot frac ++ rest) = false
                /\ (is_some grp = true \/
                    starts_group comma (after dot frac ++ rest) = false)).
  { destruct frac as [f|]; cbn [after app].
    - split; [apply (group_text_some dot f rest Hf H1)|].
      split; [reflexivity|]. right.
      destruct f as [|x f]; [discriminate Hf|reflexivity].
    - cbn [is_some orb] in H2, H3. apply negb_true_iff in H2.
      split; [apply (group_text_none dot rest H2)|].
      split; [exact H1|].
      rewrite orb_false_r in H3. apply orb_true_iff in H3.
      destruct H3 as [H3|H3]; [left; exact H3|right].
      apply negb_true_iff in H3. exact H3. }
  destruct Hfr as (Hfr1 & Hfr2 & Hfr3).
  destruct grp as [g|]; cbn [after app].
  - assert (Hd : starts_digit (comma :: g ++ after dot frac ++ rest) = false)
      by reflexivity.
    destruct (take_app is_digit whole (comma :: g ++ after dot frac ++ rest) Hall Hd)
      as [-> ->].
    destruct (group_text_some comma g (after dot frac ++ rest) Hg Hfr2) as [-> ->].
    rewrite Hfr1. reflexivity.
  - destruct Hfr3 as [Hfr3|Hfr3]; [discriminate|].
    destruct (take_app is_digit whole (after dot frac ++ rest) Hall Hfr2) as [-> ->].
    destruct (group_text_none comma _ Hfr3) as [-> ->].
    rewrite Hfr1. reflexivity.
Qed.

Lemma clean_price_written (pre whole : list ascii) (grp frac : option (list ascii))
    (rest : list ascii) :
  forallb (fun c => negb (is_digit c)) pre = true ->
  digits whole = true -> opt_digits grp = true -> opt_digits frac = true ->
  stops grp frac rest = true ->
  clean_price (str (pre ++ written whole grp frac ++ rest))
  = Some (literal_value (whole ++ or_empty grp) frac).
Proof.
  intros Hpre Hw Hg Hf Hstop.
  rewrite clean_price_first, chars_str.
  rewrite (first_price_written pre whole grp frac rest Hpre Hw Hg Hf Hstop).
  assert (Hne : String.eqb (str (pre ++ written whole grp frac ++ rest)) EmptyString
                = false).
  { apply digits_spec in Hw. destruct Hw as [Hne _].
    destruct pre as [|p pre]; [|apply str_not_empty].
    destruct whole as [|c whole]; [congruence|]. apply str_not_empty. }
  rewrite Hne, (remove_commas_written whole grp frac Hw Hg Hf).
  apply float_of_literal_written; [|exact Hf].
  apply digits_app; [exact Hw|apply opt_digits_all, Hg].
Qed.

Lemma clean_price_total (price_text : string) :
  exists q, clean_price price_text = Some q /\ (0 <= q)%Q.
Proof.
  rewrite clean_price_first.
  destruct (String.eqb price_text EmptyString); [exists 0%Q; split; [reflexivity|lra]|].
  destruct (first_price (chars price_text)) as [g|] eqn:E;
    [|exists 0%Q; split; [reflexivity|lra]].
  assert (Hg : exists c s, is_digit c = true /\ g = c :: number_text s).
  { revert E. induction (chars price_text) as [|c s IH]; [discriminate|].
    cbn [first_price]. destruct (is_digit c) eqn:Ec; [|exact IH].
    intros [= <-]. exists c, s. split; [exact Ec|reflexivity]. }
  destruct Hg as (c & s & Hc & ->).
  destruct (number_text_written c s Hc) as (whole & grp & frac & -> & Hw & Hgr & Hf).
  rewrite (remove_commas_written whole grp frac Hw Hgr Hf).
  rewrite float_of_literal_written;
    [|apply digits_app; [exact Hw|apply opt_digits_all, Hgr]|exact Hf].
  eexists. split; [reflexivity|apply digits_value_nonneg].
Qed.



(** X21: in a text of ASCII characters and rupee signs, when the first
    thing with a digit is a price written as digits, then possibly a comma
    and digits, then possibly a dot and digits, and the text after it does
    not continue the number, [clean_price] returns [float] of that price
    written without its comma. *)
Theorem clean_price_value (pre whole : list ascii) (grp frac : option (list ascii))
    (rest : list ascii) :
  plain pre = true -> plain rest = true ->
  forallb (fun c => negb (is_digit c)) pre = true ->
  digits whole = true -> opt_digits grp = true -> opt_digits frac = true ->
  stops grp frac rest = true ->
  clean_price (str (pre ++ written whole grp frac ++ rest))
  = float_of_literal (written (whole ++ or_empty grp) None frac).
Proof.
  intros _ _ Hpre Hw Hg Hf Hstop.
  rewrite (clean_price_written pre whole grp frac rest Hpre Hw Hg Hf Hstop).
  symmetry. apply float_of_literal_written; [|exact Hf].
  apply digits_app; [exact Hw|apply opt_digits_all, Hg].
Qed.

Lemma clean_price_value_witness :
  (plain (rupee ++ chars " ") = true
   /\ plain (chars " each") = true
   /\ forallb (fun c => negb (is_digit c)) (rupee ++ chars " ") = true
   /\ digits (chars "1") = true
   /\ opt_digits (Some (chars "299")) = true
   /\ opt_digits (Some (chars "50")) = true
   /\ stops (Some (chars "299")) (Some (chars "50")) (chars " each") = true)
  /\ clean_price (str (rupee ++ chars " 1,299.50 each"))
     = float_of_literal (chars "1299.50").
Proof.
  split; [repeat split; reflexivity|].
  apply (clean_price_value (rupee ++ chars " ") (chars "1")
           (Some (chars "299")) (Some (chars "50")) (chars " each"));
    reflexivity.
Defined.




(** ** [extract_brand] *)

Lemma brand_loop_first (l : list string) (product_lower : list ascii) (b : string) :
  In b l -> contains (lower (chars b)) product_lower = true ->
  exists i r,
    brand_loop l product_lower = Some r
    /\ nth_error l i = Some r
    /\ contains (lower (chars r)) product_lower = true
    /\ forall j e, j < i -> nth_error l j = Some e ->
         contains (lower (chars e)) product_lower = false.
Proof.
  induction l as [|x l IH]; intros Hin Hb; [contradiction|].
  cbn [brand_loop].
  destruct (contains (lower (chars x)) product_lower) eqn:Ex.
  - exists 0, x. repeat split; try assumption. intros j e Hj. lia.
  - destruct Hin as [->|Hin]; [congruence|].
    destruct (IH Hin Hb) as (i & r & E & Hi & Hr & Hfirst).
    exists (S i), r. repeat split; try assumption.
    intros [|j] e Hj He.
    + cbn [nth_error] in He. injection He as <-. exact Ex.
    + apply (Hfirst j e); [lia|exact He].
Qed.

Lemma brand_loop_none (l : list string) (product_lower : list ascii) :
  (forall b, In b l -> contains (lower (chars b)) product_lower = false) ->
  brand_loop l product_lower = None.
Proof.
  induction l as [|x l IH]; intros H; [reflexivity|].
  cbn [brand_loop]. rewrite (H x (or_introl eq_refl)).
  apply IH. intros b Hb. apply H. right. exact Hb.
Qed.

Lemma brand_loop_In (l : list string) (product_lower : list ascii) (r : string) :
  brand_loop l product_lower = Some r -> In r l.
Proof.
  induction l as [|x l IH]; [discriminate|].
  cbn [brand_loop]. destruct (contains (lower (chars x)) product_lower).
  - intros [= ->]. left. reflexivity.
  - intros H. right. apply IH, H.
Qed.

Lemma starts_with_app (a s : list ascii) : starts_with a (a ++ s) = true.
Proof.
  induction a as [|x a IH]; [reflexivity|].
  cbn [app starts_with]. rewrite Ascii.eqb_refl, IH. reflexivity.
Qed.

Lemma contains_app (sub pre post : list ascii) :
  contains sub (pre ++ sub ++ post) = true.
Proof.
  induction pre as [|c pre IH].
  - cbn [app]. destruct (sub ++ post) eqn:E; cbn [contains];
      rewrite <- E, starts_with_app; reflexivity.
  - cbn [app contains]. rewrite IH. apply orb_true_r.
Qed.

Lemma split_from_head (s cur : list ascii) :
  cur <> [] ->
  exists tl, Fuzz.split_from cur s = (rev cur ++ take not_space s) :: tl.
Proof.
  revert cur. induction s as [|c s IH]; intros cur Hcur.
  - cbn [Fuzz.split_from take]. rewrite app_nil_r.
    destruct cur; [congruence|]. eexists. reflexivity.
  - cbn [Fuzz.split_from take]. unfold not_space at 1.
    destruct (is_space c); cbn [negb].
    + rewrite app_nil_r. destruct cur; [congruence|]. eexists. reflexivity.
    + destruct (IH (c :: cur)) as [tl E]; [discriminate|].
      exists tl. rewrite E. cbn [rev]. rewrite <- app_assoc. reflexivity.
Qed.

(** The first word of [split()] is the run of characters at the start of
    the text without its leading whitespace. *)
Lemma split_first (s : list ascii) :
  match lstrip s with
  | [] => Fuzz.split s = []
  | c :: _ =>
      is_space c = false
      /\ exists tl, Fuzz.split s = take not_space (lstrip s) :: tl
  end.
Proof.
  unfold Fuzz.split, lstrip. induction s as [|c s IH]; [reflexivity|].
  cbn [skip Fuzz.split_from]. destruct (is_space c) eqn:E; [exact IH|].
  split; [exact E|].
  destruct (split_from_head s [c]) as [tl Etl]; [discriminate|].
  exists tl. rewrite Etl. cbn [rev app take]. unfold not_space at 2.
  rewrite E. reflexivity.
Qed.

Lemma str_nil (l : list ascii) : str l = EmptyString -> l = [].
Proof. destruct l; [reflexivity|discriminate]. Qed.

(** X23: when the name contains a listed brand, in any letter case and
    anywhere in the name, the result is the first brand of the list that
    the lower-cased name contains: it is listed, it is contained, and no
    brand listed before it is. *)
Theorem extract_brand_listed (product_name brand : string) (pre v post : list ascii) :
  In brand brands ->
  chars product_name = pre ++ v ++ post ->
  lower v = lower (chars brand) ->
  exists i,
    nth_error brands i = Some (extract_brand product_name)
    /\ contains (lower (chars (extract_brand product_name)))
         (lower (chars product_name)) = true
    /\ forall j earlier, j < i -> nth_error brands j = Some earlier ->
         contains (lower (chars earlier)) (lower (chars product_name)) = false.
Proof.
  intros Hin Hname Hv.
  assert (Hc : contains (lower (chars brand)) (lower (chars product_name)) = true).
  { rewrite Hname. unfold lower. rewrite !map_app. fold (lower v). rewrite Hv.
    apply contains_app. }
  destruct (brand_loop_first brands _ brand Hin Hc) as (i & r & E & Hi & Hr & Hfirst).
  unfold extract_brand. cbv zeta. rewrite E. exists i. repeat split; assumption.
Qed.

Lemma extract_brand_listed_witness :
  (In "Harvest Gold"%string brands
   /\ chars "MODERN harvest gold bread" = chars "MODERN " ++ chars "harvest gold" ++ chars " bread"
   /\ lower (chars "harvest gold") = lower (chars "Harvest Gold"))
  /\ exists i,
       nth_error brands i = Some (extract_brand "MODERN harvest gold bread")
       /\ contains (lower (chars (extract_brand "MODERN harvest gold bread")))
            (lower (chars "MODERN harvest gold bread")) = true
       /\ forall j earlier, j < i -> nth_error brands j = Some earlier ->
            contains (lower (chars earlier))
              (lower (chars "MODERN harvest gold bread")) = false.
Proof.
  assert (H : In "Harvest Gold"%string brands) by (cbn; tauto).
  split; [split; [exact H|split; reflexivity]|].
  apply (extract_brand_listed "MODERN harvest gold bread" "Harvest Gold"
           (chars "MODERN ") (chars "harvest gold") (chars " bread") H);
    reflexivity.
Defined.

(** X24: when the name is ASCII text and its lower-cased form contains no
    listed brand, the result is the first word of the name, which is the
    name up to its first whitespace once leading whitespace is dropped; a
    name that is empty or all whitespace gives "Unknown". *)
Theorem extract_brand_unlisted (product_name : string) :
  ascii_text product_name = true ->
  (forall b, In b brands ->
     contains (lower (chars b)) (lower (chars product_name)) = false) ->
  extract_brand product_name
  = match lstrip (chars product_name) with
    | [] => "Unknown"%string
    | rest => str (take not_space rest)
    end.
Proof.
  intros _ H. unfold extract_brand. cbv zeta. rewrite (brand_loop_none _ _ H).
  pose proof (split_first (chars product_name)) as Hs.
  destruct (lstrip (chars product_name)) as [|c rest].
  - rewrite Hs. reflexivity.
  - destruct Hs as (_ & tl & ->). reflexivity.
Qed.

Lemma extract_brand_unlisted_witness :
  (ascii_text "  Amul sandwich bread" = true
   /\ forall b, In b brands ->
        contains (lower (chars b)) (lower (chars "  Amul sandwich bread")) = false)
  /\ extract_brand "  Amul sandwich bread" = "Amul"%string.
Proof.
  assert (H : forall b, In b brands ->
                contains (lower (chars b)) (lower (chars "  Amul sandwich bread")) = false).
  { intros b Hb. cbn in Hb.
    repeat (destruct Hb as [<-|Hb]; [reflexivity|]). contradiction. }
  split; [split; [reflexivity|exact H]|].
  apply (extract_brand_unlisted "  Amul sandwich bread" eq_refl H).
Defined.

Lemma extract_brand_nonempty (product_name : string) :
  extract_brand product_name <> EmptyString.
Proof.
  unfold extract_brand. cbv zeta.
  destruct (brand_loop brands (lower (chars product_name))) as [r|] eqn:E.
  - apply brand_loop_In in E. cbn in E.
    repeat (destruct E as [<-|E]; [discriminate|]). contradiction.
  - pose proof (split_first (chars product_name)) as Hs.
    destruct (lstrip (chars product_name)) as [|c rest].
    + rewrite Hs. discriminate.
    + destruct Hs as (Hc & tl & ->). cbn [take]. unfold not_space at 1.
      rewrite Hc. discriminate.
Qed.

(** X25: the brand is never the empty string, and it is a listed brand,
    a word of the name without whitespace in it, or "Unknown". *)
Theorem extract_brand_not_empty (product_name : string) :
  extract_brand product_name <> EmptyString
  /\ (In (extract_brand product_name) brands
      \/ forallb not_space (chars (extract_brand product_name)) = true).
Proof.
  split; [apply extract_brand_nonempty|].
  unfold extract_brand. cbv zeta.
  destruct (brand_loop brands (lower (chars product_name))) as [r|] eqn:E.
  - left. apply (brand_loop_In _ _ _ E).
  - right. pose proof (split_first (chars product_name)) as Hs.
    destruct (lstrip (chars product_name)) as [|c rest].
    + rewrite Hs. reflexivity.
    + destruct Hs as (Hc & tl & ->). rewrite chars_str. apply take_all.
Qed.


(** ** The records of a scrape *)

Lemma process_run (products : list Scraped.t) (acc : list Product.t) :
  exists out,
    process products acc = Some (acc ++ out) /\ Forall2 cleaned products out.
Proof.
  revert acc. induction products as [|product products IH]; intros acc.
  - exists []. rewrite app_nil_r. split; [reflexivity|constructor].
  - destruct (clean_price_total (Scraped.price product)) as (q & E & Hq).
    cbn [process]. rewrite E.
    match goal with
    | |- context [process products (acc ++ [?r])] =>
        destruct (IH (acc ++ [r])) as (out & Eo & HF); exists (r :: out)
    end.
    rewrite Eo, <- app_assoc. split; [reflexivity|].
    constructor; [|exact HF].
    unfold cleaned. cbn. repeat split; try assumption.
    apply extract_brand_nonempty.
Qed.

Lemma platform_rows_all (rows : list Product.t) (platform : string) :
  (forall row, In row rows -> Product.platform row = platform) ->
  platform_rows rows platform = rows.
Proof.
  unfold platform_rows. induction rows as [|x rows IH]; intros H; [reflexivity|].
  cbn [map pd.eq_mask pd.select].
  fold (pd.eq_mask (map Product.platform rows) platform).
  rewrite (H x (or_introl eq_refl)), String.eqb_refl. f_equal.
  apply IH. intros row Hrow. apply H. right. exact Hrow.
Qed.

Lemma unique_all (x : string) (l : list string) :
  (forall y, In y l -> y = x) -> l <> [] -> pd.unique l = [x].
Proof.
  intros H Hne. destruct l as [|y l]; [congruence|].
  cbn [pd.unique]. rewrite (H y (or_introl eq_refl)). f_equal.
  apply filter_all_equal. intros z Hz. apply (proj1 (unique_In z l)) in Hz.
  apply H. right. exact Hz.
Qed.

Lemma one_platform_no_match (df : pd.DataFrame) (threshold : Q) (platform : string) :
  pd.has_column df "platform" = true ->
  (forall row, In row (pd.rows df) -> Product.platform row = platform) ->
  match_products df threshold = Ok [].
Proof.
  intros Hcol Hone. unfold match_products, pd.getitem. rewrite Hcol. cbn [bind].
  assert (Hlen : List.length (pd.unique (map Product.platform (pd.rows df))) <= 1).
  { apply (unique_one platform). intros x Hx. apply in_map_iff in Hx.
    destruct Hx as (r & <- & Hr). apply Hone, Hr. }
  assert (E : (List.length (pd.unique (map Product.platform (pd.rows df))) <? 2) = true)
    by (apply Nat.ltb_lt; lia).
  rewrite E. reflexivity.
Qed.

Lemma Forall2_platform (products : list Scraped.t) (out : list Product.t) :
  Forall2 cleaned products out ->
  forall row, In row out -> Product.platform row = "Zepto"%string.
Proof.
  induction 1 as [|product r products out Hr _ IH]; intros row Hrow; [contradiction|].
  destruct Hrow as [<-|Hrow]; [apply Hr|apply IH, Hrow].
Qed.

(** X26: the cleaning loop of the scraper never fails.  It returns one
    record per product of the page, in the order of the page; each has the
    name, price, weight and image texts of its product, the platform
    "Zepto", a numeric price that is not negative and a brand that is not
    empty. *)
Theorem scrape_records (products : list Scraped.t) :
  exists processed_products,
    process products [] = Some processed_products
    /\ Forall2 cleaned products processed_products.
Proof. apply (process_run products []). Qed.

(** X27: the records of one scrape of the site cannot be compared with
    each other: whatever the threshold, matching them gives no record, and
    the statistics by platform have the one entry "Zepto", which counts
    all of them. *)
Theorem scrape_alone_no_match (products : list Scraped.t) (threshold : Q) :
  products <> [] ->
  exists processed_products entry,
    process products [] = Some processed_products
    /\ match_products (pd.DataFrame_of processed_products) threshold = Ok []
    /\ get_platform_stats (pd.DataFrame_of processed_products)
       = Ok [("Zepto"%string, entry)]
    /\ PlatformStats.total_products entry = List.length products.
Proof.
  intros Hne. destruct (process_run products []) as (out & E & HF).
  cbn [app] in E. pose proof (Forall2_platform products out HF) as Hz.
  pose proof (Forall2_length HF) as Hlen.
  destruct out as [|r out].
  { destruct products; [congruence|discriminate]. }
  exists (r :: out), (platform_entry (r :: out)).
  split; [exact E|]. split; [|split].
  - apply (one_platform_no_match _ threshold "Zepto"); [reflexivity|exact Hz].
  - rewrite get_platform_stats_run by reflexivity.
    change (pd.rows (pd.DataFrame_of (r :: out))) with (r :: out).
    rewrite (unique_all "Zepto" (map Product.platform (r :: out))).
    + cbn [map]. rewrite (platform_rows_all (r :: out) "Zepto" Hz). reflexivity.
    + intros y Hy. apply in_map_iff in Hy. destruct Hy as (x & <- & Hx).
      apply Hz, Hx.
    + discriminate.
  - cbn [platform_entry PlatformStats.total_products]. symmetry. exact Hlen.
Qed.

Lemma scrape_alone_no_match_witness :
  two_products <> []
  /\ exists processed_products entry,
       process two_products [] = Some processed_products
       /\ match_products (pd.DataFrame_of processed_products) 75%Q = Ok []
       /\ get_platform_stats (pd.DataFrame_of processed_products)
          = Ok [("Zepto"%string, entry)]
       /\ PlatformStats.total_products entry = List.length two_products.
Proof.
  assert (H : two_products <> []) by discriminate.
  split; [exact H|apply (scrape_alone_no_match two_products 75%Q H)].
Defined.

(** ** [compare] *)

Lemma slice_to_twice {A : Type} (l : list A) (n : Z) :
  (0 <= n)%Z -> slice_to (slice_to l n) n = slice_to l n.
Proof.
  intros Hn. unfold slice_to.
  assert (E : (0 <=? n)%Z = true) by (apply Z.leb_le; exact Hn).
  rewrite E, firstn_firstn, Nat.min_id. reflexivity.
Qed.

Lemma get_best_deals_length (matches : list ProductMatch.t) (top_n : Z) :
  (0 <= top_n)%Z ->
  List.length (get_best_deals matches top_n)
  = Nat.min (Z.to_nat top_n) (List.length matches).
Proof.
  intros Hn. unfold get_best_deals, slice_to. cbv zeta.
  assert (E : (0 <=? top_n)%Z = true) by (apply Z.leb_le; exact Hn).
  rewrite E, length_firstn, sorted_length. reflexivity.
Qed.

(** X28: up to the serialisation of the answer, which is not part of the
    model, the comparison raises no exception.  Without scraped data it
    hands the error to [jsonify], with status 400.  With data it hands over
    the number of records, the number of matches at threshold 75 and the
    dicts of the best deals, ten at most, which its own slice leaves as
    they are; the statistics count every record, and so do the counts by
    platform together. *)
Theorem compare_responds (scraped_data : list Product.t) :
  (scraped_data = [] -> compare scraped_data = Ok (BadRequest no_data))
  /\ (scraped_data <> [] ->
      exists matches stats platform_stats,
        match_products (pd.DataFrame_of scraped_data) 75%Q = Ok matches
        /\ compare scraped_data
           = Ok (Report (List.length scraped_data) (List.length matches)
                   (map to_dict (get_best_deals matches 10%Z)) stats platform_stats)
        /\ List.length (map to_dict (get_best_deals matches 10%Z))
           = Nat.min 10 (List.length matches)
        /\ total_products stats = List.length scraped_data
        /\ list_sum (map (fun item => PlatformStats.total_products (snd item))
                       platform_stats)
           = List.length scraped_data).
Proof.
  split; [intros ->; reflexivity|].
  intros Hne. destruct scraped_data as [|r data]; [congruence|].
  set (df := pd.DataFrame_of (r :: data)).
  exists (all_matches (pd.rows df) 75%Q). eexists. eexists.
  assert (Hm : match_products df 75%Q = Ok (all_matches (pd.rows df) 75%Q))
    by (apply match_products_run; reflexivity).
  split; [exact Hm|]. split; [|split; [|split]].
  - unfold compare. fold df. rewrite Hm. cbn [bind].
    rewrite (calculate_statistics_run df) by reflexivity. cbn [bind].
    rewrite (get_platform_stats_run df) by reflexivity. cbn [bind].
    unfold get_best_deals at 1. cbv zeta.
    rewrite slice_to_twice by lia. reflexivity.
  - rewrite length_map. apply (get_best_deals_length _ 10%Z). lia.
  - reflexivity.
  - rewrite map_map. cbn [snd platform_entry PlatformStats.total_products].
    apply group_sizes; [apply unique_NoDup|].
    intros row Hrow. apply unique_In, in_map, Hrow.
Qed.

Lemma compare_responds_witness :
  (three_loaves = [] -> compare three_loaves = Ok (BadRequest no_data))
  /\ (three_loaves <> [] ->
      exists matches stats platform_stats,
        match_products (pd.DataFrame_of three_loaves) 75%Q = Ok matches
        /\ compare three_loaves
           = Ok (Report (List.length three_loaves) (List.length matches)
                   (map to_dict (get_best_deals matches 10%Z)) stats platform_stats)
        /\ List.length (map to_dict (get_best_deals matches 10%Z))
           = Nat.min 10 (List.length matches)
        /\ total_products stats = List.length three_loaves
        /\ list_sum (map (fun item => PlatformStats.total_products (snd item))
                       platform_stats)
           = List.length three_loaves).
Proof. apply (compare_responds three_loaves). Defined.


(** ** [clean_weight], once more *)

Lemma first_weight_cons (c : ascii) (s : list ascii) :
  first_weight (c :: s)
  = match weight_here (c :: s) with
    | Some r => Some r
    | None => first_weight s
    end.
Proof. reflexivity. Qed.

(** What [after_number] skips is a number. *)
Lemma after_number_inv (s t : list ascii) :
  after_number s = Some t ->
  exists whole frac,
    s = numeral whole frac ++ t
    /\ is_digits whole = true
    /\ match frac with Some f => is_digits f = true | None => True end.
Proof.
  destruct s as [|c s0]; [discriminate|]. cbn [after_number].
  destruct (is_digit c) eqn:Hc; [|discriminate]. cbv zeta.
  pose proof (take_skip is_digit s0) as Hs0.
  assert (Hw : is_digits (c :: take is_digit s0) = true).
  { unfold is_digits. cbn [List.length Nat.eqb negb forallb andb].
    rewrite Hc, take_all. reflexivity. }
  assert (Hnone : c :: s0 = numeral (c :: take is_digit s0) None ++ skip is_digit s0).
  { unfold numeral. rewrite app_nil_r. cbn [app]. rewrite Hs0. reflexivity. }
  destruct (skip is_digit s0) as [|d [|e t']] eqn:E.
  - intros [= <-]. exists (c :: take is_digit s0), None. auto.
  - intros [= <-]. exists (c :: take is_digit s0), None. auto.
  - destruct (Ascii.eqb "." d && is_digit e) eqn:Ed.
    + intros [= <-]. apply andb_true_iff in Ed. destruct Ed as [Ed He].
      apply Ascii.eqb_eq in Ed. subst d.
      exists (c :: take is_digit s0), (Some (e :: take is_digit t')).
      split; [|split; [exact Hw|]].
      * unfold numeral. rewrite <- app_assoc. cbn [app].
        rewrite (take_skip is_digit t'), Hs0. reflexivity.
      * unfold is_digits. cbn [List.length Nat.eqb negb forallb andb].
        rewrite He, take_all. reflexivity.
    + intros [= <-]. exists (c :: take is_digit s0), None. auto.
Qed.

Lemma weight_here_inv (s value : list ascii) (unit : string) :
  weight_here s = Some (value, unit) ->
  (exists whole frac,
      value = numeral whole frac
      /\ is_digits whole = true
      /\ match frac with Some f => is_digits f = true | None => True end)
  /\ In unit unit_names.
Proof.
  unfold weight_here. destruct (after_number s) as [t|] eqn:Et; [|discriminate].
  destruct (unit_at (lstrip t)) as [u|] eqn:Eu; [|discriminate].
  intros [= <- <-]. split.
  - destruct (after_number_inv s t Et) as (whole & frac & -> & Hw & Hf).
    exists whole, frac. split; [apply firstn_app_length|auto].
  - unfold unit_at in Eu. apply find_some in Eu. apply Eu.
Qed.

Lemma first_weight_inv (s value : list ascii) (unit : string) :
  first_weight s = Some (value, unit) ->
  (exists whole frac,
      value = numeral whole frac
      /\ is_digits whole = true
      /\ match frac with Some f => is_digits f = true | None => True end)
  /\ In unit unit_names.
Proof.
  induction s as [|c s IH]; [discriminate|].
  rewrite first_weight_cons.
  destruct (weight_here (c :: s)) as [r|] eqn:E; [|exact IH].
  intros [= ->]. apply (weight_here_inv _ _ _ E).
Qed.

(** No weight is found in a number followed by "pc". *)
Lemma first_weight_pc (whole : list ascii) (frac : option (list ascii)) :
  forallb is_digit whole = true ->
  match frac with Some f => is_digits f = true | None => True end ->
  first_weight (numeral whole frac ++ chars "pc") = None.
Proof.
  assert (Hstep : forall c d fr,
             is_digit c = true -> forallb is_digit d = true ->
             match fr with Some f => is_digits f = true | None => True end ->
             weight_here (numeral (c :: d) fr ++ chars "pc") = None).
  { intros c d fr Hc Hd Hfr. unfold weight_here.
    rewrite (after_number_numeral (c :: d) fr (chars "pc")).
    - reflexivity.
    - unfold is_digits. cbn [List.length Nat.eqb negb forallb andb].
      rewrite Hc, Hd. reflexivity.
    - exact Hfr.
    - split; reflexivity. }
  assert (HA : forall d, forallb is_digit d = true ->
                 first_weight (numeral d None ++ chars "pc") = None).
  { induction d as [|c d IH]; intros Hd; [reflexivity|].
    cbn [forallb] in Hd. apply andb_true_iff in Hd. destruct Hd as [Hc Hd].
    pose proof (Hstep c d None Hc Hd I) as E.
    unfold numeral in *. rewrite <- app_assoc in *. cbn [app] in *.
    rewrite first_weight_cons, E. apply IH, Hd. }
  intros Hw Hf. destruct frac as [f|]; [|apply HA, Hw].
  induction whole as [|c d IH].
  - unfold numeral. cbn [app]. rewrite first_weight_cons.
    change (weight_here ("."%char :: f ++ chars "pc")) with (@None (list ascii * string)).
    unfold is_digits in Hf. apply andb_true_iff in Hf. destruct Hf as [_ Hf].
    specialize (HA f Hf). unfold numeral in HA. rewrite app_nil_r in HA. exact HA.
  - cbn [forallb] in Hw. apply andb_true_iff in Hw. destruct Hw as [Hc Hd].
    pose proof (Hstep c d (Some f) Hc Hd Hf) as E.
    specialize (IH Hd).
    unfold numeral in *. rewrite <- app_assoc in *. cbn [app] in *.
    rewrite first_weight_cons, E. exact IH.
Qed.

(** [clean_weight] on a text that is already in lower case. *)
Lemma clean_weight_lowered (text : list ascii) :
  lower text = text ->
  clean_weight (str text)
  = match first_weight text with
    | Some (value, unit) => canonical text value unit
    | None => str text
    end.
Proof.
  intros H. rewrite clean_weight_unfold. unfold clean_weight_scan.
  destruct (String.eqb_spec (str text) EmptyString) as [E|E].
  - apply str_nil in E. subst text. reflexivity.
  - rewrite chars_str, H. reflexivity.
Qed.

Lemma clean_weight_fixed (whole : list ascii) (frac : option (list ascii))
    (unit : string) :
  is_digits whole = true ->
  match frac with Some f => is_digits f = true | None => True end ->
  In unit ["g"; "kg"; "pc"]%string ->
  clean_weight (str (numeral whole frac ++ chars unit))
  = str (numeral whole frac ++ chars unit).
Proof.
  intros Hw Hf Hin. cbn [In] in Hin. destruct Hin as [<-|[<-|[<-|[]]]].
  - exact (clean_weight_units whole frac [] "g" [] Hw Hf eq_refl
             (or_introl eq_refl)).
  - exact (clean_weight_units whole frac [] "kg" [] Hw Hf eq_refl
             (or_intror (or_introl eq_refl))).
  - rewrite clean_weight_lowered.
    + rewrite first_weight_pc; [reflexivity| |exact Hf].
      unfold is_digits in Hw. apply andb_true_iff in Hw. apply Hw.
    + unfold lower. rewrite map_app. fold (lower (numeral whole frac)).
      rewrite (lower_numeral _ _ Hw Hf). reflexivity.
Qed.

(** X29: for an ASCII weight text, cleaning it twice gives what cleaning
    it once gives: a cleaned weight is left as it is. *)
Theorem clean_weight_idempotent (weight_text : string) :
  ascii_text weight_text = true ->
  clean_weight (clean_weight weight_text) = clean_weight weight_text.
Proof.
  intros _.
  rewrite (clean_weight_unfold weight_text). unfold clean_weight_scan.
  destruct (String.eqb weight_text EmptyString); [reflexivity|].
  cbv zeta.
  pose proof (lower_lower (chars weight_text)) as Hlow.
  set (text := lower (chars weight_text)) in *.
  pose proof (clean_weight_lowered text Hlow) as Hagain.
  destruct (first_weight text) as [[value unit]|] eqn:E; [|exact Hagain].
  destruct (first_weight_inv _ _ _ E) as ((whole & frac & -> & Hw & Hf) & Hin).
  unfold unit_names in Hin. cbn [In] in Hin.
  destruct Hin as [<-|[<-|[<-|[<-|[<-|[<-|[<-|[<-|[]]]]]]]]].
  - apply (clean_weight_fixed whole frac "g" Hw Hf). cbn; tauto.
  - apply (clean_weight_fixed whole frac "kg" Hw Hf). cbn; tauto.
  - exact Hagain.
  - exact Hagain.
  - apply (clean_weight_fixed whole frac "g" Hw Hf). cbn; tauto.
  - apply (clean_weight_fixed whole frac "g" Hw Hf). cbn; tauto.
  - apply (clean_weight_fixed whole frac "pc" Hw Hf). cbn; tauto.
  - apply (clean_weight_fixed whole frac "pc" Hw Hf). cbn; tauto.
Qed.

Lemma clean_weight_idempotent_witness :
  ascii_text "2.5 KG pack" = true
  /\ clean_weight (clean_weight "2.5 KG pack") = clean_weight "2.5 KG pack".
Proof.
  split; [reflexivity|].
  apply (clean_weight_idempotent "2.5 KG pack"). reflexivity.
Defined.


(** ** [find_cheapest_platform] *)

Lemma insert_key_perm (k : string) (l : list string) :
  Permutation (insert_key k l) (k :: l).
Proof.
  induction l as [|y l IH]; [reflexivity|].
  cbn [insert_key]. destruct (String.leb k y); [reflexivity|].
  rewrite IH. apply perm_swap.
Qed.

Lemma sort_keys_perm (l : list string) : Permutation (sort_keys l) l.
Proof.
  unfold sort_keys. induction l as [|y l IH]; [reflexivity|].
  cbn [fold_right]. rewrite insert_key_perm, IH. reflexivity.
Qed.

Lemma sort_keys_In (x : string) (l : list string) :
  In x (sort_keys l) <-> In x l.
Proof.
  split; apply Permutation_in; [|apply Permutation_sym]; apply sort_keys_perm.
Qed.

Lemma groupby_mean_run (df : pd.DataFrame) :
  pd.has_column df "platform" = true ->
  pd.has_column df "price_numeric" = true ->
  groupby_mean df
  = Ok (map (fun key => (key, platform_mean df key))
          (sort_keys (pd.unique (map Product.platform (pd.rows df))))).
Proof.
  intros H1 H2. unfold groupby_mean, pd.getitem. rewrite H1. cbn [bind].
  rewrite H2. reflexivity.
Qed.

Lemma platform_mean_number (df : pd.DataFrame) (row : Product.t) :
  In row (pd.rows df) -> is_number (platform_mean df (Product.platform row)).
Proof.
  intros Hrow. unfold platform_mean, is_number.
  assert (Hin : In row (platform_rows (pd.rows df) (Product.platform row)))
    by (apply platform_rows_In; tauto).
  destruct (platform_rows (pd.rows df) (Product.platform row)) as [|r l];
    [destruct Hin|].
  eexists. reflexivity.
Qed.

Lemma insert_mean_perm (x : string * pd.float) (l : list (string * pd.float)) :
  Permutation (insert_mean x l) (x :: l).
Proof.
  induction l as [|y l IH]; [reflexivity|].
  cbn [insert_mean]. destruct (mean_leb x y); [reflexivity|].
  rewrite IH. apply perm_swap.
Qed.

Lemma insertion_sort_perm (l : list (string * pd.float)) :
  Permutation (insertion_sort l) l.
Proof.
  unfold insertion_sort. induction l as [|x l IH]; [reflexivity|].
  cbn [fold_right]. rewrite insert_mean_perm, IH. reflexivity.
Qed.

Lemma insert_mean_sorted (x : string * pd.float) (l : list (string * pd.float)) :
  is_number (snd x) -> Forall (fun item => is_number (snd item)) l ->
  StronglySorted (fun a b => float_le (snd a) (snd b)) l ->
  StronglySorted (fun a b => float_le (snd a) (snd b)) (insert_mean x l).
Proof.
  intros [qx Hx] Hnum Hs. induction Hs as [|y l Hs IH Hy].
  - constructor; constructor.
  - inversion Hnum as [|? ? [qy Hqy] Hnum']; subst.
    cbn [insert_mean]. unfold mean_leb. rewrite Hx, Hqy.
    destruct (Qle_bool qx qy) eqn:E.
    + constructor; [constructor; assumption|].
      apply Qle_bool_iff in E. constructor.
      * unfold float_le. rewrite Hx, Hqy. exact E.
      * rewrite Forall_forall in Hy, Hnum' |- *. intros z Hz.
        specialize (Hy z Hz). destruct (Hnum' z Hz) as [qz Hqz].
        unfold float_le in *. rewrite Hx. rewrite Hqy, Hqz in Hy. rewrite Hqz.
        lra.
    + constructor; [apply IH, Hnum'|].
      rewrite Forall_forall. intros z Hz.
      apply (Permutation_in _ (insert_mean_perm x l)) in Hz.
      destruct Hz as [<-|Hz].
      * unfold float_le. rewrite Hx, Hqy.
        assert (Hn : ~ (qx <= qy)%Q).
        { intros Hle. apply Qle_bool_iff in Hle. congruence. }
        lra.
      * rewrite Forall_forall in Hy. apply Hy, Hz.
Qed.

Lemma insertion_sort_sorts : sorts insertion_sort.
Proof.
  split; [apply insertion_sort_perm|].
  intros l Hnum. unfold insertion_sort. induction Hnum as [|x l Hx Hnum IH].
  - constructor.
  - cbn [fold_right]. apply insert_mean_sorted; [exact Hx| |exact IH].
    rewrite Forall_forall in Hnum |- *. intros z Hz. apply Hnum.
    apply (Permutation_in _ (insertion_sort_perm l)). exact Hz.
Qed.

(** X30: on a frame with the two columns and at least one row the function
    returns, whatever order the sort leaves equal means in: the cheapest
    platform is a platform of the frame, the average price is the mean
    price of its rows, no platform of the frame has a lower mean, and all
    platforms lists every platform of the frame once.  With the columns and
    no row the call raises IndexError. *)
Theorem find_cheapest_platform_spec
    (sort_values : list (string * pd.float) -> list (string * pd.float))
    (df : pd.DataFrame) :
  sorts sort_values ->
  pd.has_column df "platform" = true ->
  pd.has_column df "price_numeric" = true ->
  (pd.rows df = [] -> find_cheapest_platform sort_values df = RaisesIndexError)
  /\ (pd.rows df <> [] ->
      exists r lowest,
        find_cheapest_platform sort_values df = Returns r
        /\ In (Cheapest.cheapest r) (map Product.platform (pd.rows df))
        /\ Cheapest.avg_price r = pd.Num lowest
        /\ platform_mean df (Cheapest.cheapest r) = pd.Num lowest
        /\ (forall row, In row (pd.rows df) ->
              exists avg, platform_mean df (Product.platform row) = pd.Num avg
                          /\ (lowest <= avg)%Q)
        /\ Permutation (map fst (Cheapest.all_platforms r))
             (pd.unique (map Product.platform (pd.rows df)))).
Proof.
  intros [Hperm Hsorted] H1 H2. unfold find_cheapest_platform.
  rewrite (groupby_mean_run df H1 H2). cbv zeta.
  set (keys := sort_keys (pd.unique (map Product.platform (pd.rows df)))).
  set (means := map (fun key => (key, platform_mean df key)) keys).
  assert (Hkeys : forall k, In k keys <-> In k (map Product.platform (pd.rows df))).
  { intros k. unfold keys. rewrite sort_keys_In. apply unique_In. }
  assert (Hmeans : forall item, In item means ->
                     In (fst item) (map Product.platform (pd.rows df))
                     /\ snd item = platform_mean df (fst item)).
  { intros item Hitem. apply in_map_iff in Hitem. destruct Hitem as (k & <- & Hk).
    split; [apply Hkeys, Hk|reflexivity]. }
  assert (Hnum : Forall (fun item => is_number (snd item)) means).
  { rewrite Forall_forall. intros item Hitem.
    destruct (Hmeans item Hitem) as [Hp ->].
    apply in_map_iff in Hp. destruct Hp as (row & <- & Hrow).
    apply platform_mean_number, Hrow. }
  specialize (Hsorted means Hnum). specialize (Hperm means).
  split.
  - intros Hrows.
    assert (E : means = []).
    { unfold means, keys. rewrite Hrows. reflexivity. }
    rewrite E in Hperm. apply Permutation_sym, Permutation_nil in Hperm.
    rewrite E, Hperm. reflexivity.
  - intros Hrows.
    destruct (sort_values means) as [|[index0 value0] tl] eqn:Es.
    { exfalso. apply Permutation_nil in Hperm.
      destruct (pd.rows df) as [|row rows] eqn:Er; [congruence|].
      assert (Hin : In (Product.platform row, platform_mean df (Product.platform row))
                      means).
      { apply in_map_iff. exists (Product.platform row). split; [reflexivity|].
        apply Hkeys. left. reflexivity. }
      rewrite Hperm in Hin. destruct Hin. }
    assert (H0 : In (index0, value0) means)
      by (apply (Permutation_in _ Hperm); left; reflexivity).
    destruct (Hmeans _ H0) as [Hp0 Hv0]. cbn [fst snd] in Hp0, Hv0.
    assert (Hn0 : is_number value0).
    { rewrite Forall_forall in Hnum. apply (Hnum _ H0). }
    destruct Hn0 as [lowest Hlow].
    exists {| Cheapest.cheapest := index0; Cheapest.avg_price := value0;
              Cheapest.all_platforms := (index0, value0) :: tl |}, lowest.
    cbn [Cheapest.cheapest Cheapest.avg_price Cheapest.all_platforms].
    split; [reflexivity|]. split; [exact Hp0|]. split; [exact Hlow|].
    split; [rewrite <- Hv0; exact Hlow|]. split.
    + intros row Hrow.
      destruct (platform_mean_number df row Hrow) as [avg Havg].
      exists avg. split; [exact Havg|].
      assert (Hin : In (Product.platform row, pd.Num avg) ((index0, value0) :: tl)).
      { apply (Permutation_in _ (Permutation_sym Hperm)). apply in_map_iff.
        exists (Product.platform row). rewrite Havg. split; [reflexivity|].
        apply Hkeys, in_map, Hrow. }
      destruct Hin as [E|Hin].
      * injection E as _ E. rewrite Hlow in E. injection E as <-. lra.
      * inversion Hsorted as [|? ? _ Hall]; subst.
        rewrite Forall_forall in Hall. specialize (Hall _ Hin).
        cbn [snd] in Hall. rewrite Hlow in Hall. exact Hall.
    + rewrite (Permutation_map fst Hperm). unfold means. rewrite map_map.
      cbn [fst]. rewrite map_id. unfold keys. apply sort_keys_perm.
Qed.


Lemma find_cheapest_platform_spec_witness :
  (sorts insertion_sort
   /\ pd.has_column (pd.DataFrame_of three_loaves) "platform" = true
   /\ pd.has_column (pd.DataFrame_of three_loaves) "price_numeric" = true)
  /\ (pd.rows (pd.DataFrame_of three_loaves) = [] ->
      find_cheapest_platform insertion_sort (pd.DataFrame_of three_loaves)
      = RaisesIndexError)
  /\ (pd.rows (pd.DataFrame_of three_loaves) <> [] ->
      exists r lowest,
        find_cheapest_platform insertion_sort (pd.DataFrame_of three_loaves)
        = Returns r
        /\ In (Cheapest.cheapest r)
             (map Product.platform (pd.rows (pd.DataFrame_of three_loaves)))
        /\ Cheapest.avg_price r = pd.Num lowest
        /\ platform_mean (pd.DataFrame_of three_loaves) (Cheapest.cheapest r)
           = pd.Num lowest
        /\ (forall row, In row (pd.rows (pd.DataFrame_of three_loaves)) ->
              exists avg,
                platform_mean (pd.DataFrame_of three_loaves) (Product.platform row)
                = pd.Num avg
                /\ (lowest <= avg)%Q)
        /\ Permutation (map fst (Cheapest.all_platforms r))
             (pd.unique
                (map Product.platform (pd.rows (pd.DataFrame_of three_loaves))))).
Proof.
  split; [split; [apply insertion_sort_sorts|split; reflexivity]|].
  apply (find_cheapest_platform_spec insertion_sort (pd.DataFrame_of three_loaves)
           insertion_sort_sorts); reflexivity.
Defined.
